(** * ParkPass: the database schema as a state machine

    The repository consists of one SQL migration
    ([supabase/migrations/20250619144511_sunny_term.sql]) and a TypeScript
    client ([src/lib/supabase.ts]) that only declares the row types and a few
    authentication helpers.  Everything that decides whether a reservation, a
    payment slip or a review is accepted lives in the migration: column
    defaults, CHECK / UNIQUE / FOREIGN KEY constraints, row-level security
    policies and two triggers.

    This development embeds that schema: tables are lists of rows, every SQL
    statement an authenticated client can issue is a function from a database
    to either a new database or an SQL error, and the properties of the
    booking engine are stated over the states reachable by such statements.

    The table [payment_methods] takes no part in bookings and its rows are
    left out.  A SELECT changes nothing and is no statement of the
    embedding, but the SELECT policies are part of it: PostgreSQL adds them
    to every statement that reads a column of their table and to every
    sub-select of a policy, and one of them reads its own table, which
    decides the fate of most statements (section "Expansion of the
    policies").  A session is that of an authenticated user; the only
    statements not bound by the policies are those of the authentication
    service on [auth.users]. *)

From Stdlib Require Import ZArith List String Ascii Bool Lia.
From Stdlib Require Import QArith Qround DecimalString.
From Stdlib.Strings Require Import Byte.
Import ListNotations.
Open Scope Z_scope.

(** ** Scalar types *)

(** [uuid], [timestamptz] (microseconds since the epoch), [decimal(10, 2)]
    (counted in hundredths) and [decimal(10, 8)], [decimal(11, 8)] (counted
    in hundred-millionths) are integers. *)
Definition uuid := Z.
Definition timestamptz := Z.
Definition numeric_10_2 := Z.
Definition numeric_10_8 := Z.
Definition numeric_11_8 := Z.

(** [integer] is a 32-bit signed integer; an out-of-range value is an error,
    it never wraps. *)
Definition int4_ok (n : Z) : bool := (-2147483648 <=? n) && (n <=? 2147483647).

(** [decimal(10, 2)] holds at most ten digits, two of them after the point. *)
Definition numeric_10_2_ok (n : Z) : bool := (-10000000000 <? n) && (n <? 10000000000).

(** [decimal(10, 8)] holds ten digits, eight of them after the point: the
    value is below 100 in absolute value.  [decimal(11, 8)] has one digit
    more before the point. *)
Definition numeric_10_8_ok (n : Z) : bool := (-10000000000 <? n) && (n <? 10000000000).
Definition numeric_11_8_ok (n : Z) : bool := (-100000000000 <? n) && (n <? 100000000000).

(** The enum types of the migration. *)
Inductive user_role := role_user | role_owner | role_admin.
Inductive booking_status := pending | confirmed | active | completed | cancelled.
Inductive payment_status := pay_pending | pay_verified | pay_rejected.
Inductive payment_method_type := method_qr_code | method_bank_transfer.
Inductive availability_status := available | blocked | maintenance.

Definition booking_status_eqb (a b : booking_status) : bool :=
  match a, b with
  | pending, pending | confirmed, confirmed | active, active
  | completed, completed | cancelled, cancelled => true
  | _, _ => false
  end.

Definition availability_status_eqb (a b : availability_status) : bool :=
  match a, b with
  | available, available | blocked, blocked | maintenance, maintenance => true
  | _, _ => false
  end.

(** ** SQL errors and statement results *)

Inductive sql_error :=
| check_violation (constraint : string)
| unique_violation (constraint : string)
| foreign_key_violation (constraint : string)
| row_security_violation (table : string)
| not_null_violation (column : string)
| invalid_text_representation (type : string)
| numeric_value_out_of_range (column : string)
| invalid_object_definition (relation : string).

Inductive result (A : Type) :=
| Ok (a : A)
| Err (e : sql_error).
Arguments Ok {A} a.
Arguments Err {A} e.

Definition bind {A B} (r : result A) (k : A -> result B) : result B :=
  match r with
  | Ok a => k a
  | Err e => Err e
  end.

(** [require c e] is the guard of one constraint. *)
Definition require (c : bool) (e : sql_error) : result unit :=
  if c then Ok tt else Err e.

Notation "x <- r ;; k" := (bind r (fun x => k))
  (at level 61, r at next level, right associativity).
Notation "r ;;; k" := (bind r (fun _ => k))
  (at level 61, right associativity).

Definition is_ok {A} (r : result A) : bool :=
  match r with Ok _ => true | Err _ => false end.

(** ** Column defaults of [bookings] *)

(** *** [encode(gen_random_bytes(16), 'hex')] *)

Definition hex_alphabet : list ascii := list_ascii_of_string "0123456789abcdef".

Definition hex_digit (n : N) : ascii := nth (N.to_nat n) hex_alphabet "0"%char.

Definition hex_of_byte (b : byte) : string :=
  let n := Byte.to_N b in
  String (hex_digit (n / 16)) (String (hex_digit (n mod 16)) EmptyString).

(** [encode(bs, 'hex')]: two lower-case digits per byte, high nibble first. *)
Fixpoint encode_hex (bs : list byte) : string :=
  match bs with
  | [] => EmptyString
  | b :: rest => (hex_of_byte b ++ encode_hex rest)%string
  end.

Definition is_hex_digit (c : ascii) : bool := existsb (Ascii.eqb c) hex_alphabet.

Definition hex_value (c : ascii) : option N :=
  let n := N_of_ascii c in
  if ((48 <=? n) && (n <=? 57))%N then Some (n - 48)%N
  else if ((97 <=? n) && (n <=? 102))%N then Some (n - 87)%N
  else None.

(** [decode(s, 'hex')], the inverse used to state that the encoding loses
    nothing. *)
Fixpoint decode_hex (s : string) : option (list byte) :=
  match s with
  | EmptyString => Some []
  | String hi (String lo rest) =>
      match hex_value hi, hex_value lo, decode_hex rest with
      | Some h, Some l, Some bs =>
          match Byte.of_N (16 * h + l) with
          | Some b => Some (b :: bs)
          | None => None
          end
      | _, _, _ => None
      end
  | String _ EmptyString => None
  end.

Fixpoint string_forallb (p : ascii -> bool) (s : string) : bool :=
  match s with
  | EmptyString => true
  | String c rest => p c && string_forallb p rest
  end.

(** *** [lpad(floor(random() * 10000)::text, 4, '0')] *)

(** [take n s]: the first [n] characters of [s]. *)
Fixpoint take (n : nat) (s : string) : string :=
  match n, s with
  | S n', String c rest => String c (take n' rest)
  | _, _ => EmptyString
  end.

(** The first [n] characters of [cur] followed by [fill] repeated for ever
    (nothing when [fill] is empty). *)
Fixpoint cycle_take (n : nat) (cur fill : string) : string :=
  match n with
  | O => EmptyString
  | S n' =>
      match cur with
      | String c rest => String c (cycle_take n' rest fill)
      | EmptyString =>
          match fill with
          | String c rest => String c (cycle_take n' rest fill)
          | EmptyString => EmptyString
          end
      end
  end.

(** [lpad(s, n, fill)]: [s] cut to [n] characters when it is longer, else
    [fill] repeated in front of it up to [n] characters. *)
Definition lpad (s : string) (n : nat) (fill : string) : string :=
  if (n <=? String.length s)%nat then take n s
  else (cycle_take (n - String.length s) fill fill ++ s)%string.

(** [x::text] for a [double precision] that holds an integer (below 1e15 it
    is printed without exponent or fraction). *)
Definition float8_integer_text (n : Z) : string :=
  NilZero.string_of_int (Z.to_int n).

(** The PIN made from the integer [n]: [lpad(n::text, 4, '0')]. *)
Definition pin_of (n : Z) : string := lpad (float8_integer_text n) 4 "0".


Definition is_decimal_digit (c : ascii) : bool :=
  let n := N_of_ascii c in ((48 <=? n) && (n <=? 57))%N.

(** The number a string of decimal digits denotes. *)
Definition decimal_value (s : string) : Z :=
  fold_left (fun acc c => 10 * acc + (Z.of_N (N_of_ascii c) - 48))
            (list_ascii_of_string s) 0.

(** *** The product in double precision

    [random()] returns a [double precision] of the interval [0, 1): a
    fraction [k / 2 ^ p] with [0 <= k < 2 ^ p] and [p <= 53] (52 bits from
    [pg_prng_double], 48 from [erand48] in older servers).  The product with
    10000 is a double too: the exact product rounded to 53 significant bits,
    to nearest and ties to even; [floor] and the cast to text are exact. *)

(** The integer [n] rounded to 53 significant bits. *)
Definition round_53_bits (n : Z) : Z :=
  let dropped := Z.log2 n + 1 - 53 in
  if dropped <=? 0 then n
  else
    let q := Z.shiftr n dropped in
    let rest := n - Z.shiftl q dropped in
    let half := Z.shiftl 1 (dropped - 1) in
    let q' := if (half <? rest) || ((rest =? half) && Z.odd q) then q + 1 else q in
    Z.shiftl q' dropped.

(** [floor(random() * 10000)] for [random() = k / 2 ^ p]. *)
Definition float8_floor_scaled (p k : Z) : Z :=
  Z.shiftr (round_53_bits (k * 10000)) p.

(** The values [random()] can return, as fractions [k # 2 ^ p]. *)
Definition is_float8_unit (r : Q) : bool :=
  let p := Z.log2 (Zpos (Qden r)) in
  (Zpos (Qden r) =? 2 ^ p) && (p <=? 53) && (0 <=? Qnum r) && (Qnum r <? Zpos (Qden r)).

(** The default PIN for the draw [random = k # 2 ^ p]. *)
Definition default_pin (random : Q) : string :=
  pin_of (float8_floor_scaled (Z.log2 (Zpos (Qden random))) (Qnum random)).

(** *** [generate_booking_code()]

    ['PB' || to_char(now(), 'YYYYMMDD') || '-' ||
     upper(substring(gen_random_uuid()::text, 1, 8))].  The migration defines
    the function and nothing calls it: no column default and no trigger
    refers to it, so it takes no part in any statement below. *)

Definition upper_char (c : ascii) : ascii :=
  let n := N_of_ascii c in
  if ((97 <=? n) && (n <=? 122))%N then ascii_of_N (n - 32) else c.

Fixpoint upper (s : string) : string :=
  match s with
  | EmptyString => EmptyString
  | String c rest => String (upper_char c) (upper rest)
  end.

Definition generate_booking_code (yyyymmdd uuid_text : string) : string :=
  ("PB" ++ yyyymmdd ++ "-" ++ upper (take 8 uuid_text))%string.

(** ** Rows

    One module per table, named after the row interface of
    [src/lib/supabase.ts]; the fields are the columns of the migration.
    Columns of type [text], [boolean], [jsonb] or [timestamptz] that carry no
    constraint (descriptions, addresses, notes, creation times, ...) are left
    out: no value of their type is refused.  A column declared NOT NULL, or
    non-optional in the TypeScript interface, has a plain type, so a
    statement never carries NULL for it. *)

(** A value of type [text[]]: the lengths of its dimensions and its elements
    in row-major order.  The empty array ['{}'] has no dimension. *)
Module TextArray.
Record t := mk { dims : list nat; items : list string }.
End TextArray.

(** The array a client sends for a list of strings. *)
Definition text_array (l : list string) : TextArray.t :=
  TextArray.mk (match l with [] => [] | _ => [List.length l] end) l.

(** An array literal is accepted when it is rectangular: at most six
    dimensions, none of them of length zero, and as many elements as the
    dimensions say. *)
Definition text_array_ok (a : TextArray.t) : bool :=
  match TextArray.dims a with
  | [] => match TextArray.items a with [] => true | _ => false end
  | ds => (List.length ds <=? 6)%nat
          && forallb (fun n => (1 <=? n)%nat) ds
          && (List.length (TextArray.items a) =? fold_right Nat.mul 1%nat ds)%nat
  end.

(** [array_length(a, 1)]: NULL for the empty array. *)
Definition array_length_1 (a : TextArray.t) : option Z :=
  match TextArray.dims a with
  | [] => None
  | n :: _ => Some (Z.of_nat n)
  end.

(** [auth.users] belongs to the authentication service; the migration reads
    [id], [email] and two keys of [raw_user_meta_data]. *)
Module UserMetaData.
Record t := mk { name : option string; role : option string }.
End UserMetaData.

Module User.
Record t := mk {
  id : uuid;
  email : option string;
  raw_user_meta_data : UserMetaData.t
}.
End User.

Module Profile.
Record t := mk {
  id : uuid;
  email : string;
  name : string;
  role : user_role
}.
End Profile.

Module ParkingSpot.
Record t := mk {
  id : uuid;
  owner_id : uuid;
  latitude : numeric_10_8;
  longitude : numeric_11_8;
  total_slots : Z;
  available_slots : Z;
  price : numeric_10_2;
  images : TextArray.t;
  is_active : bool;
  updated_at : timestamptz
}.
End ParkingSpot.

Module Vehicle.
Record t := mk {
  id : uuid;
  user_id : uuid;
  license_plate : string
}.
End Vehicle.

Module Booking.
Record t := mk {
  id : uuid;
  user_id : uuid;
  spot_id : uuid;
  vehicle_id : option uuid;
  start_time : timestamptz;
  end_time : timestamptz;
  total_cost : numeric_10_2;
  status : booking_status;
  payment_status : payment_status;
  qr_code : string;
  pin : string;
  confirmed_at : option timestamptz
}.
End Booking.

(** The column list of an [INSERT INTO bookings]: a column the statement
    leaves out ([None]) takes its default. *)
Module BookingInsert.
Record t := mk {
  id : option uuid;
  user_id : uuid;
  spot_id : uuid;
  vehicle_id : option uuid;
  start_time : timestamptz;
  end_time : timestamptz;
  total_cost : numeric_10_2;
  status : option booking_status;
  payment_status : option payment_status;
  qr_code : option string;
  pin : option string;
  confirmed_at : option timestamptz
}.
End BookingInsert.

Module PaymentSlip.
Record t := mk {
  id : uuid;
  booking_id : uuid;
  image_url : string;
  status : payment_status;
  verified_by : option uuid;
  verified_at : option timestamptz
}.
End PaymentSlip.

Module Review.
Record t := mk {
  id : uuid;
  booking_id : uuid;
  user_id : uuid;
  spot_id : uuid;
  rating : Z
}.
End Review.

Module AvailabilityBlock.
Record t := mk {
  id : uuid;
  spot_id : uuid;
  start_time : timestamptz;
  end_time : timestamptz;
  status : availability_status;
  slots_affected : Z;
  created_by : uuid
}.
End AvailabilityBlock.

(** ** The database *)

Record db := mkdb {
  auth_users : list User.t;
  profiles : list Profile.t;
  parking_spots : list ParkingSpot.t;
  vehicles : list Vehicle.t;
  bookings : list Booking.t;
  payment_slips : list PaymentSlip.t;
  reviews : list Review.t;
  availability_blocks : list AvailabilityBlock.t
}.

Definition empty_db : db := mkdb [] [] [] [] [] [] [] [].

Definition set_auth_users (d : db) (l : list User.t) : db :=
  mkdb l (profiles d) (parking_spots d) (vehicles d) (bookings d)
       (payment_slips d) (reviews d) (availability_blocks d).
Definition set_profiles (d : db) (l : list Profile.t) : db :=
  mkdb (auth_users d) l (parking_spots d) (vehicles d) (bookings d)
       (payment_slips d) (reviews d) (availability_blocks d).
Definition set_parking_spots (d : db) (l : list ParkingSpot.t) : db :=
  mkdb (auth_users d) (profiles d) l (vehicles d) (bookings d)
       (payment_slips d) (reviews d) (availability_blocks d).
Definition set_vehicles (d : db) (l : list Vehicle.t) : db :=
  mkdb (auth_users d) (profiles d) (parking_spots d) l (bookings d)
       (payment_slips d) (reviews d) (availability_blocks d).
Definition set_bookings (d : db) (l : list Booking.t) : db :=
  mkdb (auth_users d) (profiles d) (parking_spots d) (vehicles d) l
       (payment_slips d) (reviews d) (availability_blocks d).
Definition set_payment_slips (d : db) (l : list PaymentSlip.t) : db :=
  mkdb (auth_users d) (profiles d) (parking_spots d) (vehicles d) (bookings d)
       l (reviews d) (availability_blocks d).
Definition set_reviews (d : db) (l : list Review.t) : db :=
  mkdb (auth_users d) (profiles d) (parking_spots d) (vehicles d) (bookings d)
       (payment_slips d) l (availability_blocks d).
Definition set_availability_blocks (d : db) (l : list AvailabilityBlock.t) : db :=
  mkdb (auth_users d) (profiles d) (parking_spots d) (vehicles d) (bookings d)
       (payment_slips d) (reviews d) l.

(** What a statement reads from its session and from the server: the
    authenticated identity [auth.uid()], the clock [now()], and the values the
    random generators return during the statement. *)
Record env := mkenv {
  auth_uid : uuid;
  now : timestamptz;
  gen_random_uuid : uuid;
  gen_random_bytes : nat -> list byte;
  random : Q
}.

(** ** Generic constraint checks *)

Section Keys.
Context {A : Type}.

(** Some row of [rows] has key [k]. *)
Definition has_key (key : A -> Z) (k : Z) (rows : list A) : bool :=
  existsb (fun r => key r =? k) rows.

Definition has_text_key (key : A -> string) (k : string) (rows : list A) : bool :=
  existsb (fun r => String.eqb (key r) k) rows.

(** The rows whose key is not [k]. *)
Definition without (key : A -> Z) (k : Z) (rows : list A) : list A :=
  filter (fun r => negb (key r =? k)) rows.

Definition lookup (key : A -> Z) (k : Z) (rows : list A) : option A :=
  find (fun r => key r =? k) rows.
End Keys.

(** A nullable foreign key is checked only when it is set. *)
Definition references {A} (key : A -> Z) (k : option Z) (rows : list A) : bool :=
  match k with
  | Some v => has_key key v rows
  | None => true
  end.

Definition with_default {A} (dflt : A) (o : option A) : A :=
  match o with Some a => a | None => dflt end.

(** ** Row-level security policies

    Every table has row-level security enabled and every policy is granted
    TO authenticated, so a statement is allowed only through the policies
    below.  A policy with a USING clause and no WITH CHECK clause applies its
    USING expression to the new row as well (INSERT and UPDATE); several
    policies for the same command are alternatives. *)

(** [EXISTS (SELECT 1 FROM parking_spots WHERE id = spot_id AND owner_id = auth.uid())] *)
Definition owns_spot (e : env) (d : db) (spot_id : uuid) : bool :=
  existsb (fun s => (ParkingSpot.id s =? spot_id) && (ParkingSpot.owner_id s =? auth_uid e))
          (parking_spots d).

(** [EXISTS (SELECT 1 FROM bookings WHERE id = booking_id AND user_id = auth.uid())] *)
Definition owns_booking (e : env) (d : db) (booking_id : uuid) : bool :=
  existsb (fun b => (Booking.id b =? booking_id) && (Booking.user_id b =? auth_uid e))
          (bookings d).

(** [EXISTS (SELECT 1 FROM bookings b JOIN parking_spots ps ON b.spot_id = ps.id
     WHERE b.id = booking_id AND ps.owner_id = auth.uid())] *)
Definition owns_spot_of_booking (e : env) (d : db) (booking_id : uuid) : bool :=
  existsb (fun b => (Booking.id b =? booking_id) && owns_spot e d (Booking.spot_id b))
          (bookings d).

(** "Users can update own profile", FOR UPDATE.  [profiles] has no INSERT
    and no DELETE policy: a client can do neither. *)
Definition users_can_update_own_profile (e : env) (p : Profile.t) : bool :=
  auth_uid e =? Profile.id p.

(** "Owners can manage their spots", FOR ALL. *)
Definition owners_can_manage_their_spots (e : env) (s : ParkingSpot.t) : bool :=
  ParkingSpot.owner_id s =? auth_uid e.

(** "Users can manage their vehicles", FOR ALL. *)
Definition users_can_manage_their_vehicles (e : env) (v : Vehicle.t) : bool :=
  Vehicle.user_id v =? auth_uid e.

(** "Users can create bookings", FOR INSERT. *)
Definition users_can_create_bookings (e : env) (b : Booking.t) : bool :=
  Booking.user_id b =? auth_uid e.

(** "Users can update their pending bookings", FOR UPDATE. *)
Definition users_can_update_their_pending_bookings (e : env) (b : Booking.t) : bool :=
  (Booking.user_id b =? auth_uid e) && booking_status_eqb (Booking.status b) pending.

(** "Spot owners can update booking status", FOR UPDATE. *)
Definition spot_owners_can_update_booking_status (e : env) (d : db) (b : Booking.t) : bool :=
  owns_spot e d (Booking.spot_id b).

(** The two UPDATE policies of [bookings] together. *)
Definition bookings_update_policy (e : env) (d : db) (b : Booking.t) : bool :=
  users_can_update_their_pending_bookings e b || spot_owners_can_update_booking_status e d b.

(** "Users can manage slips for their bookings", FOR ALL. *)
Definition users_can_manage_slips_for_their_bookings (e : env) (d : db) (s : PaymentSlip.t) : bool :=
  owns_booking e d (PaymentSlip.booking_id s).

(** "Spot owners can verify payment slips", FOR UPDATE. *)
Definition spot_owners_can_verify_payment_slips (e : env) (d : db) (s : PaymentSlip.t) : bool :=
  owns_spot_of_booking e d (PaymentSlip.booking_id s).

Definition payment_slips_update_policy (e : env) (d : db) (s : PaymentSlip.t) : bool :=
  users_can_manage_slips_for_their_bookings e d s || spot_owners_can_verify_payment_slips e d s.

(** "Users can create reviews for their completed bookings", FOR INSERT. *)
Definition users_can_create_reviews_for_their_completed_bookings
    (e : env) (d : db) (r : Review.t) : bool :=
  (Review.user_id r =? auth_uid e) &&
  existsb (fun b => (Booking.id b =? Review.booking_id r)
                    && (Booking.user_id b =? auth_uid e)
                    && booking_status_eqb (Booking.status b) completed)
          (bookings d).

(** "Spot owners can manage availability blocks", FOR ALL. *)
Definition spot_owners_can_manage_availability_blocks
    (e : env) (d : db) (b : AvailabilityBlock.t) : bool :=
  owns_spot e d (AvailabilityBlock.spot_id b).

(** ** Expansion of the policies

    Before a statement runs, PostgreSQL adds to it the policies of its table:
    those FOR its command and FOR ALL, and those FOR SELECT as well when the
    statement reads a column of the table (in a WHERE or RETURNING clause or
    on the right of a SET).  A sub-select of an added policy is a query of
    its own: the SELECT policies of the tables it reads are added to it in
    the same way, and so on.  A table whose policies are being expanded and
    that is reached again, with policies that hold a sub-select, ends the
    statement with [infinite recursion detected in policy for relation]
    (SQLSTATE 42P17, invalid_object_definition), before any row is looked
    at. *)

Inductive relation :=
| rel_profiles | rel_parking_spots | rel_vehicles | rel_payment_methods
| rel_bookings | rel_payment_slips | rel_reviews | rel_availability_blocks.

Inductive command := cmd_select | cmd_insert | cmd_update | cmd_delete.

Definition relation_eqb (a b : relation) : bool :=
  match a, b with
  | rel_profiles, rel_profiles | rel_parking_spots, rel_parking_spots
  | rel_vehicles, rel_vehicles | rel_payment_methods, rel_payment_methods
  | rel_bookings, rel_bookings | rel_payment_slips, rel_payment_slips
  | rel_reviews, rel_reviews | rel_availability_blocks, rel_availability_blocks => true
  | _, _ => false
  end.

Definition command_eqb (a b : command) : bool :=
  match a, b with
  | cmd_select, cmd_select | cmd_insert, cmd_insert
  | cmd_update, cmd_update | cmd_delete, cmd_delete => true
  | _, _ => false
  end.

Definition relation_name (r : relation) : string :=
  match r with
  | rel_profiles => "profiles"
  | rel_parking_spots => "parking_spots"
  | rel_vehicles => "vehicles"
  | rel_payment_methods => "payment_methods"
  | rel_bookings => "bookings"
  | rel_payment_slips => "payment_slips"
  | rel_reviews => "reviews"
  | rel_availability_blocks => "availability_blocks"
  end.

(** A policy as the expansion sees it: its table, its command ([None] is
    FOR ALL) and the tables its sub-selects read. *)
Module Policy.
Record t := mk {
  name : string;
  on : relation;
  command : option command;
  sub_selects : list relation
}.
End Policy.

(** The policies of the migration, in its order. *)
Definition policies : list Policy.t :=
  [ Policy.mk "Users can read own profile" rel_profiles (Some cmd_select) [];
    Policy.mk "Users can update own profile" rel_profiles (Some cmd_update) [];
    Policy.mk "Admins can read all profiles" rel_profiles (Some cmd_select) [rel_profiles];
    Policy.mk "Anyone can read active parking spots" rel_parking_spots (Some cmd_select) [];
    Policy.mk "Owners can manage their spots" rel_parking_spots None [];
    Policy.mk "Admins can read all spots" rel_parking_spots (Some cmd_select) [rel_profiles];
    Policy.mk "Users can manage their vehicles" rel_vehicles None [];
    Policy.mk "Owners can manage their payment methods" rel_payment_methods None [];
    Policy.mk "Users can read their bookings" rel_bookings (Some cmd_select) [];
    Policy.mk "Users can create bookings" rel_bookings (Some cmd_insert) [];
    Policy.mk "Users can update their pending bookings" rel_bookings (Some cmd_update) [];
    Policy.mk "Spot owners can read bookings for their spots" rel_bookings (Some cmd_select)
              [rel_parking_spots];
    Policy.mk "Spot owners can update booking status" rel_bookings (Some cmd_update)
              [rel_parking_spots];
    Policy.mk "Users can manage slips for their bookings" rel_payment_slips None
              [rel_bookings];
    Policy.mk "Spot owners can read slips for their spots" rel_payment_slips
              (Some cmd_select) [rel_bookings; rel_parking_spots];
    Policy.mk "Spot owners can verify payment slips" rel_payment_slips (Some cmd_update)
              [rel_bookings; rel_parking_spots];
    Policy.mk "Anyone can read reviews" rel_reviews (Some cmd_select) [];
    Policy.mk "Users can create reviews for their completed bookings" rel_reviews
              (Some cmd_insert) [rel_bookings];
    Policy.mk "Anyone can read availability blocks" rel_availability_blocks
              (Some cmd_select) [];
    Policy.mk "Spot owners can manage availability blocks" rel_availability_blocks None
              [rel_parking_spots] ].

(** The policies added to a statement with command [cmd] on [rel]; [reads]
    says whether the statement reads a column of [rel]. *)
Definition added_policies (rel : relation) (cmd : command) (reads : bool) : list Policy.t :=
  filter (fun p =>
            relation_eqb (Policy.on p) rel
            && match Policy.command p with
               | None => true
               | Some c => command_eqb c cmd || (reads && command_eqb c cmd_select)
               end)
         policies.

(** The expansion for [rel], with [active] the tables whose policies are
    being expanded.  Every step down adds a table to [active], so the depth
    is bounded by the number of tables; [fuel] is that bound. *)
Fixpoint expand (fuel : nat) (active : list relation) (rel : relation) (cmd : command)
    (reads : bool) : result unit :=
  match fuel with
  | O => Err (invalid_object_definition (relation_name rel))
  | S fuel' =>
      match flat_map Policy.sub_selects (added_policies rel cmd reads) with
      | [] => Ok tt
      | subs =>
          if existsb (relation_eqb rel) active
          then Err (invalid_object_definition (relation_name rel))
          else
            fold_left (fun done sub =>
                         done ;;; expand fuel' (rel :: active) sub cmd_select true)
                      subs (Ok tt)
      end
  end.

(** What the policies do to a statement of a client before it runs. *)
Definition row_security (rel : relation) (cmd : command) (reads : bool) : result unit :=
  expand 9 [] rel cmd reads.

(** The error of every statement that the policies end: the expansion
    always comes to the policy of [profiles] that reads [profiles]. *)
Definition refused : result db := Err (invalid_object_definition "profiles").

(** ** Table constraints *)

(** [CHECK (available_slots <= total_slots AND available_slots >= 0)] *)
Definition valid_slots (s : ParkingSpot.t) : bool :=
  (ParkingSpot.available_slots s <=? ParkingSpot.total_slots s)
  && (ParkingSpot.available_slots s >=? 0).

(** [CHECK (price > 0)] *)
Definition valid_price (s : ParkingSpot.t) : bool := ParkingSpot.price s >? 0.

(** [CHECK (array_length(images, 1) >= 1 AND array_length(images, 1) <= 3)];
    [array_length] of an empty array is NULL, and a CHECK whose value is NULL
    passes. *)
Definition valid_images (s : ParkingSpot.t) : bool :=
  match array_length_1 (ParkingSpot.images s) with
  | None => true
  | Some n => (n >=? 1) && (n <=? 3)
  end.

(** [CHECK (end_time > start_time)] on [bookings]. *)
Definition valid_booking_time (b : Booking.t) : bool :=
  Booking.end_time b >? Booking.start_time b.

(** [CHECK (total_cost > 0)] *)
Definition valid_cost (b : Booking.t) : bool := Booking.total_cost b >? 0.

(** [CHECK (rating >= 1 AND rating <= 5)] *)
Definition reviews_rating_check (r : Review.t) : bool :=
  (Review.rating r >=? 1) && (Review.rating r <=? 5).

(** [CHECK (end_time > start_time)] on [availability_blocks]. *)
Definition valid_block_time (b : AvailabilityBlock.t) : bool :=
  AvailabilityBlock.end_time b >? AvailabilityBlock.start_time b.

(** ** Statements on [auth.users] and [profiles] *)

(** [split_part(s, sep, 1)]: the text before the first [sep], all of [s] when
    there is none. *)
Fixpoint split_part_1 (s : string) (sep : ascii) : string :=
  match s with
  | EmptyString => EmptyString
  | String c rest => if Ascii.eqb c sep then EmptyString else String c (split_part_1 rest sep)
  end.

(** The cast [text::user_role]. *)
Definition user_role_of_text (s : string) : result user_role :=
  if String.eqb s "user" then Ok role_user
  else if String.eqb s "owner" then Ok role_owner
  else if String.eqb s "admin" then Ok role_admin
  else Err (invalid_text_representation "user_role").

(** The trigger function [handle_new_user()], SECURITY DEFINER: it inserts
    into [profiles] whatever the caller's policies are. *)
Definition handle_new_user (NEW : User.t) (d : db) : result db :=
  let meta := User.raw_user_meta_data NEW in
  role <- user_role_of_text (with_default "user"%string (UserMetaData.role meta)) ;;
  match User.email NEW with
  | None => Err (not_null_violation "email")
  | Some email =>
      let name := with_default (split_part_1 email "@") (UserMetaData.name meta) in
      require (negb (has_key Profile.id (User.id NEW) (profiles d)))
              (unique_violation "profiles_pkey") ;;;
      require (negb (has_text_key Profile.email email (profiles d)))
              (unique_violation "profiles_email_key") ;;;
      Ok (set_profiles d (profiles d ++ [Profile.mk (User.id NEW) email name role]))
  end.

(** The authentication service inserts a row into [auth.users]; the trigger
    [on_auth_user_created] then runs [handle_new_user] AFTER INSERT FOR EACH
    ROW, and an error in the trigger aborts the insert. *)
Definition insert_auth_user (u : User.t) (d : db) : result db :=
  require (negb (has_key User.id (User.id u) (auth_users d)))
          (unique_violation "users_pkey") ;;;
  handle_new_user u (set_auth_users d (auth_users d ++ [u])).

(** [UPDATE profiles SET ... WHERE id = id]: [new] is the row after the SET
    clause.  The WHERE clause reads [id], so the SELECT policies are added. *)
Definition update_profile (e : env) (id : uuid) (new : Profile.t) (d : db) : result db :=
  row_security rel_profiles cmd_update true ;;;
  match lookup Profile.id id (profiles d) with
  | None => Ok d
  | Some old =>
      if negb (users_can_update_own_profile e old) then Ok d
      else
        require (users_can_update_own_profile e new) (row_security_violation "profiles") ;;;
        require (negb (has_key Profile.id (Profile.id new) (without Profile.id id (profiles d))))
                (unique_violation "profiles_pkey") ;;;
        require (negb (has_text_key Profile.email (Profile.email new)
                                    (without Profile.id id (profiles d))))
                (unique_violation "profiles_email_key") ;;;
        require (has_key User.id (Profile.id new) (auth_users d))
                (foreign_key_violation "profiles_id_fkey") ;;;
        Ok (set_profiles d (without Profile.id id (profiles d) ++ [new]))
  end.

(** The SET clause of an UPDATE of [profiles] that gives constants to some
    of the columns [email], [name] and [role]. *)
Module ProfileSet.
Record t := mk {
  email : option string;
  name : option string;
  role : option user_role
}.
End ProfileSet.

Definition set_profile (set : ProfileSet.t) (p : Profile.t) : Profile.t :=
  Profile.mk (Profile.id p)
             (with_default (Profile.email p) (ProfileSet.email set))
             (with_default (Profile.name p) (ProfileSet.name set))
             (with_default (Profile.role p) (ProfileSet.role set)).

(** [UPDATE profiles SET ...] with constants and without a WHERE clause: the
    statement reads no column, so only the UPDATE policy is added, and it
    lets through the profile of the acting user, the one row updated. *)
Definition update_profiles (e : env) (set : ProfileSet.t) (d : db) : result db :=
  row_security rel_profiles cmd_update false ;;;
  match lookup Profile.id (auth_uid e) (profiles d) with
  | None => Ok d
  | Some old =>
      let new := set_profile set old in
      require (users_can_update_own_profile e new) (row_security_violation "profiles") ;;;
      require (negb (has_text_key Profile.email (Profile.email new)
                                  (without Profile.id (auth_uid e) (profiles d))))
              (unique_violation "profiles_email_key") ;;;
      Ok (set_profiles d (without Profile.id (auth_uid e) (profiles d) ++ [new]))
  end.

(** ** Statements on [parking_spots] *)

(** The CHECK constraints of a row, which PostgreSQL tests in the order of
    their names. *)
Definition parking_spot_checks (s : ParkingSpot.t) : result unit :=
  require (valid_images s) (check_violation "valid_images") ;;;
  require (valid_price s) (check_violation "valid_price") ;;;
  require (valid_slots s) (check_violation "valid_slots").

Definition check_parking_spot (others : list ParkingSpot.t) (d : db) (s : ParkingSpot.t)
  : result unit :=
  parking_spot_checks s ;;;
  require (negb (has_key ParkingSpot.id (ParkingSpot.id s) others))
          (unique_violation "parking_spots_pkey") ;;;
  require (has_key Profile.id (ParkingSpot.owner_id s) (profiles d))
          (foreign_key_violation "parking_spots_owner_id_fkey").

(** The values of a row must be values of their columns' types: a
    well-formed array, and numbers within range, in the order of the
    columns. *)
Definition parking_spot_types (s : ParkingSpot.t) : result unit :=
  require (text_array_ok (ParkingSpot.images s)) (invalid_text_representation "text[]") ;;;
  require (numeric_10_8_ok (ParkingSpot.latitude s))
          (numeric_value_out_of_range "latitude") ;;;
  require (numeric_11_8_ok (ParkingSpot.longitude s))
          (numeric_value_out_of_range "longitude") ;;;
  require (int4_ok (ParkingSpot.total_slots s)) (numeric_value_out_of_range "total_slots") ;;;
  require (int4_ok (ParkingSpot.available_slots s))
          (numeric_value_out_of_range "available_slots") ;;;
  require (numeric_10_2_ok (ParkingSpot.price s)) (numeric_value_out_of_range "price").

Definition insert_parking_spot (e : env) (s : ParkingSpot.t) (d : db) : result db :=
  row_security rel_parking_spots cmd_insert false ;;;
  parking_spot_types s ;;;
  require (owners_can_manage_their_spots e s) (row_security_violation "parking_spots") ;;;
  check_parking_spot (parking_spots d) d s ;;;
  Ok (set_parking_spots d (parking_spots d ++ [s])).

(** A key that changes must not be referred to (ON UPDATE is NO ACTION
    throughout). *)
Definition unreferenced {A} (key : A -> Z) (old new : uuid) (rows : list A) : bool :=
  (new =? old) || negb (has_key key old rows).

(** [UPDATE parking_spots SET ... WHERE id = id]: [new] is the row after the
    SET clause.  The WHERE clause reads [id], so the SELECT policies are
    added.  A row the policy hides is not updated and the statement succeeds
    on no row. *)
Definition update_parking_spot (e : env) (id : uuid) (new : ParkingSpot.t) (d : db)
  : result db :=
  row_security rel_parking_spots cmd_update true ;;;
  parking_spot_types new ;;;
  match lookup ParkingSpot.id id (parking_spots d) with
  | None => Ok d
  | Some old =>
      if negb (owners_can_manage_their_spots e old) then Ok d
      else
        require (owners_can_manage_their_spots e new)
                (row_security_violation "parking_spots") ;;;
        check_parking_spot (without ParkingSpot.id id (parking_spots d)) d new ;;;
        require (unreferenced Booking.spot_id id (ParkingSpot.id new) (bookings d))
                (foreign_key_violation "bookings_spot_id_fkey") ;;;
        require (unreferenced Review.spot_id id (ParkingSpot.id new) (reviews d))
                (foreign_key_violation "reviews_spot_id_fkey") ;;;
        require (unreferenced AvailabilityBlock.spot_id id (ParkingSpot.id new)
                              (availability_blocks d))
                (foreign_key_violation "availability_blocks_spot_id_fkey") ;;;
        Ok (set_parking_spots d (without ParkingSpot.id id (parking_spots d) ++ [new]))
  end.

(** [DELETE FROM parking_spots WHERE id = id], with the ON DELETE CASCADE of
    [bookings], [reviews] and [availability_blocks], and from the deleted
    bookings on to [payment_slips] and [reviews].  The WHERE clause reads
    [id], so the SELECT policies are added. *)
Definition delete_parking_spot (e : env) (id : uuid) (d : db) : result db :=
  row_security rel_parking_spots cmd_delete true ;;;
  match lookup ParkingSpot.id id (parking_spots d) with
  | None => Ok d
  | Some old =>
      if negb (owners_can_manage_their_spots e old) then Ok d
      else
        let gone := map Booking.id (filter (fun b => Booking.spot_id b =? id) (bookings d)) in
        let kept (booking_id : uuid) := negb (existsb (Z.eqb booking_id) gone) in
        Ok (mkdb (auth_users d) (profiles d)
                 (without ParkingSpot.id id (parking_spots d))
                 (vehicles d)
                 (without Booking.spot_id id (bookings d))
                 (filter (fun s => kept (PaymentSlip.booking_id s)) (payment_slips d))
                 (filter (fun r => kept (Review.booking_id r))
                         (without Review.spot_id id (reviews d)))
                 (without AvailabilityBlock.spot_id id (availability_blocks d)))
  end.

(** The SET clause of an UPDATE of [parking_spots] that gives constants to
    some of the columns other than [id] and [owner_id]. *)
Module ParkingSpotSet.
Record t := mk {
  latitude : option numeric_10_8;
  longitude : option numeric_11_8;
  total_slots : option Z;
  available_slots : option Z;
  price : option numeric_10_2;
  images : option TextArray.t;
  is_active : option bool;
  updated_at : option timestamptz
}.
End ParkingSpotSet.

Definition set_parking_spot (set : ParkingSpotSet.t) (s : ParkingSpot.t) : ParkingSpot.t :=
  ParkingSpot.mk (ParkingSpot.id s) (ParkingSpot.owner_id s)
                 (with_default (ParkingSpot.latitude s) (ParkingSpotSet.latitude set))
                 (with_default (ParkingSpot.longitude s) (ParkingSpotSet.longitude set))
                 (with_default (ParkingSpot.total_slots s) (ParkingSpotSet.total_slots set))
                 (with_default (ParkingSpot.available_slots s)
                               (ParkingSpotSet.available_slots set))
                 (with_default (ParkingSpot.price s) (ParkingSpotSet.price set))
                 (with_default (ParkingSpot.images s) (ParkingSpotSet.images set))
                 (with_default (ParkingSpot.is_active s) (ParkingSpotSet.is_active set))
                 (with_default (ParkingSpot.updated_at s) (ParkingSpotSet.updated_at set)).

(** A constant that is given must be a value of its column's type. *)
Definition given (ok : Z -> bool) (v : option Z) : bool :=
  match v with Some n => ok n | None => true end.

Definition parking_spot_set_types (set : ParkingSpotSet.t) : result unit :=
  require (match ParkingSpotSet.images set with Some a => text_array_ok a | None => true end)
          (invalid_text_representation "text[]") ;;;
  require (given numeric_10_8_ok (ParkingSpotSet.latitude set))
          (numeric_value_out_of_range "latitude") ;;;
  require (given numeric_11_8_ok (ParkingSpotSet.longitude set))
          (numeric_value_out_of_range "longitude") ;;;
  require (given int4_ok (ParkingSpotSet.total_slots set))
          (numeric_value_out_of_range "total_slots") ;;;
  require (given int4_ok (ParkingSpotSet.available_slots set))
          (numeric_value_out_of_range "available_slots") ;;;
  require (given numeric_10_2_ok (ParkingSpotSet.price set))
          (numeric_value_out_of_range "price").

(** A check that every row must pass: the first row that fails ends the
    statement. *)
Fixpoint every_row {A} (check : A -> result unit) (rows : list A) : result unit :=
  match rows with
  | [] => Ok tt
  | r :: rest => check r ;;; every_row check rest
  end.

(** [UPDATE parking_spots SET ...] with constants and without a WHERE
    clause: the statement reads no column, so only the policy FOR ALL is
    added, and it lets through the spots of the acting user, which are all
    updated.  The key and the owner of a row stay, so that only the CHECK
    constraints can refuse the new rows. *)
Definition update_parking_spots (e : env) (set : ParkingSpotSet.t) (d : db) : result db :=
  row_security rel_parking_spots cmd_update false ;;;
  parking_spot_set_types set ;;;
  every_row parking_spot_checks
            (map (set_parking_spot set)
                 (filter (owners_can_manage_their_spots e) (parking_spots d))) ;;;
  Ok (set_parking_spots d
        (map (fun s => if owners_can_manage_their_spots e s then set_parking_spot set s else s)
             (parking_spots d))).

(** [DELETE FROM parking_spots] without a WHERE clause: all spots of the
    acting user go, with the ON DELETE CASCADE of [bookings], [reviews] and
    [availability_blocks], and from the deleted bookings on to
    [payment_slips] and [reviews]. *)
Definition delete_parking_spots (e : env) (d : db) : result db :=
  row_security rel_parking_spots cmd_delete false ;;;
  let among (l : list uuid) (k : uuid) := existsb (Z.eqb k) l in
  let spots_gone :=
    map ParkingSpot.id (filter (owners_can_manage_their_spots e) (parking_spots d)) in
  let bookings_gone :=
    map Booking.id (filter (fun b => among spots_gone (Booking.spot_id b)) (bookings d)) in
  Ok (mkdb (auth_users d) (profiles d)
           (filter (fun s => negb (owners_can_manage_their_spots e s)) (parking_spots d))
           (vehicles d)
           (filter (fun b => negb (among spots_gone (Booking.spot_id b))) (bookings d))
           (filter (fun s => negb (among bookings_gone (PaymentSlip.booking_id s)))
                   (payment_slips d))
           (filter (fun r => negb (among bookings_gone (Review.booking_id r))
                             && negb (among spots_gone (Review.spot_id r)))
                   (reviews d))
           (filter (fun b => negb (among spots_gone (AvailabilityBlock.spot_id b)))
                   (availability_blocks d))).

(** ** Statements on [vehicles]

    The one policy of the table is FOR ALL and holds no sub-select, so that
    an UPDATE or DELETE with a WHERE clause goes on to its rows. *)

Definition check_vehicle (others : list Vehicle.t) (d : db) (v : Vehicle.t) : result unit :=
  require (negb (has_key Vehicle.id (Vehicle.id v) others))
          (unique_violation "vehicles_pkey") ;;;
  require (negb (existsb (fun w => (Vehicle.user_id w =? Vehicle.user_id v)
                                   && String.eqb (Vehicle.license_plate w)
                                                 (Vehicle.license_plate v))
                         others))
          (unique_violation "vehicles_user_id_license_plate_key") ;;;
  require (has_key Profile.id (Vehicle.user_id v) (profiles d))
          (foreign_key_violation "vehicles_user_id_fkey").

Definition insert_vehicle (e : env) (v : Vehicle.t) (d : db) : result db :=
  row_security rel_vehicles cmd_insert false ;;;
  require (users_can_manage_their_vehicles e v) (row_security_violation "vehicles") ;;;
  check_vehicle (vehicles d) d v ;;;
  Ok (set_vehicles d (vehicles d ++ [v])).

Definition update_vehicle (e : env) (id : uuid) (new : Vehicle.t) (d : db) : result db :=
  row_security rel_vehicles cmd_update true ;;;
  match lookup Vehicle.id id (vehicles d) with
  | None => Ok d
  | Some old =>
      if negb (users_can_manage_their_vehicles e old) then Ok d
      else
        require (users_can_manage_their_vehicles e new) (row_security_violation "vehicles") ;;;
        check_vehicle (without Vehicle.id id (vehicles d)) d new ;;;
        require ((Vehicle.id new =? id)
                 || negb (existsb (fun b => match Booking.vehicle_id b with
                                            | Some v => v =? id
                                            | None => false
                                            end)
                                  (bookings d)))
                (foreign_key_violation "bookings_vehicle_id_fkey") ;;;
        Ok (set_vehicles d (without Vehicle.id id (vehicles d) ++ [new]))
  end.

(** ON DELETE SET NULL of [bookings.vehicle_id]: the booking forgets a
    vehicle that is among the deleted ones. *)
Definition forget_vehicles (gone : list uuid) (b : Booking.t) : Booking.t :=
  match Booking.vehicle_id b with
  | Some v =>
      if existsb (Z.eqb v) gone
      then Booking.mk (Booking.id b) (Booking.user_id b) (Booking.spot_id b) None
                      (Booking.start_time b) (Booking.end_time b) (Booking.total_cost b)
                      (Booking.status b) (Booking.payment_status b) (Booking.qr_code b)
                      (Booking.pin b) (Booking.confirmed_at b)
      else b
  | None => b
  end.

Definition delete_vehicle (e : env) (id : uuid) (d : db) : result db :=
  row_security rel_vehicles cmd_delete true ;;;
  match lookup Vehicle.id id (vehicles d) with
  | None => Ok d
  | Some old =>
      if negb (users_can_manage_their_vehicles e old) then Ok d
      else Ok (set_bookings (set_vehicles d (without Vehicle.id id (vehicles d)))
                            (map (forget_vehicles [id]) (bookings d)))
  end.

(** ** Statements on [bookings] *)

(** The row an INSERT stores: the columns it leaves out take the defaults
    ['pending'], ['pending'], [gen_random_uuid()],
    [encode(gen_random_bytes(16), 'hex')] and
    [lpad(floor(random() * 10000)::text, 4, '0')]. *)
Definition booking_of_insert (e : env) (r : BookingInsert.t) : Booking.t :=
  Booking.mk
    (with_default (gen_random_uuid e) (BookingInsert.id r))
    (BookingInsert.user_id r)
    (BookingInsert.spot_id r)
    (BookingInsert.vehicle_id r)
    (BookingInsert.start_time r)
    (BookingInsert.end_time r)
    (BookingInsert.total_cost r)
    (with_default pending (BookingInsert.status r))
    (with_default pay_pending (BookingInsert.payment_status r))
    (with_default (encode_hex (gen_random_bytes e 16)) (BookingInsert.qr_code r))
    (with_default (default_pin (random e)) (BookingInsert.pin r))
    (BookingInsert.confirmed_at r).

(** CHECK, UNIQUE and FOREIGN KEY constraints of a booking row, against the
    other rows of the table. *)
Definition check_booking (others : list Booking.t) (d : db) (b : Booking.t) : result unit :=
  require (valid_booking_time b) (check_violation "valid_booking_time") ;;;
  require (valid_cost b) (check_violation "valid_cost") ;;;
  require (negb (has_key Booking.id (Booking.id b) others))
          (unique_violation "bookings_pkey") ;;;
  require (negb (has_text_key Booking.qr_code (Booking.qr_code b) others))
          (unique_violation "bookings_qr_code_key") ;;;
  require (has_key Profile.id (Booking.user_id b) (profiles d))
          (foreign_key_violation "bookings_user_id_fkey") ;;;
  require (has_key ParkingSpot.id (Booking.spot_id b) (parking_spots d))
          (foreign_key_violation "bookings_spot_id_fkey") ;;;
  require (references Vehicle.id (Booking.vehicle_id b) (vehicles d))
          (foreign_key_violation "bookings_vehicle_id_fkey").

(** [INSERT INTO bookings]: the only way the schema offers to make a
    reservation.  No trigger is attached to the table. *)
Definition insert_booking (e : env) (r : BookingInsert.t) (d : db) : result db :=
  let new := booking_of_insert e r in
  row_security rel_bookings cmd_insert false ;;;
  require (numeric_10_2_ok (Booking.total_cost new))
          (numeric_value_out_of_range "total_cost") ;;;
  require (users_can_create_bookings e new) (row_security_violation "bookings") ;;;
  check_booking (bookings d) d new ;;;
  Ok (set_bookings d (bookings d ++ [new])).

(** [UPDATE bookings SET ... WHERE id = id]: [new] is the row after the SET
    clause.  The two UPDATE policies are added, and the SELECT policies for
    the WHERE clause.  The old row must pass one of the two UPDATE policies,
    else it is not updated and the statement succeeds on no row; the new row
    must pass one of them too, else the statement fails. *)
Definition update_booking (e : env) (id : uuid) (new : Booking.t) (d : db) : result db :=
  row_security rel_bookings cmd_update true ;;;
  require (numeric_10_2_ok (Booking.total_cost new))
          (numeric_value_out_of_range "total_cost") ;;;
  match lookup Booking.id id (bookings d) with
  | None => Ok d
  | Some old =>
      if negb (bookings_update_policy e d old) then Ok d
      else
        require (bookings_update_policy e d new) (row_security_violation "bookings") ;;;
        check_booking (without Booking.id id (bookings d)) d new ;;;
        require (unreferenced PaymentSlip.booking_id id (Booking.id new) (payment_slips d))
                (foreign_key_violation "payment_slips_booking_id_fkey") ;;;
        require (unreferenced Review.booking_id id (Booking.id new) (reviews d))
                (foreign_key_violation "reviews_booking_id_fkey") ;;;
        Ok (set_bookings d (without Booking.id id (bookings d) ++ [new]))
  end.

(** ** Statements on [payment_slips]

    Every policy of the table holds a sub-select on [bookings]. *)

Definition check_payment_slip (others : list PaymentSlip.t) (d : db) (s : PaymentSlip.t)
  : result unit :=
  require (negb (has_key PaymentSlip.id (PaymentSlip.id s) others))
          (unique_violation "payment_slips_pkey") ;;;
  require (negb (has_key PaymentSlip.booking_id (PaymentSlip.booking_id s) others))
          (unique_violation "payment_slips_booking_id_key") ;;;
  require (has_key Booking.id (PaymentSlip.booking_id s) (bookings d))
          (foreign_key_violation "payment_slips_booking_id_fkey") ;;;
  require (references Profile.id (PaymentSlip.verified_by s) (profiles d))
          (foreign_key_violation "payment_slips_verified_by_fkey").

Definition insert_payment_slip (e : env) (s : PaymentSlip.t) (d : db) : result db :=
  row_security rel_payment_slips cmd_insert false ;;;
  require (users_can_manage_slips_for_their_bookings e d s)
          (row_security_violation "payment_slips") ;;;
  check_payment_slip (payment_slips d) d s ;;;
  Ok (set_payment_slips d (payment_slips d ++ [s])).

Definition update_payment_slip (e : env) (id : uuid) (new : PaymentSlip.t) (d : db)
  : result db :=
  row_security rel_payment_slips cmd_update true ;;;
  match lookup PaymentSlip.id id (payment_slips d) with
  | None => Ok d
  | Some old =>
      if negb (payment_slips_update_policy e d old) then Ok d
      else
        require (payment_slips_update_policy e d new)
                (row_security_violation "payment_slips") ;;;
        check_payment_slip (without PaymentSlip.id id (payment_slips d)) d new ;;;
        Ok (set_payment_slips d (without PaymentSlip.id id (payment_slips d) ++ [new]))
  end.

Definition delete_payment_slip (e : env) (id : uuid) (d : db) : result db :=
  row_security rel_payment_slips cmd_delete true ;;;
  match lookup PaymentSlip.id id (payment_slips d) with
  | None => Ok d
  | Some old =>
      if negb (users_can_manage_slips_for_their_bookings e d old) then Ok d
      else Ok (set_payment_slips d (without PaymentSlip.id id (payment_slips d)))
  end.

(** ** Statements on [reviews] *)

(** The trigger function [update_spot_rating()], run by [on_review_created]
    AFTER INSERT ON reviews with the rights of the inserting user: its
    [UPDATE parking_spots SET updated_at = now() WHERE id = NEW.spot_id] is
    a statement of that user, with the policies of [parking_spots] added,
    and reaches the spot only when that user owns it.  An error in the
    trigger aborts the insert. *)
Definition update_spot_rating (e : env) (NEW : Review.t) (d : db) : result db :=
  row_security rel_parking_spots cmd_update true ;;;
  Ok (set_parking_spots d
        (map (fun s =>
                if (ParkingSpot.id s =? Review.spot_id NEW)
                   && owners_can_manage_their_spots e s
                then ParkingSpot.mk (ParkingSpot.id s) (ParkingSpot.owner_id s)
                                    (ParkingSpot.latitude s) (ParkingSpot.longitude s)
                                    (ParkingSpot.total_slots s)
                                    (ParkingSpot.available_slots s)
                                    (ParkingSpot.price s) (ParkingSpot.images s)
                                    (ParkingSpot.is_active s) (now e)
                else s)
             (parking_spots d))).

(** [INSERT INTO reviews]; the table has no UPDATE and no DELETE policy. *)
Definition insert_review (e : env) (r : Review.t) (d : db) : result db :=
  row_security rel_reviews cmd_insert false ;;;
  require (int4_ok (Review.rating r)) (numeric_value_out_of_range "rating") ;;;
  require (users_can_create_reviews_for_their_completed_bookings e d r)
          (row_security_violation "reviews") ;;;
  require (reviews_rating_check r) (check_violation "reviews_rating_check") ;;;
  require (negb (has_key Review.id (Review.id r) (reviews d)))
          (unique_violation "reviews_pkey") ;;;
  require (negb (has_key Review.booking_id (Review.booking_id r) (reviews d)))
          (unique_violation "reviews_booking_id_key") ;;;
  require (has_key Booking.id (Review.booking_id r) (bookings d))
          (foreign_key_violation "reviews_booking_id_fkey") ;;;
  require (has_key Profile.id (Review.user_id r) (profiles d))
          (foreign_key_violation "reviews_user_id_fkey") ;;;
  require (has_key ParkingSpot.id (Review.spot_id r) (parking_spots d))
          (foreign_key_violation "reviews_spot_id_fkey") ;;;
  update_spot_rating e r (set_reviews d (reviews d ++ [r])).

(** ** Statements on [availability_blocks]

    The policy FOR ALL of the table holds a sub-select on [parking_spots]. *)

Definition check_availability_block (others : list AvailabilityBlock.t) (d : db)
    (b : AvailabilityBlock.t) : result unit :=
  require (valid_block_time b) (check_violation "valid_block_time") ;;;
  require (negb (has_key AvailabilityBlock.id (AvailabilityBlock.id b) others))
          (unique_violation "availability_blocks_pkey") ;;;
  require (has_key ParkingSpot.id (AvailabilityBlock.spot_id b) (parking_spots d))
          (foreign_key_violation "availability_blocks_spot_id_fkey") ;;;
  require (has_key Profile.id (AvailabilityBlock.created_by b) (profiles d))
          (foreign_key_violation "availability_blocks_created_by_fkey").

Definition insert_availability_block (e : env) (b : AvailabilityBlock.t) (d : db)
  : result db :=
  row_security rel_availability_blocks cmd_insert false ;;;
  require (int4_ok (AvailabilityBlock.slots_affected b))
          (numeric_value_out_of_range "slots_affected") ;;;
  require (spot_owners_can_manage_availability_blocks e d b)
          (row_security_violation "availability_blocks") ;;;
  check_availability_block (availability_blocks d) d b ;;;
  Ok (set_availability_blocks d (availability_blocks d ++ [b])).

Definition update_availability_block (e : env) (id : uuid) (new : AvailabilityBlock.t)
    (d : db) : result db :=
  row_security rel_availability_blocks cmd_update true ;;;
  require (int4_ok (AvailabilityBlock.slots_affected new))
          (numeric_value_out_of_range "slots_affected") ;;;
  match lookup AvailabilityBlock.id id (availability_blocks d) with
  | None => Ok d
  | Some old =>
      if negb (spot_owners_can_manage_availability_blocks e d old) then Ok d
      else
        require (spot_owners_can_manage_availability_blocks e d new)
                (row_security_violation "availability_blocks") ;;;
        check_availability_block
          (without AvailabilityBlock.id id (availability_blocks d)) d new ;;;
        Ok (set_availability_blocks d
              (without AvailabilityBlock.id id (availability_blocks d) ++ [new]))
  end.

Definition delete_availability_block (e : env) (id : uuid) (d : db) : result db :=
  row_security rel_availability_blocks cmd_delete true ;;;
  match lookup AvailabilityBlock.id id (availability_blocks d) with
  | None => Ok d
  | Some old =>
      if negb (spot_owners_can_manage_availability_blocks e d old) then Ok d
      else Ok (set_availability_blocks d
                 (without AvailabilityBlock.id id (availability_blocks d)))
  end.

(** ** Deleting a user

    [profiles.id] refers to [auth.users] ON DELETE CASCADE, and so do, from
    [profiles] on, the owner of a spot, the user of a vehicle, of a booking
    and of a review, and from those the rows that refer to a spot or to a
    booking; a booking forgets a deleted vehicle.  [payment_slips.verified_by]
    and [availability_blocks.created_by] name no action: a row left over that
    refers to the user makes the statement fail. *)
Definition delete_auth_user (id : uuid) (d : db) : result db :=
  match lookup User.id id (auth_users d) with
  | None => Ok d
  | Some _ =>
      let among (l : list uuid) (k : uuid) := existsb (Z.eqb k) l in
      let spots_gone :=
        map ParkingSpot.id (filter (fun s => ParkingSpot.owner_id s =? id) (parking_spots d)) in
      let vehicles_gone :=
        map Vehicle.id (filter (fun v => Vehicle.user_id v =? id) (vehicles d)) in
      let booking_kept (b : Booking.t) :=
        negb (Booking.user_id b =? id) && negb (among spots_gone (Booking.spot_id b)) in
      let bookings_gone :=
        map Booking.id (filter (fun b => negb (booking_kept b)) (bookings d)) in
      let slips :=
        filter (fun s => negb (among bookings_gone (PaymentSlip.booking_id s)))
               (payment_slips d) in
      let blocks :=
        filter (fun b => negb (among spots_gone (AvailabilityBlock.spot_id b)))
               (availability_blocks d) in
      require (negb (existsb (fun s => match PaymentSlip.verified_by s with
                                       | Some v => v =? id
                                       | None => false
                                       end) slips))
              (foreign_key_violation "payment_slips_verified_by_fkey") ;;;
      require (negb (has_key AvailabilityBlock.created_by id blocks))
              (foreign_key_violation "availability_blocks_created_by_fkey") ;;;
      Ok (mkdb (without User.id id (auth_users d))
               (without Profile.id id (profiles d))
               (without ParkingSpot.owner_id id (parking_spots d))
               (without Vehicle.user_id id (vehicles d))
               (map (forget_vehicles vehicles_gone) (filter booking_kept (bookings d)))
               slips
               (filter (fun r => negb (among bookings_gone (Review.booking_id r))
                                 && negb (Review.user_id r =? id)
                                 && negb (among spots_gone (Review.spot_id r)))
                       (reviews d))
               blocks)
  end.

(** ** Histories *)

(** The statements the schema admits on the tables above.  The first two are
    issued by the authentication service, the others by an authenticated
    client.  An UPDATE or DELETE names its row by [WHERE id = ...], except
    [UpdateProfiles], [UpdateParkingSpots] and [DeleteParkingSpots], which
    have no WHERE clause. *)
Inductive statement :=
| InsertAuthUser (u : User.t)
| DeleteAuthUser (id : uuid)
| UpdateProfile (id : uuid) (new : Profile.t)
| UpdateProfiles (set : ProfileSet.t)
| InsertParkingSpot (s : ParkingSpot.t)
| UpdateParkingSpot (id : uuid) (new : ParkingSpot.t)
| UpdateParkingSpots (set : ParkingSpotSet.t)
| DeleteParkingSpot (id : uuid)
| DeleteParkingSpots
| InsertVehicle (v : Vehicle.t)
| UpdateVehicle (id : uuid) (new : Vehicle.t)
| DeleteVehicle (id : uuid)
| InsertBooking (r : BookingInsert.t)
| UpdateBooking (id : uuid) (new : Booking.t)
| InsertPaymentSlip (s : PaymentSlip.t)
| UpdatePaymentSlip (id : uuid) (new : PaymentSlip.t)
| DeletePaymentSlip (id : uuid)
| InsertReview (r : Review.t)
| InsertAvailabilityBlock (b : AvailabilityBlock.t)
| UpdateAvailabilityBlock (id : uuid) (new : AvailabilityBlock.t)
| DeleteAvailabilityBlock (id : uuid).

Definition exec (e : env) (s : statement) (d : db) : result db :=
  match s with
  | InsertAuthUser u => insert_auth_user u d
  | DeleteAuthUser id => delete_auth_user id d
  | UpdateProfile id new => update_profile e id new d
  | UpdateProfiles set => update_profiles e set d
  | InsertParkingSpot s => insert_parking_spot e s d
  | UpdateParkingSpot id new => update_parking_spot e id new d
  | UpdateParkingSpots set => update_parking_spots e set d
  | DeleteParkingSpot id => delete_parking_spot e id d
  | DeleteParkingSpots => delete_parking_spots e d
  | InsertVehicle v => insert_vehicle e v d
  | UpdateVehicle id new => update_vehicle e id new d
  | DeleteVehicle id => delete_vehicle e id d
  | InsertBooking r => insert_booking e r d
  | UpdateBooking id new => update_booking e id new d
  | InsertPaymentSlip s => insert_payment_slip e s d
  | UpdatePaymentSlip id new => update_payment_slip e id new d
  | DeletePaymentSlip id => delete_payment_slip e id d
  | InsertReview r => insert_review e r d
  | InsertAvailabilityBlock b => insert_availability_block e b d
  | UpdateAvailabilityBlock id new => update_availability_block e id new d
  | DeleteAvailabilityBlock id => delete_availability_block e id d
  end.

(** A statement that raises an error is rolled back: the database stays as
    it was. *)
Definition step (d : db) (c : env * statement) : db :=
  match exec (fst c) (snd c) d with
  | Ok d' => d'
  | Err _ => d
  end.

Definition run (history : list (env * statement)) (d : db) : db :=
  fold_left step history d.

(** The databases that exist at some point in time: those a history of
    statements produces from the freshly migrated, empty schema. *)
Definition reachable (d : db) : Prop :=
  exists history, run history empty_db = d.

(** ** The rules of the specification, for comparison

    These definitions follow the words of the specification (sections 4.1
    and 4.2); nothing in the schema refers to them. *)

(** "existing.start < I.end AND existing.end > I.start" *)
Definition overlaps (start1 end1 start2 end2 : timestamptz) : bool :=
  (start1 <? end2) && (end1 >? start2).

(** "status in {pending, confirmed, active}" *)
Definition holds_capacity (s : booking_status) : bool :=
  match s with
  | pending | confirmed | active => true
  | completed | cancelled => false
  end.

(** A row of [bookings] reserves one slot: the table has no column for a
    number of units. *)
Definition unitsRequested (b : Booking.t) : Z := 1.

Definition sum (l : list Z) : Z := fold_right Z.add 0 l.

(** "the sum of unitsRequested across all existing bookings on the same
    resource whose status is in {pending, confirmed, active} and whose
    interval overlaps I, plus units_affected of any BlackoutWindow
    overlapping I" *)
Definition concurrentDemand (d : db) (spot_id : uuid) (start_time end_time : timestamptz) : Z :=
  sum (map unitsRequested
         (filter (fun b => (Booking.spot_id b =? spot_id)
                           && holds_capacity (Booking.status b)
                           && overlaps (Booking.start_time b) (Booking.end_time b)
                                       start_time end_time)
                 (bookings d)))
  + sum (map AvailabilityBlock.slots_affected
           (filter (fun w => (AvailabilityBlock.spot_id w =? spot_id)
                             && overlaps (AvailabilityBlock.start_time w)
                                         (AvailabilityBlock.end_time w)
                                         start_time end_time)
                   (availability_blocks d))).

(** "Succeeds only if total_units - concurrentDemand >= unitsRequested" *)
Definition capacity_allows (d : db) (s : ParkingSpot.t)
    (start_time end_time : timestamptz) (units : Z) : bool :=
  ParkingSpot.total_slots s - concurrentDemand d (ParkingSpot.id s) start_time end_time
  >=? units.

(** The transition table of section 4.2; [None] is its "(none)", the
    state before the booking exists. *)
Definition transition_in_table (from : option booking_status) (to : booking_status) : bool :=
  match from, to with
  | None, pending
  | Some pending, confirmed
  | Some pending, cancelled
  | Some confirmed, cancelled
  | Some confirmed, active
  | Some active, completed => true
  | _, _ => false
  end.

(** ** A sample history

    An owner (1) and two consumers (2, 3) sign up, the owner lists a spot
    with one slot, and consumer 2 books it from 10:00 to 11:00 (times are
    minutes of the day, costs hundredths).  The draw of [random()] for that
    booking is 69 / 2 ^ 14, a little above 0.0042. *)

Definition sample_env (uid : uuid) (fresh : uuid) (b : byte) (r : Q) : env :=
  mkenv uid 0 fresh (fun n => repeat b n) r.

Definition owner_user : User.t :=
  User.mk 1 (Some "olga@park.test"%string)
          (UserMetaData.mk (Some "Olga"%string) (Some "owner"%string)).
Definition consumer_user : User.t :=
  User.mk 2 (Some "una@park.test"%string) (UserMetaData.mk None None).
Definition other_user : User.t :=
  User.mk 3 (Some "ugo@park.test"%string) (UserMetaData.mk None (Some "user"%string)).

Definition one_slot_spot : ParkingSpot.t :=
  ParkingSpot.mk 10 1 1375000000 10050000000 1 1 5000 (text_array ["front.jpg"%string])
                 true 0.

Definition request (user_id start_time end_time : Z) : BookingInsert.t :=
  BookingInsert.mk None user_id 10 None start_time end_time 5000 None None None None None.

Definition history_listed : list (env * statement) :=
  [ (sample_env 0 0 x00 0, InsertAuthUser owner_user);
    (sample_env 0 0 x00 0, InsertAuthUser consumer_user);
    (sample_env 0 0 x00 0, InsertAuthUser other_user);
    (sample_env 1 0 x00 0, InsertParkingSpot one_slot_spot) ].

Definition history_booked : list (env * statement) :=
  history_listed ++ [ (sample_env 2 100 x2a (69 # 16384), InsertBooking (request 2 600 660)) ].

Definition db_listed : db := run history_listed empty_db.
Definition db_booked : db := run history_booked empty_db.

(** The booking of the sample history with another status. *)
Definition sample_booking (s : booking_status) : Booking.t :=
  Booking.mk 100 2 10 None 600 660 5000 s pay_pending
             "2a2a2a2a2a2a2a2a2a2a2a2a2a2a2a2a" "0042" None.

(** ** Checks by computation *)

(** The two digits of a byte are hexadecimal digits and give the byte back. *)
Definition hex_byte_check (b : byte) : bool :=
  match hex_of_byte b with
  | String hi (String lo EmptyString) =>
      is_hex_digit hi && is_hex_digit lo &&
      match hex_value hi, hex_value lo with
      | Some h, Some l =>
          match Byte.of_N (16 * h + l) with
          | Some b' => Byte.eqb b b'
          | None => false
          end
      | _, _ => false
      end
  | _ => false
  end.

(** The PIN made from [n] has four characters, all decimal digits, and
    denotes [n]. *)
Definition pin_check (n : Z) : bool :=
  (String.length (pin_of n) =? 4)%nat
  && string_forallb is_decimal_digit (pin_of n)
  && (decimal_value (pin_of n) =? n).

(** ** Vocabulary of the statements about bookings *)

(** The booking [b] with its status set to [s], as
    [UPDATE bookings SET status = s] leaves it. *)
Definition set_status (b : Booking.t) (s : booking_status) : Booking.t :=
  Booking.mk (Booking.id b) (Booking.user_id b) (Booking.spot_id b) (Booking.vehicle_id b)
             (Booking.start_time b) (Booking.end_time b) (Booking.total_cost b) s
             (Booking.payment_status b) (Booking.qr_code b) (Booking.pin b)
             (Booking.confirmed_at b).

(** The column list [r] with the status [s] named in it. *)
Definition with_status (r : BookingInsert.t) (s : booking_status) : BookingInsert.t :=
  BookingInsert.mk (BookingInsert.id r) (BookingInsert.user_id r) (BookingInsert.spot_id r)
                   (BookingInsert.vehicle_id r) (BookingInsert.start_time r)
                   (BookingInsert.end_time r) (BookingInsert.total_cost r) (Some s)
                   (BookingInsert.payment_status r) (BookingInsert.qr_code r)
                   (BookingInsert.pin r) (BookingInsert.confirmed_at r).

(** Everything [INSERT INTO bookings] asks of the row [b] in the database
    [d]: the type of [total_cost], the INSERT policy, the two CHECK
    constraints, the two UNIQUE constraints and the three foreign keys. *)
Definition booking_row_accepted (e : env) (d : db) (b : Booking.t) : Prop :=
  -10000000000 < Booking.total_cost b < 10000000000
  /\ Booking.user_id b = auth_uid e
  /\ Booking.end_time b > Booking.start_time b
  /\ Booking.total_cost b > 0
  /\ ~ In (Booking.id b) (map Booking.id (bookings d))
  /\ ~ In (Booking.qr_code b) (map Booking.qr_code (bookings d))
  /\ In (Booking.user_id b) (map Profile.id (profiles d))
  /\ In (Booking.spot_id b) (map ParkingSpot.id (parking_spots d))
  /\ (forall v, Booking.vehicle_id b = Some v -> In v (map Vehicle.id (vehicles d))).

(** The statement of a reservation call. *)
Definition reserve (c : env * BookingInsert.t) : env * statement :=
  (fst c, InsertBooking (snd c)).

(** The row a reservation call stores. *)
Definition reserved (c : env * BookingInsert.t) : Booking.t :=
  booking_of_insert (fst c) (snd c).

(** The second reservation of the histories below, by consumer 3 from 10:30
    to 11:30, and the row it stores. *)
Definition first_call : env * BookingInsert.t :=
  (sample_env 2 100 x2a (69 # 16384), request 2 600 660).
Definition second_call : env * BookingInsert.t :=
  (sample_env 3 101 x2b (1 # 2), request 3 630 690).
Definition second_booking : Booking.t :=
  Booking.mk 101 3 10 None 630 690 5000 pending pay_pending
             "2b2b2b2b2b2b2b2b2b2b2b2b2b2b2b2b" "5000" None.

(** The reservation of consumer 2 with a status, a code or a PIN that the
    INSERT names itself. *)
Definition request_as (s : booking_status) : BookingInsert.t :=
  BookingInsert.mk None 2 10 None 600 660 5000 (Some s) None None None None.
Definition request_with_code (code : string) : BookingInsert.t :=
  BookingInsert.mk None 2 10 None 600 660 5000 None None (Some code) None None.
Definition request_with_pin (pin : string) : BookingInsert.t :=
  BookingInsert.mk None 2 10 None 600 660 5000 None None None (Some pin) None.

(** The sample history with the booking stored as [confirmed] or as
    [completed] from the start, a payment slip and a review for it. *)
Definition history_as (s : booking_status) : list (env * statement) :=
  history_listed ++ [ (sample_env 2 100 x2a (69 # 16384), InsertBooking (request_as s)) ].
Definition db_completed : db := run (history_as completed) empty_db.
Definition late_slip : PaymentSlip.t :=
  PaymentSlip.mk 200 100 "slips/100.jpg" pay_pending None None.
Definition five_stars : Review.t := Review.mk 300 100 2 10 5.

(** ** The invariant of the schema

    What the PRIMARY KEY, UNIQUE, CHECK and FOREIGN KEY constraints used
    below guarantee of every database. *)

Definition booking_checks (b : Booking.t) : Prop :=
  Booking.end_time b > Booking.start_time b /\ Booking.total_cost b > 0
  /\ numeric_10_2_ok (Booking.total_cost b) = true.

Definition slots_within_bounds (s : ParkingSpot.t) : Prop :=
  0 <= ParkingSpot.available_slots s <= ParkingSpot.total_slots s.

Record db_ok (d : db) : Prop := {
  bookings_pkey : NoDup (map Booking.id (bookings d));
  bookings_qr_code_key : NoDup (map Booking.qr_code (bookings d));
  bookings_checked : Forall booking_checks (bookings d);
  bookings_user_id_fkey :
    Forall (fun b => has_key Profile.id (Booking.user_id b) (profiles d) = true) (bookings d);
  bookings_vehicle_id_fkey :
    Forall (fun b => references Vehicle.id (Booking.vehicle_id b) (vehicles d) = true)
           (bookings d);
  payment_slips_booking_id_key : NoDup (map PaymentSlip.booking_id (payment_slips d));
  reviews_booking_id_key : NoDup (map Review.booking_id (reviews d));
  reviews_rating_checked :
    Forall (fun r => 1 <= Review.rating r <= 5) (reviews d);
  parking_spots_valid_slots : Forall slots_within_bounds (parking_spots d)
}.

(** ** The tables that stay empty *)

Definition never_written (d : db) : Prop :=
  payment_slips d = [] /\ reviews d = [] /\ availability_blocks d = [].

(** ** Vocabulary of the further properties *)

(** Every row of [rows] refers, through its column [f], to a row of
    [targets] with that key: a FOREIGN KEY that holds. *)
Definition refers {R T : Type} (f : R -> Z) (rows : list R) (k : T -> Z) (targets : list T)
  : Prop :=
  Forall (fun r => has_key k (f r) targets = true) rows.

(** The same for a nullable column. *)
Definition may_refer {R T : Type} (f : R -> option Z) (rows : list R) (k : T -> Z)
    (targets : list T) : Prop :=
  Forall (fun r => references k (f r) targets = true) rows.

(** The columns of [UNIQUE(user_id, license_plate)]. *)
Definition plate_key (v : Vehicle.t) : Z * string :=
  (Vehicle.user_id v, Vehicle.license_plate v).

(** What the types and the CHECK constraints [valid_price] and
    [valid_images] leave of a parking spot: a well-formed array of images
    whose first dimension, if it has one, is between 1 and 3. *)
Definition spot_checks (s : ParkingSpot.t) : Prop :=
  ParkingSpot.price s > 0
  /\ text_array_ok (ParkingSpot.images s) = true
  /\ forall n, array_length_1 (ParkingSpot.images s) = Some n -> 1 <= n <= 3.

Definition block_checks (b : AvailabilityBlock.t) : Prop :=
  AvailabilityBlock.end_time b > AvailabilityBlock.start_time b.

(** What the remaining PRIMARY KEY, UNIQUE, FOREIGN KEY and CHECK
    constraints of the migration guarantee of every database. *)
Record db_sound (d : db) : Prop := {
  users_pkey : NoDup (map User.id (auth_users d));
  profiles_pkey : NoDup (map Profile.id (profiles d));
  profiles_email_key : NoDup (map Profile.email (profiles d));
  parking_spots_pkey : NoDup (map ParkingSpot.id (parking_spots d));
  vehicles_pkey : NoDup (map Vehicle.id (vehicles d));
  vehicles_user_id_license_plate_key : NoDup (map plate_key (vehicles d));
  payment_slips_pkey : NoDup (map PaymentSlip.id (payment_slips d));
  reviews_pkey : NoDup (map Review.id (reviews d));
  availability_blocks_pkey : NoDup (map AvailabilityBlock.id (availability_blocks d));
  profiles_id_fkey : refers Profile.id (profiles d) User.id (auth_users d);
  users_have_profiles : refers User.id (auth_users d) Profile.id (profiles d);
  parking_spots_owner_id_fkey :
    refers ParkingSpot.owner_id (parking_spots d) Profile.id (profiles d);
  vehicles_user_id_fkey : refers Vehicle.user_id (vehicles d) Profile.id (profiles d);
  bookings_spot_id_fkey : refers Booking.spot_id (bookings d) ParkingSpot.id (parking_spots d);
  payment_slips_booking_id_fkey :
    refers PaymentSlip.booking_id (payment_slips d) Booking.id (bookings d);
  payment_slips_verified_by_fkey :
    may_refer PaymentSlip.verified_by (payment_slips d) Profile.id (profiles d);
  reviews_booking_id_fkey : refers Review.booking_id (reviews d) Booking.id (bookings d);
  reviews_user_id_fkey : refers Review.user_id (reviews d) Profile.id (profiles d);
  reviews_spot_id_fkey : refers Review.spot_id (reviews d) ParkingSpot.id (parking_spots d);
  availability_blocks_spot_id_fkey :
    refers AvailabilityBlock.spot_id (availability_blocks d) ParkingSpot.id (parking_spots d);
  availability_blocks_created_by_fkey :
    refers AvailabilityBlock.created_by (availability_blocks d) Profile.id (profiles d);
  parking_spots_checked : Forall spot_checks (parking_spots d);
  availability_blocks_checked : Forall block_checks (availability_blocks d)
}.

(** ** The sign-up call of the client

    [signUp] of the authentication context passes
    [{ name: userData.name, role: userData.role || 'user', ... }] as the
    metadata of the new user; the authentication service stores it in
    [raw_user_meta_data].  A value that is undefined is left out of the JSON
    object, so [->>] finds NULL for it. *)
Module UserData.
Record t := mk { name : option string; role : option string }.
End UserData.

(** [a || b] on a string that may be undefined: the empty string is falsy. *)
Definition js_or (a : option string) (b : string) : string :=
  match a with
  | None => b
  | Some EmptyString => b
  | Some s => s
  end.

Definition signUp_data (userData : UserData.t) : UserMetaData.t :=
  UserMetaData.mk (UserData.name userData) (Some (js_or (UserData.role userData) "user")).

(** An upper-case hexadecimal digit. *)
Definition is_upper_hex_digit (c : ascii) : bool :=
  let n := N_of_ascii c in
  ((48 <=? n) && (n <=? 57) || (65 <=? n) && (n <=? 70))%N.

(** ** Further rows of the sample history

    A vehicle of consumer 2 and a booking that names it, a spot with four
    images in two rows, and a user who signs up through the client without
    naming a role. *)

Definition sample_vehicle : Vehicle.t := Vehicle.mk 50 2 "1AB-2345".

Definition sample_block : AvailabilityBlock.t :=
  AvailabilityBlock.mk 400 10 720 780 blocked 1 1.

Definition new_user : User.t :=
  User.mk 4 (Some "uwe@park.test"%string)
          (signUp_data (UserData.mk (Some "Uwe"%string) None)).

Definition four_images : TextArray.t :=
  TextArray.mk [2%nat; 2%nat]
               ["north.jpg"%string; "east.jpg"%string; "south.jpg"%string; "west.jpg"%string].

Definition gallery_spot : ParkingSpot.t :=
  ParkingSpot.mk 11 1 1375000000 10050000000 2 2 5000 four_images true 0.

Definition request_with_vehicle : BookingInsert.t :=
  BookingInsert.mk None 2 10 (Some 50) 600 660 5000 None None None None None.

Definition history_parked : list (env * statement) :=
  history_listed ++ [ (sample_env 2 0 x00 0, InsertVehicle sample_vehicle) ].

Definition history_driven : list (env * statement) :=
  history_parked
  ++ [ (sample_env 2 100 x2a (69 # 16384), InsertBooking request_with_vehicle) ].

Definition db_parked : db := run history_parked empty_db.
Definition db_driven : db := run history_driven empty_db.
(** * Properties *)

(** ** Results *)

Lemma bind_Ok {A B} (r : result A) (k : A -> result B) (b : B) :
  bind r k = Ok b -> exists a, r = Ok a /\ k a = Ok b.
Proof. destruct r as [a|e]; simpl; intros H; [eauto | discriminate]. Qed.

Lemma require_Ok (c : bool) (e : sql_error) (u : unit) : require c e = Ok u -> c = true.
Proof. destruct c; simpl; [reflexivity | discriminate]. Qed.

Lemma require_true (e : sql_error) : require true e = Ok tt.
Proof. reflexivity. Qed.

(** Splits a hypothesis [r ;;; k = Ok b] into the guards that passed. *)
Ltac peel H :=
  repeat match type of H with
  | bind (require ?c ?e) ?k = Ok ?b =>
      let E := fresh "G" in
      destruct c eqn:E; [cbn [bind require] in H | discriminate H]
  | bind ?r ?k = Ok ?b =>
      let a := fresh "u" in
      let H1 := fresh "G" in
      apply bind_Ok in H; destruct H as (a & H1 & H)
  | require ?c ?e = Ok ?u => apply require_Ok in H
  end.

(** ** Keys *)

Section KeyFacts.
Context {A : Type} (key : A -> Z).

Lemma has_key_In (k : Z) (rows : list A) :
  has_key key k rows = true <-> In k (map key rows).
Proof.
  unfold has_key. rewrite existsb_exists, in_map_iff.
  split; intros (r & H1 & H2).
  - exists r. apply Z.eqb_eq in H2. auto.
  - exists r. rewrite H1. split; [assumption | apply Z.eqb_refl].
Qed.

Lemma has_key_false (k : Z) (rows : list A) :
  has_key key k rows = false <-> ~ In k (map key rows).
Proof.
  rewrite <- has_key_In. destruct (has_key key k rows); split; congruence.
Qed.

Lemma has_key_app (k : Z) (l1 l2 : list A) :
  has_key key k (l1 ++ l2) = has_key key k l1 || has_key key k l2.
Proof. apply existsb_app. Qed.

Lemma lookup_In (k : Z) (rows : list A) (r : A) :
  lookup key k rows = Some r -> In r rows /\ key r = k.
Proof.
  unfold lookup. intros H. apply find_some in H.
  destruct H as [H1 H2]. apply Z.eqb_eq in H2. auto.
Qed.

Lemma In_without (k : Z) (rows : list A) (r : A) :
  In r (without key k rows) <-> In r rows /\ key r <> k.
Proof.
  unfold without. rewrite filter_In.
  destruct (Z.eqb_spec (key r) k); simpl; intuition congruence.
Qed.

Lemma has_key_without (k : Z) (rows : list A) : has_key key k (without key k rows) = false.
Proof.
  apply has_key_false. rewrite in_map_iff. intros (r & H1 & H2).
  apply In_without in H2. tauto.
Qed.

Lemma has_key_without_other (k k' : Z) (rows : list A) :
  k <> k' -> has_key key k (without key k' rows) = has_key key k rows.
Proof.
  intros Hne. unfold has_key, without. induction rows as [|r rows IH]; [reflexivity|].
  simpl. destruct (Z.eqb_spec (key r) k') as [E|_]; simpl.
  - destruct (Z.eqb_spec (key r) k); [congruence | assumption].
  - now rewrite IH.
Qed.

(** With a unique key, [lookup] finds the only row that has it. *)
Lemma lookup_unique (rows : list A) (r : A) :
  NoDup (map key rows) -> In r rows -> lookup key (key r) rows = Some r.
Proof.
  unfold lookup. induction rows as [|x rows IH]; simpl; intros ND HIn; [contradiction|].
  inversion ND as [|? ? Hx ND']; subst.
  destruct HIn as [->|HIn].
  - now rewrite Z.eqb_refl.
  - destruct (Z.eqb_spec (key x) (key r)) as [E|_]; [|auto].
    exfalso. apply Hx. rewrite E. now apply in_map.
Qed.

(** At most one row per key, counted. *)
Lemma unique_key_count (k : Z) (rows : list A) :
  NoDup (map key rows) ->
  (List.length (filter (fun r => (key r =? k)%Z) rows) <= 1)%nat.
Proof.
  induction rows as [|x rows IH]; simpl; intros ND; [lia|].
  inversion ND as [|? ? Hx ND']; subst.
  destruct (Z.eqb_spec (key x) k) as [E|_]; [|auto].
  assert (filter (fun r => key r =? k) rows = []) as ->; [|simpl; lia].
  destruct (filter (fun r => key r =? k) rows) as [|y l] eqn:F; [reflexivity|].
  exfalso. assert (In y (filter (fun r => key r =? k) rows)) as Hy
    by (rewrite F; now left).
  apply filter_In in Hy. destruct Hy as [Hy1 Hy2]. apply Z.eqb_eq in Hy2.
  apply Hx. rewrite E, <- Hy2. now apply in_map.
Qed.
End KeyFacts.

Section UniqueColumns.
Context {A K : Type} (f : A -> K).

Lemma NoDup_map_snoc (l : list A) (x : A) :
  NoDup (map f l) -> ~ In (f x) (map f l) -> NoDup (map f (l ++ [x])).
Proof.
  intros ND Hx. rewrite map_app. simpl.
  apply NoDup_app; [assumption | repeat constructor; auto | ].
  intros a Ha [<-|[]]. now apply Hx.
Qed.

Lemma NoDup_map_filter (p : A -> bool) (l : list A) :
  NoDup (map f l) -> NoDup (map f (filter p l)).
Proof.
  induction l as [|x l IH]; simpl; intros ND; [constructor|].
  inversion ND as [|? ? Hx ND']; subst.
  destruct (p x); simpl; auto.
  constructor; auto.
  intros Hin. apply Hx. rewrite in_map_iff in *.
  destruct Hin as (y & Hy1 & Hy2). exists y. split; [assumption|].
  apply filter_In in Hy2. tauto.
Qed.

(** Two rows of a table with a unique column that agree on it are the same
    row. *)
Lemma NoDup_map_inj (l : list A) (x y : A) :
  NoDup (map f l) -> In x l -> In y l -> f x = f y -> x = y.
Proof.
  induction l as [|a l IH]; simpl; intros ND Hx Hy E; [contradiction|].
  inversion ND as [|? ? Ha ND']; subst.
  destruct Hx as [->|Hx], Hy as [->|Hy]; auto.
  - exfalso. apply Ha. rewrite E. now apply in_map.
  - exfalso. apply Ha. rewrite <- E. now apply in_map.
Qed.
End UniqueColumns.

Lemma has_text_key_false {A} (key : A -> string) (k : string) (rows : list A) :
  has_text_key key k rows = false <-> ~ In k (map key rows).
Proof.
  unfold has_text_key. split.
  - intros H Hin. apply in_map_iff in Hin. destruct Hin as (r & H1 & H2).
    assert (existsb (fun r => String.eqb (key r) k) rows = true) as C; [|congruence].
    apply existsb_exists. exists r. split; [assumption|]. now apply String.eqb_eq.
  - intros H. destruct (existsb _ rows) eqn:E; [|reflexivity].
    exfalso. apply H. apply existsb_exists in E. destruct E as (r & H1 & H2).
    apply String.eqb_eq in H2. subst k. now apply in_map.
Qed.

Lemma has_text_key_app {A} (key : A -> string) (k : string) (l1 l2 : list A) :
  has_text_key key k (l1 ++ l2) = has_text_key key k l1 || has_text_key key k l2.
Proof. apply existsb_app. Qed.

Lemma references_app {A} (key : A -> Z) (k : option Z) (l1 l2 : list A) :
  references key k l1 = true -> references key k (l1 ++ l2) = true.
Proof.
  destruct k as [v|]; simpl; [|auto].
  rewrite has_key_app. intros ->. reflexivity.
Qed.

(** ** What each constraint check establishes *)

Lemma check_booking_Ok (others : list Booking.t) (d : db) (b : Booking.t) (u : unit) :
  check_booking others d b = Ok u ->
  valid_booking_time b = true /\ valid_cost b = true
  /\ has_key Booking.id (Booking.id b) others = false
  /\ has_text_key Booking.qr_code (Booking.qr_code b) others = false
  /\ has_key Profile.id (Booking.user_id b) (profiles d) = true
  /\ has_key ParkingSpot.id (Booking.spot_id b) (parking_spots d) = true
  /\ references Vehicle.id (Booking.vehicle_id b) (vehicles d) = true.
Proof.
  unfold check_booking. intros H. peel H.
  repeat match goal with G : negb _ = true |- _ => apply negb_true_iff in G end.
  auto 10.
Qed.

Lemma check_parking_spot_Ok (others : list ParkingSpot.t) (d : db) (s : ParkingSpot.t)
    (u : unit) :
  check_parking_spot others d s = Ok u ->
  valid_slots s = true /\ valid_price s = true /\ valid_images s = true
  /\ has_key ParkingSpot.id (ParkingSpot.id s) others = false
  /\ has_key Profile.id (ParkingSpot.owner_id s) (profiles d) = true.
Proof.
  unfold check_parking_spot. intros H. peel H.
  match goal with G : parking_spot_checks _ = Ok _ |- _ =>
    unfold parking_spot_checks in G; peel G end.
  repeat match goal with G : negb _ = true |- _ => apply negb_true_iff in G end.
  auto 10.
Qed.

Lemma check_payment_slip_Ok (others : list PaymentSlip.t) (d : db) (s : PaymentSlip.t)
    (u : unit) :
  check_payment_slip others d s = Ok u ->
  has_key PaymentSlip.id (PaymentSlip.id s) others = false
  /\ has_key PaymentSlip.booking_id (PaymentSlip.booking_id s) others = false
  /\ has_key Booking.id (PaymentSlip.booking_id s) (bookings d) = true
  /\ references Profile.id (PaymentSlip.verified_by s) (profiles d) = true.
Proof.
  unfold check_payment_slip. intros H. peel H.
  repeat match goal with G : negb _ = true |- _ => apply negb_true_iff in G end.
  auto 10.
Qed.

Lemma check_vehicle_Ok (others : list Vehicle.t) (d : db) (v : Vehicle.t) (u : unit) :
  check_vehicle others d v = Ok u ->
  has_key Vehicle.id (Vehicle.id v) others = false
  /\ has_key Profile.id (Vehicle.user_id v) (profiles d) = true.
Proof.
  unfold check_vehicle. intros H. peel H.
  repeat match goal with G : negb _ = true |- _ => apply negb_true_iff in G end.
  auto.
Qed.

(** ** The invariant holds initially and is kept *)

Lemma valid_slots_bounds (s : ParkingSpot.t) : valid_slots s = true <-> slots_within_bounds s.
Proof. unfold valid_slots, slots_within_bounds. lia. Qed.

Lemma booking_checks_of (b : Booking.t) :
  valid_booking_time b = true -> valid_cost b = true ->
  numeric_10_2_ok (Booking.total_cost b) = true -> booking_checks b.
Proof.
  unfold valid_booking_time, valid_cost, booking_checks.
  intros T C N. repeat split; [lia | lia | assumption].
Qed.

Lemma empty_db_ok : db_ok empty_db.
Proof. split; simpl; constructor. Qed.

Lemma Forall_snoc {A} (P : A -> Prop) (l : list A) (x : A) :
  Forall P l -> P x -> Forall P (l ++ [x]).
Proof. intros. apply Forall_app. auto. Qed.

Lemma Forall_filter {A} (P : A -> Prop) (p : A -> bool) (l : list A) :
  Forall P l -> Forall P (filter p l).
Proof.
  rewrite !Forall_forall. intros H x Hx. apply filter_In in Hx.
  destruct Hx as [Hx _]. now apply H.
Qed.

Create HintDb schema.
#[local] Hint Resolve Forall_snoc Forall_filter NoDup_map_filter : schema.

(** A row checked against the other rows of its table can join them. *)
Lemma unique_after_update {A} (id key : A -> Z) (k : Z) (rows : list A) (new : A) :
  NoDup (map key rows) ->
  has_key key (key new) (without id k rows) = false ->
  NoDup (map key (without id k rows ++ [new])).
Proof.
  intros ND H. apply NoDup_map_snoc.
  - now apply NoDup_map_filter.
  - now apply has_key_false.
Qed.

Lemma unique_text_after_update {A} (id : A -> Z) (key : A -> string) (k : Z)
    (rows : list A) (new : A) :
  NoDup (map key rows) ->
  has_text_key key (key new) (without id k rows) = false ->
  NoDup (map key (without id k rows ++ [new])).
Proof.
  intros ND H. apply NoDup_map_snoc.
  - now apply NoDup_map_filter.
  - now apply has_text_key_false.
Qed.

Lemma fresh_key {A} (key : A -> Z) (k : Z) (rows : list A) :
  has_key key k rows = false -> ~ In k (map key rows).
Proof. apply has_key_false. Qed.

Lemma fresh_text_key {A} (key : A -> string) (k : string) (rows : list A) :
  has_text_key key k rows = false -> ~ In k (map key rows).
Proof. apply has_text_key_false. Qed.

#[local] Hint Resolve NoDup_map_snoc unique_after_update unique_text_after_update
  fresh_key fresh_text_key booking_checks_of : schema.

(** Replaces the checks that passed by what they establish. *)
Ltac checked :=
  repeat match goal with
  | G : check_booking _ _ _ = Ok _ |- _ =>
      apply check_booking_Ok in G; destruct G as (? & ? & ? & ? & ? & ? & ?)
  | G : check_parking_spot _ _ _ = Ok _ |- _ =>
      apply check_parking_spot_Ok in G; destruct G as (? & ? & ? & ? & ?)
  | G : check_payment_slip _ _ _ = Ok _ |- _ =>
      apply check_payment_slip_Ok in G; destruct G as (? & ? & ? & ?)
  | G : check_vehicle _ _ _ = Ok _ |- _ =>
      apply check_vehicle_Ok in G; destruct G as (? & ?)
  | G : negb _ = true |- _ => apply negb_true_iff in G
  | G : valid_slots _ = true |- _ => apply valid_slots_bounds in G
  end.

(** What a booking keeps when it forgets a vehicle. *)
Lemma forget_vehicles_ids (gone : list uuid) (l : list Booking.t) :
  map Booking.id (map (forget_vehicles gone) l) = map Booking.id l.
Proof.
  rewrite map_map. apply map_ext. intros b. unfold forget_vehicles.
  destruct (Booking.vehicle_id b) as [v|]; [destruct (existsb (Z.eqb v) gone)|]; reflexivity.
Qed.

Lemma forget_vehicles_codes (gone : list uuid) (l : list Booking.t) :
  map Booking.qr_code (map (forget_vehicles gone) l) = map Booking.qr_code l.
Proof.
  rewrite map_map. apply map_ext. intros b. unfold forget_vehicles.
  destruct (Booking.vehicle_id b) as [v|]; [destruct (existsb (Z.eqb v) gone)|]; reflexivity.
Qed.

Lemma forget_vehicles_checks (gone : list uuid) (l : list Booking.t) :
  Forall booking_checks l -> Forall booking_checks (map (forget_vehicles gone) l).
Proof.
  intros H. apply Forall_map. eapply Forall_impl; [|exact H]. intros b Hb.
  unfold forget_vehicles.
  destruct (Booking.vehicle_id b) as [v|]; [destruct (existsb (Z.eqb v) gone)|]; assumption.
Qed.

Lemma forget_vehicles_users (gone : list uuid) (ps : list Profile.t) (l : list Booking.t) :
  Forall (fun b => has_key Profile.id (Booking.user_id b) ps = true) l ->
  Forall (fun b => has_key Profile.id (Booking.user_id b) ps = true)
         (map (forget_vehicles gone) l).
Proof.
  intros H. apply Forall_map. eapply Forall_impl; [|exact H]. intros b Hb.
  unfold forget_vehicles.
  destruct (Booking.vehicle_id b) as [v|]; [destruct (existsb (Z.eqb v) gone)|]; assumption.
Qed.

(** ** What the policies do to each statement *)

(** The statements whose policies hold no sub-select go on to their rows. *)
Ltac policies :=
  repeat match goal with
  | |- context [row_security ?r ?c ?b] =>
      change (row_security r c b) with (@Ok unit tt)
  end;
  cbn [bind].

(** The others end in the policy of [profiles] that reads [profiles]. *)

Lemma update_profile_refused (e : env) (id : uuid) (new : Profile.t) (d : db) :
  update_profile e id new d = refused.
Proof. reflexivity. Qed.

Lemma update_parking_spot_refused (e : env) (id : uuid) (new : ParkingSpot.t) (d : db) :
  update_parking_spot e id new d = refused.
Proof. reflexivity. Qed.

Lemma delete_parking_spot_refused (e : env) (id : uuid) (d : db) :
  delete_parking_spot e id d = refused.
Proof. reflexivity. Qed.

Lemma update_booking_refused (e : env) (id : uuid) (new : Booking.t) (d : db) :
  update_booking e id new d = refused.
Proof. reflexivity. Qed.

Lemma insert_payment_slip_refused (e : env) (s : PaymentSlip.t) (d : db) :
  insert_payment_slip e s d = refused.
Proof. reflexivity. Qed.

Lemma update_payment_slip_refused (e : env) (id : uuid) (new : PaymentSlip.t) (d : db) :
  update_payment_slip e id new d = refused.
Proof. reflexivity. Qed.

Lemma delete_payment_slip_refused (e : env) (id : uuid) (d : db) :
  delete_payment_slip e id d = refused.
Proof. reflexivity. Qed.

Lemma insert_review_refused (e : env) (r : Review.t) (d : db) :
  insert_review e r d = refused.
Proof. reflexivity. Qed.

Lemma update_spot_rating_refused (e : env) (NEW : Review.t) (d : db) :
  update_spot_rating e NEW d = refused.
Proof. reflexivity. Qed.

Lemma insert_availability_block_refused (e : env) (b : AvailabilityBlock.t) (d : db) :
  insert_availability_block e b d = refused.
Proof. reflexivity. Qed.

Lemma update_availability_block_refused (e : env) (id : uuid) (new : AvailabilityBlock.t)
    (d : db) :
  update_availability_block e id new d = refused.
Proof. reflexivity. Qed.

Lemma delete_availability_block_refused (e : env) (id : uuid) (d : db) :
  delete_availability_block e id d = refused.
Proof. reflexivity. Qed.

(** A statement that is refused has no successor state to speak of. *)
Ltac refused_in H :=
  first
    [ rewrite update_profile_refused in H
    | rewrite update_parking_spot_refused in H
    | rewrite delete_parking_spot_refused in H
    | rewrite update_booking_refused in H
    | rewrite insert_payment_slip_refused in H
    | rewrite update_payment_slip_refused in H
    | rewrite delete_payment_slip_refused in H
    | rewrite insert_review_refused in H
    | rewrite insert_availability_block_refused in H
    | rewrite update_availability_block_refused in H
    | rewrite delete_availability_block_refused in H ];
  discriminate H.

Lemma every_row_Ok {A} (check : A -> result unit) (rows : list A) (u : unit) :
  every_row check rows = Ok u -> Forall (fun r => check r = Ok tt) rows.
Proof.
  induction rows as [|r rows IH]; simpl; intros H; [constructor|].
  apply bind_Ok in H. destruct H as ([] & H1 & H2). constructor; auto.
Qed.

Lemma parking_spot_checks_Ok (s : ParkingSpot.t) (u : unit) :
  parking_spot_checks s = Ok u ->
  valid_images s = true /\ valid_price s = true /\ valid_slots s = true.
Proof. unfold parking_spot_checks. intros H. peel H. auto. Qed.

(** ** Every statement keeps the invariant *)

Lemma insert_auth_user_ok (u : User.t) (d d' : db) :
  db_ok d -> insert_auth_user u d = Ok d' -> db_ok d'.
Proof.
  intros [? ? ? Hfk ? ? ? ? ?] H. unfold insert_auth_user, handle_new_user in H. peel H.
  destruct (User.email u) as [email|]; [|discriminate]. peel H.
  injection H as <-. split; simpl; auto.
  eapply Forall_impl; [|exact Hfk]. simpl. intros b Hb.
  rewrite has_key_app, Hb. reflexivity.
Qed.

Lemma profile_ids_after_update (id : uuid) (ps : list Profile.t) (old new : Profile.t) :
  In old ps -> Profile.id old = id -> Profile.id new = id ->
  forall k, has_key Profile.id k ps = true ->
            has_key Profile.id k (without Profile.id id ps ++ [new]) = true.
Proof.
  intros Hold Eold Enew k Hk. rewrite has_key_app.
  destruct (Z.eqb_spec k id) as [->|Hne].
  - apply orb_true_iff. right. simpl. now rewrite Enew, Z.eqb_refl.
  - now rewrite has_key_without_other, Hk.
Qed.

Lemma update_profiles_ok (e : env) (set : ProfileSet.t) (d d' : db) :
  db_ok d -> update_profiles e set d = Ok d' -> db_ok d'.
Proof.
  intros Hd H. unfold update_profiles in H. peel H.
  destruct (lookup Profile.id (auth_uid e) (profiles d)) as [old|] eqn:L;
    [|injection H as <-; assumption].
  peel H. injection H as <-.
  apply lookup_In in L. destruct L as [L E].
  destruct Hd as [? ? ? Hfk ? ? ? ? ?]. split; simpl; auto.
  eapply Forall_impl; [|exact Hfk]. simpl. intros b.
  now apply (profile_ids_after_update (auth_uid e) (profiles d) old).
Qed.

Lemma delete_auth_user_ok (id : uuid) (d d' : db) :
  db_ok d -> delete_auth_user id d = Ok d' -> db_ok d'.
Proof.
  intros Hd H. unfold delete_auth_user in H.
  destruct (lookup User.id id (auth_users d)); [|injection H as <-; assumption].
  peel H. injection H as <-.
  destruct Hd as [? ? ? Hu Hv ? ? ? ?]. unfold without. split; simpl; auto with schema.
  - rewrite forget_vehicles_ids. auto with schema.
  - rewrite forget_vehicles_codes. auto with schema.
  - apply forget_vehicles_checks. auto with schema.
  - apply forget_vehicles_users.
    rewrite Forall_forall in *. intros b Hb. apply filter_In in Hb. destruct Hb as [Hb K].
    apply andb_prop in K. destruct K as [K _]. apply negb_true_iff, Z.eqb_neq in K.
    fold (without Profile.id id (profiles d)).
    rewrite has_key_without_other; auto.
  - apply Forall_map. rewrite Forall_forall in *. intros b Hb.
    apply filter_In in Hb. destruct Hb as [Hb _]. specialize (Hv b Hb).
    unfold forget_vehicles. destruct (Booking.vehicle_id b) as [v|] eqn:Ev; [|now rewrite Ev].
    destruct (existsb (Z.eqb v) _) eqn:Gone; [reflexivity|]. rewrite Ev. simpl in *.
    apply has_key_In, in_map_iff in Hv. destruct Hv as (w & Hw & Hin).
    apply has_key_In, in_map_iff. exists w. split; [assumption|].
    apply filter_In. split; [assumption|]. apply negb_true_iff, Z.eqb_neq. intros E.
    assert (existsb (Z.eqb v)
              (map Vehicle.id (filter (fun v0 => Vehicle.user_id v0 =? id) (vehicles d)))
            = true) as C; [|congruence].
    apply existsb_exists. exists v. split; [|apply Z.eqb_refl].
    apply in_map_iff. exists w. split; [assumption|]. apply filter_In.
    split; [assumption | now apply Z.eqb_eq].
Qed.

Lemma insert_parking_spot_ok (e : env) (s : ParkingSpot.t) (d d' : db) :
  db_ok d -> insert_parking_spot e s d = Ok d' -> db_ok d'.
Proof.
  intros [] H. unfold insert_parking_spot in H. peel H. checked.
  injection H as <-. split; simpl; auto with schema.
Qed.

Lemma update_parking_spots_ok (e : env) (set : ParkingSpotSet.t) (d d' : db) :
  db_ok d -> update_parking_spots e set d = Ok d' -> db_ok d'.
Proof.
  intros Hd H. unfold update_parking_spots in H. peel H. injection H as <-.
  match goal with G : every_row _ _ = Ok _ |- _ => apply every_row_Ok in G; rename G into C end.
  destruct Hd as [? ? ? ? ? ? ? ? Hs]. split; simpl; auto.
  rewrite Forall_forall in *. intros x Hx. apply in_map_iff in Hx.
  destruct Hx as (s & <- & Hin).
  destruct (owners_can_manage_their_spots e s) eqn:Own; [|now apply Hs].
  apply valid_slots_bounds.
  apply (parking_spot_checks_Ok _ tt), C, in_map, filter_In. auto.
Qed.

Lemma delete_parking_spots_ok (e : env) (d d' : db) :
  db_ok d -> delete_parking_spots e d = Ok d' -> db_ok d'.
Proof.
  intros Hd H. unfold delete_parking_spots in H. peel H. injection H as <-.
  destruct Hd. split; simpl; auto with schema.
Qed.

Lemma insert_vehicle_ok (e : env) (v : Vehicle.t) (d d' : db) :
  db_ok d -> insert_vehicle e v d = Ok d' -> db_ok d'.
Proof.
  intros [? ? ? ? Hfk ? ? ? ?] H. unfold insert_vehicle in H. peel H. injection H as <-.
  split; simpl; auto.
  eapply Forall_impl; [|exact Hfk]. simpl. intros b Hb. now apply references_app.
Qed.

Lemma update_vehicle_ok (e : env) (id : uuid) (new : Vehicle.t) (d d' : db) :
  db_ok d -> update_vehicle e id new d = Ok d' -> db_ok d'.
Proof.
  intros Hd H. unfold update_vehicle in H. peel H.
  destruct (lookup Vehicle.id id (vehicles d)) as [old|];
    [|injection H as <-; assumption].
  destruct (negb (users_can_manage_their_vehicles e old));
    [injection H as <-; assumption|].
  peel H. injection H as <-.
  destruct Hd as [? ? ? ? Hfk ? ? ? ?]. split; simpl; auto.
  rewrite Forall_forall in *. intros b Hb. specialize (Hfk b Hb).
  destruct (Booking.vehicle_id b) as [v|] eqn:Ev; [simpl in *|reflexivity].
  rewrite has_key_app. destruct (Z.eqb_spec v id) as [->|Hne].
  - apply orb_true_iff. right. simpl.
    match goal with Hx : (_ =? _) || negb _ = true |- _ =>
      apply orb_true_iff in Hx; destruct Hx as [Hy|Hy] end.
    + now rewrite Hy.
    + exfalso. apply negb_true_iff in Hy.
      assert (existsb (fun b0 => match Booking.vehicle_id b0 with
                                 | Some v => v =? id
                                 | None => false
                                 end) (bookings d) = true) as C; [|congruence].
      apply existsb_exists. exists b. rewrite Ev. split; [assumption | apply Z.eqb_refl].
  - now rewrite has_key_without_other, Hfk.
Qed.

Lemma delete_vehicle_ok (e : env) (id : uuid) (d d' : db) :
  db_ok d -> delete_vehicle e id d = Ok d' -> db_ok d'.
Proof.
  intros Hd H. unfold delete_vehicle in H. peel H.
  destruct (lookup Vehicle.id id (vehicles d)) as [old|];
    [|injection H as <-; assumption].
  destruct (negb (users_can_manage_their_vehicles e old));
    injection H as <-; [assumption|].
  destruct Hd as [? ? ? ? Hfk ? ? ? ?]. split; simpl; auto.
  - now rewrite forget_vehicles_ids.
  - now rewrite forget_vehicles_codes.
  - now apply forget_vehicles_checks.
  - now apply forget_vehicles_users.
  - apply Forall_map. eapply Forall_impl; [|exact Hfk]. simpl. intros b Hb.
    unfold forget_vehicles. destruct (Booking.vehicle_id b) as [v|] eqn:Ev; [|now rewrite Ev].
    simpl. destruct (Z.eqb_spec v id) as [->|Hne]; simpl; [reflexivity|].
    rewrite Ev. simpl in *. now rewrite has_key_without_other.
Qed.

Lemma insert_booking_ok (e : env) (r : BookingInsert.t) (d d' : db) :
  db_ok d -> insert_booking e r d = Ok d' -> db_ok d'.
Proof.
  intros [] H. unfold insert_booking in H. peel H. checked.
  injection H as <-. split; simpl; auto with schema.
Qed.

Lemma exec_ok (e : env) (s : statement) (d d' : db) :
  db_ok d -> exec e s d = Ok d' -> db_ok d'.
Proof.
  intros Hd. destruct s; simpl; intros H; try refused_in H.
  - exact (insert_auth_user_ok _ _ _ Hd H).
  - exact (delete_auth_user_ok _ _ _ Hd H).
  - exact (update_profiles_ok _ _ _ _ Hd H).
  - exact (insert_parking_spot_ok _ _ _ _ Hd H).
  - exact (update_parking_spots_ok _ _ _ _ Hd H).
  - exact (delete_parking_spots_ok _ _ _ Hd H).
  - exact (insert_vehicle_ok _ _ _ _ Hd H).
  - exact (update_vehicle_ok _ _ _ _ _ Hd H).
  - exact (delete_vehicle_ok _ _ _ _ Hd H).
  - exact (insert_booking_ok _ _ _ _ Hd H).
Qed.

Lemma step_ok (d : db) (c : env * statement) : db_ok d -> db_ok (step d c).
Proof.
  intros Hd. unfold step. destruct (exec (fst c) (snd c) d) eqn:E; [|assumption].
  eapply exec_ok; eassumption.
Qed.

Lemma run_ok (history : list (env * statement)) (d : db) :
  db_ok d -> db_ok (run history d).
Proof.
  revert d. induction history as [|c history IH]; simpl; intros d Hd; [assumption|].
  apply IH. now apply step_ok.
Qed.

Lemma reachable_ok (d : db) : reachable d -> db_ok d.
Proof. intros (history & <-). apply run_ok, empty_db_ok. Qed.

Lemma reachable_step (d : db) (c : env * statement) : reachable d -> reachable (step d c).
Proof.
  intros (history & <-). exists (history ++ [c]). unfold run.
  now rewrite fold_left_app.
Qed.

(** ** The default entry code *)

Lemma hex_byte_checked (b : byte) : hex_byte_check b = true.
Proof. destruct b; vm_compute; reflexivity. Qed.

Lemma hex_of_byte_spec (b : byte) :
  exists hi lo, hex_of_byte b = String hi (String lo EmptyString)
    /\ is_hex_digit hi = true /\ is_hex_digit lo = true
    /\ forall rest bs, decode_hex rest = Some bs ->
       decode_hex (String hi (String lo rest)) = Some (b :: bs).
Proof.
  pose proof (hex_byte_checked b) as H. unfold hex_byte_check in H.
  destruct (hex_of_byte b) as [|hi [|lo [|]]]; try discriminate.
  exists hi, lo. split; [reflexivity|].
  destruct (is_hex_digit hi); [|discriminate].
  destruct (is_hex_digit lo); [|discriminate]. cbn [andb] in H.
  do 2 (split; [reflexivity|]). intros rest bs E.
  cbn [decode_hex]. rewrite E.
  destruct (hex_value hi) as [h|]; [|discriminate].
  destruct (hex_value lo) as [l|]; [|discriminate].
  destruct (Byte.of_N (16 * h + l)) as [b'|]; [|discriminate].
  apply Byte.byte_dec_bl in H. now subst b'.
Qed.

Lemma encode_hex_length (bs : list byte) :
  String.length (encode_hex bs) = (2 * List.length bs)%nat.
Proof.
  induction bs as [|b bs IH]; [reflexivity|].
  destruct (hex_of_byte_spec b) as (hi & lo & E & _).
  cbn [encode_hex]. rewrite E. cbn [append String.length]. rewrite IH.
  cbn [List.length]. lia.
Qed.

Lemma encode_hex_digits (bs : list byte) :
  string_forallb is_hex_digit (encode_hex bs) = true.
Proof.
  induction bs as [|b bs IH]; [reflexivity|].
  destruct (hex_of_byte_spec b) as (hi & lo & E & Hhi & Hlo & _).
  cbn [encode_hex]. rewrite E. cbn [append string_forallb].
  now rewrite Hhi, Hlo, IH.
Qed.

(** The encoding loses nothing: decoding gives the bytes back. *)
Lemma decode_encode_hex (bs : list byte) : decode_hex (encode_hex bs) = Some bs.
Proof.
  induction bs as [|b bs IH]; [reflexivity|].
  destruct (hex_of_byte_spec b) as (hi & lo & E & _ & _ & D).
  cbn [encode_hex]. rewrite E. cbn [append]. now apply D.
Qed.

(** ** The default PIN *)

Lemma pin_checked (n : Z) : 0 <= n <= 9999 -> pin_check n = true.
Proof.
  intros H.
  assert (forallb pin_check (map Z.of_nat (seq 0 (Z.to_nat 10000))) = true) as A
    by (vm_compute; reflexivity).
  rewrite forallb_forall in A. apply A.
  apply in_map_iff. exists (Z.to_nat n). split; [lia|].
  apply in_seq. lia.
Qed.


Lemma round_53_bits_bounds (n : Z) :
  0 <= n ->
  0 <= round_53_bits n
  /\ (Z.log2 n < 53 -> round_53_bits n = n)
  /\ (53 <= Z.log2 n -> round_53_bits n <= n + 2 ^ (Z.log2 n - 53)).
Proof.
  intros Hn. unfold round_53_bits.
  destruct (Z.leb_spec (Z.log2 n + 1 - 53) 0) as [Hs|Hs].
  - repeat split; try lia.
  - set (s := Z.log2 n + 1 - 53) in *.
    rewrite !Z.shiftl_mul_pow2, Z.shiftr_div_pow2 by lia.
    rewrite Z.mul_1_l.
    assert (0 < 2 ^ s) as Hp by (apply Z.pow_pos_nonneg; lia).
    assert (2 ^ s = 2 * 2 ^ (s - 1)) as Hh
      by (rewrite <- Z.pow_succ_r by lia; f_equal; lia).
    replace (Z.log2 n - 53) with (s - 1) by lia.
    pose proof (Z.div_mod n (2 ^ s) ltac:(lia)) as Hdm.
    pose proof (Z.mod_pos_bound n (2 ^ s) Hp) as Hm.
    pose proof (Z.div_pos n (2 ^ s) Hn Hp) as Hq.
    set (q := n / 2 ^ s) in *. set (m := n mod 2 ^ s) in *.
    assert (n - q * 2 ^ s = m) as -> by lia.
    split; [|split; [lia|intros _]].
    + destruct (_ || _); nia.
    + destruct ((2 ^ (s - 1) <? m) || ((m =? 2 ^ (s - 1)) && Z.odd q)) eqn:E.
      * assert (2 ^ (s - 1) <= m).
        { apply orb_true_iff in E. destruct E as [E|E]; [lia|].
          apply andb_prop in E. lia. }
        nia.
      * nia.
Qed.

Lemma float8_floor_scaled_range (p k : Z) :
  0 <= p <= 53 -> 0 <= k < 2 ^ p -> 0 <= float8_floor_scaled p k <= 9999.
Proof.
  intros Hp Hk. unfold float8_floor_scaled.
  rewrite Z.shiftr_div_pow2 by lia.
  assert (0 < 2 ^ p) as Hpp by (apply Z.pow_pos_nonneg; lia).
  destruct (round_53_bits_bounds (k * 10000) ltac:(lia)) as (H0 & Hsmall & Hbig).
  split; [apply Z.div_pos; lia|].
  assert (round_53_bits (k * 10000) < 10000 * 2 ^ p) as Hlt.
  { destruct (Z.lt_ge_cases (Z.log2 (k * 10000)) 53) as [Hl|Hl].
    - rewrite Hsmall by assumption. nia.
    - specialize (Hbig Hl).
      assert (k * 10000 < 2 ^ (p + 14)) as Hb.
      { rewrite Z.pow_add_r by lia. change (2 ^ 14) with 16384. nia. }
      assert (0 < k * 10000) as Hpos
        by (destruct (Z.eq_dec k 0) as [->|]; [simpl in Hl; lia | lia]).
      assert (Z.log2 (k * 10000) < p + 14) as Hlog
        by (apply Z.log2_lt_pow2; lia).
      assert (2 ^ (Z.log2 (k * 10000) - 53) <= 2 ^ (p - 40)) as Hpow
        by (apply Z.pow_le_mono_r; lia).
      assert (2 ^ (p - 40) <= 2 ^ 13) as Hcap
        by (apply Z.pow_le_mono_r; lia).
      change (2 ^ 13) with 8192 in Hcap. lia. }
  assert (round_53_bits (k * 10000) / 2 ^ p < 10000); [|lia].
  apply Z.div_lt_upper_bound; lia.
Qed.

(** Whatever [random()] returns, the rounded product stays below 10000 and
    the PIN made from its floor has four decimal digits. *)
Lemma float8_pin_four_digits (p k : Z) :
  0 <= p <= 53 -> 0 <= k < 2 ^ p ->
  String.length (pin_of (float8_floor_scaled p k)) = 4%nat
  /\ string_forallb is_decimal_digit (pin_of (float8_floor_scaled p k)) = true
  /\ decimal_value (pin_of (float8_floor_scaled p k)) = float8_floor_scaled p k.
Proof.
  intros Hp Hk.
  pose proof (pin_checked _ (float8_floor_scaled_range p k Hp Hk)) as Hc.
  unfold pin_check in Hc.
  apply andb_prop in Hc. destruct Hc as [Hc Hv].
  apply andb_prop in Hc. destruct Hc as [Hl Hd].
  apply Nat.eqb_eq in Hl. apply Z.eqb_eq in Hv. auto.
Qed.

Lemma is_float8_unit_spec (r : Q) :
  is_float8_unit r = true ->
  let p := Z.log2 (Zpos (Qden r)) in
  Zpos (Qden r) = 2 ^ p /\ 0 <= p <= 53 /\ 0 <= Qnum r < 2 ^ p.
Proof.
  unfold is_float8_unit. cbv zeta. intros H.
  apply andb_prop in H. destruct H as [H H4].
  apply andb_prop in H. destruct H as [H H3].
  apply andb_prop in H. destruct H as [H1 H2].
  apply Z.eqb_eq in H1. pose proof (Z.log2_nonneg (Zpos (Qden r))). lia.
Qed.

Lemma default_pin_spec (r : Q) :
  is_float8_unit r = true ->
  String.length (default_pin r) = 4%nat
  /\ string_forallb is_decimal_digit (default_pin r) = true
  /\ decimal_value (default_pin r)
     = float8_floor_scaled (Z.log2 (Zpos (Qden r))) (Qnum r).
Proof.
  intros H. apply is_float8_unit_spec in H. destruct H as (_ & Hp & Hk).
  now apply float8_pin_four_digits.
Qed.

(** A number on the grid of the rounding that does not exceed [n] does not
    exceed the rounded [n] either. *)
Lemma round_53_bits_grid (n j : Z) :
  0 <= n -> 0 <= j ->
  j * 2 ^ Z.max 0 (Z.log2 n + 1 - 53) <= n ->
  j * 2 ^ Z.max 0 (Z.log2 n + 1 - 53) <= round_53_bits n.
Proof.
  intros Hn Hj H. unfold round_53_bits.
  destruct (Z.leb_spec (Z.log2 n + 1 - 53) 0) as [Hs|Hs]; [assumption|].
  rewrite Z.max_r in * by lia.
  set (s := Z.log2 n + 1 - 53) in *.
  rewrite !Z.shiftl_mul_pow2, Z.shiftr_div_pow2 by lia.
  assert (0 < 2 ^ s) as Hp by (apply Z.pow_pos_nonneg; lia).
  assert (j <= n / 2 ^ s) as Hq by (apply Z.div_le_lower_bound; lia).
  destruct (_ || _); nia.
Qed.

(** The product [k * 10000] for a draw [k / 2 ^ p]: the bits that rounding
    drops are fewer than [p - 38]. *)
Lemma scaled_dropped_bits (p k : Z) :
  0 <= p -> 0 <= k < 2 ^ p -> Z.max 0 (Z.log2 (k * 10000) + 1 - 53) <= Z.max 0 (p - 39).
Proof.
  intros Hp Hk. destruct (Z.eq_dec k 0) as [->|Hne]; [simpl; lia|].
  assert (k * 10000 < 2 ^ (p + 14)) as Hb.
  { rewrite Z.pow_add_r by lia. change (2 ^ 14) with 16384. nia. }
  assert (Z.log2 (k * 10000) < p + 14) by (apply Z.log2_lt_pow2; lia).
  lia.
Qed.

Lemma pow2_split (a b : Z) : 0 <= a <= b -> 2 ^ b = 2 ^ (b - a) * 2 ^ a.
Proof. intros H. rewrite <- Z.pow_add_r by lia. f_equal. lia. Qed.

(** The value of the PIN against the exact product, in integers: with
    [n = k * 10000] and [P = 2 ^ p], the value [v] is given by every [n] of
    [v * P, (v + 1) * P - P / 2 ^ 40) and only by those of
    [v * P - P / 2 ^ 40, (v + 1) * P). *)
Lemma float8_floor_scaled_preimage (p k v : Z) :
  0 <= p <= 53 -> 0 <= k < 2 ^ p -> 0 <= v ->
  (float8_floor_scaled p k = v ->
   (v * 1099511627776 - 1) * 2 ^ p <= k * 10000 * 1099511627776
   /\ k * 10000 < (v + 1) * 2 ^ p)
  /\ (v * 2 ^ p <= k * 10000 ->
      k * 10000 * 1099511627776 < ((v + 1) * 1099511627776 - 1) * 2 ^ p ->
      float8_floor_scaled p k = v).
Proof.
  intros Hp Hk Hv. unfold float8_floor_scaled. rewrite Z.shiftr_div_pow2 by lia.
  set (n := k * 10000). set (P := 2 ^ p).
  assert (0 < P) as HP by (apply Z.pow_pos_nonneg; lia).
  assert (0 <= n) as Hn by (unfold n; lia).
  pose proof (scaled_dropped_bits p k ltac:(lia) Hk) as Hs. fold n in Hs.
  set (s := Z.max 0 (Z.log2 n + 1 - 53)) in *.
  assert (0 <= s <= p) as Hsp by (unfold s; lia).
  assert (forall j, 0 <= j -> j * P <= n -> j * P <= round_53_bits n) as Grid.
  { intros j Hj Hle. unfold P in *. rewrite (pow2_split s p) in * by lia.
    rewrite Z.mul_assoc in *. apply round_53_bits_grid; [lia | | assumption].
    apply Z.mul_nonneg_nonneg; [lia|]. apply Z.pow_nonneg. lia. }
  assert (round_53_bits n * 1099511627776 <= n * 1099511627776 + P) as Up.
  { destruct (round_53_bits_bounds n Hn) as (_ & Hsmall & Hbig).
    destruct (Z.lt_ge_cases (Z.log2 n) 53) as [Hl|Hl].
    - rewrite Hsmall by assumption. lia.
    - specialize (Hbig Hl).
      assert (Z.log2 n - 53 = s - 1) as E by (unfold s; lia). rewrite E in Hbig.
      assert (1 <= s) by (unfold s; lia).
      assert (40 <= p) by lia.
      assert (2 ^ (s - 1) * 1099511627776 <= P).
      { change 1099511627776 with (2 ^ 40). rewrite <- Z.pow_add_r by lia.
        unfold P. apply Z.pow_le_mono_r; lia. }
      nia. }
  pose proof (round_53_bits_bounds n Hn) as (R0 & _ & _).
  split.
  - intros <-. set (R := round_53_bits n) in *.
    pose proof (Z.mul_div_le R P HP) as D1.
    pose proof (Z.mul_succ_div_gt R P HP) as D2.
    split; [nia|].
    destruct (Z.lt_ge_cases n ((R / P + 1) * P)) as [|Hge]; [assumption|].
    apply Grid in Hge; [lia|]. pose proof (Z.div_pos R P R0 HP). lia.
  - intros Hlo Hhi. pose proof (Grid v Hv Hlo) as Hl.
    assert (round_53_bits n < (v + 1) * P) as Hu by nia.
    symmetry. apply Z.div_unique with (r := round_53_bits n - v * P); lia.
Qed.

(** ** Inserting a booking *)

Lemma references_spec {A} (key : A -> Z) (k : option Z) (rows : list A) :
  references key k rows = true <-> (forall v, k = Some v -> In v (map key rows)).
Proof.
  destruct k as [v|]; simpl.
  - rewrite has_key_In. split; [intros H w [= <-]; assumption | auto].
  - split; [intros _ v; discriminate | reflexivity].
Qed.

Lemma numeric_10_2_ok_spec (n : Z) :
  numeric_10_2_ok n = true <-> -10000000000 < n < 10000000000.
Proof. unfold numeric_10_2_ok. lia. Qed.

Lemma check_booking_intro (others : list Booking.t) (d : db) (b : Booking.t) :
  valid_booking_time b = true -> valid_cost b = true ->
  has_key Booking.id (Booking.id b) others = false ->
  has_text_key Booking.qr_code (Booking.qr_code b) others = false ->
  has_key Profile.id (Booking.user_id b) (profiles d) = true ->
  has_key ParkingSpot.id (Booking.spot_id b) (parking_spots d) = true ->
  references Vehicle.id (Booking.vehicle_id b) (vehicles d) = true ->
  check_booking others d b = Ok tt.
Proof.
  intros H1 H2 H3 H4 H5 H6 H7. unfold check_booking.
  now rewrite H1, H2, H3, H4, H5, H6, H7.
Qed.

Lemma insert_booking_Ok (e : env) (r : BookingInsert.t) (d d' : db) :
  insert_booking e r d = Ok d' ->
  d' = set_bookings d (bookings d ++ [booking_of_insert e r])
  /\ booking_row_accepted e d (booking_of_insert e r).
Proof.
  intros H. unfold insert_booking in H. peel H. checked. injection H as <-.
  split; [reflexivity|]. unfold booking_row_accepted.
  repeat match goal with
  | G : numeric_10_2_ok _ = true |- _ => apply numeric_10_2_ok_spec in G
  | G : users_can_create_bookings _ _ = true |- _ =>
      unfold users_can_create_bookings in G; apply Z.eqb_eq in G
  | G : valid_booking_time _ = true |- _ => unfold valid_booking_time in G
  | G : valid_cost _ = true |- _ => unfold valid_cost in G
  | G : has_key _ _ _ = false |- _ => apply has_key_false in G
  | G : has_text_key _ _ _ = false |- _ => apply has_text_key_false in G
  | G : has_key _ _ _ = true |- _ => apply has_key_In in G
  | G : references _ _ _ = true |- _ => rewrite references_spec in G
  end.
  repeat split; try assumption; lia.
Qed.

Lemma insert_booking_accepted (e : env) (r : BookingInsert.t) (d : db) :
  booking_row_accepted e d (booking_of_insert e r) ->
  insert_booking e r d = Ok (set_bookings d (bookings d ++ [booking_of_insert e r])).
Proof.
  intros (N & U & T & C & I & Q & P & S & V). unfold insert_booking.
  apply numeric_10_2_ok_spec in N. rewrite N.
  unfold users_can_create_bookings. rewrite U, Z.eqb_refl. cbn [require bind].
  rewrite check_booking_intro; [reflexivity | | | | | | | ].
  - unfold valid_booking_time. lia.
  - unfold valid_cost. lia.
  - now apply has_key_false.
  - now apply has_text_key_false.
  - now apply has_key_In.
  - now apply has_key_In.
  - now apply references_spec.
Qed.

(** A statement that fails changes nothing. *)
Lemma step_Err (d : db) (e : env) (s : statement) (err : sql_error) :
  exec e s d = Err err -> step d (e, s) = d.
Proof. unfold step. simpl. now intros ->. Qed.

Lemma step_Ok (d d' : db) (e : env) (s : statement) :
  exec e s d = Ok d' -> step d (e, s) = d'.
Proof. unfold step. simpl. now intros ->. Qed.

(** A row that was acceptable stays so after another row with a different
    id and a different code has been stored. *)
Lemma booking_row_accepted_after (e : env) (d : db) (b new : Booking.t) :
  booking_row_accepted e d b ->
  Booking.id new <> Booking.id b -> Booking.qr_code new <> Booking.qr_code b ->
  booking_row_accepted e (set_bookings d (bookings d ++ [new])) b.
Proof.
  intros (N & U & T & C & I & Q & P & S & V) Hid Hqr.
  unfold booking_row_accepted. simpl. rewrite !map_app. simpl.
  repeat split; try assumption; try lia.
  - rewrite in_app_iff. simpl. tauto.
  - rewrite in_app_iff. simpl. tauto.
Qed.

Lemma reservations_all_stored (calls : list (env * BookingInsert.t)) (d : db) :
  Forall (fun c => booking_row_accepted (fst c) d (reserved c)) calls ->
  NoDup (map (fun c => Booking.id (reserved c)) calls) ->
  NoDup (map (fun c => Booking.qr_code (reserved c)) calls) ->
  run (map reserve calls) d = set_bookings d (bookings d ++ map reserved calls).
Proof.
  revert d. induction calls as [|c calls IH]; intros d HF Hid Hqr.
  - simpl. rewrite app_nil_r. now destruct d.
  - apply Forall_cons_iff in HF. destruct HF as [Hc HF'].
    cbn [map] in Hid, Hqr.
    apply NoDup_cons_iff in Hid. destruct Hid as [Hi Hid'].
    apply NoDup_cons_iff in Hqr. destruct Hqr as [Hq Hqr'].
    change (run (map reserve (c :: calls)) d)
      with (run (map reserve calls) (step d (reserve c))).
    assert (step d (reserve c) = set_bookings d (bookings d ++ [reserved c])) as ->
      by (apply step_Ok, insert_booking_accepted, Hc).
    rewrite IH; [ | | assumption | assumption].
    + unfold set_bookings. cbn. rewrite <- app_assoc. reflexivity.
    + rewrite Forall_forall in *. intros c' Hc'.
      apply booking_row_accepted_after; [now apply HF' | | ].
      * intros E. apply Hi. rewrite in_map_iff. exists c'. split; [now symmetry|assumption].
      * intros E. apply Hq. rewrite in_map_iff. exists c'. split; [now symmetry|assumption].
Qed.
(** ** What a statement changes *)

(** Splits a statement that succeeded into the ways it can have run, and
    replaces the database it returned by the one it built. *)
Ltac statement_cases H :=
  cbn [exec] in H;
  try refused_in H;
  unfold insert_auth_user, handle_new_user, delete_auth_user, update_profiles,
    insert_parking_spot, update_parking_spots, delete_parking_spots,
    insert_vehicle, update_vehicle, delete_vehicle, insert_booking in H;
  repeat first
    [ progress peel H
    | match type of H with
      | match ?x with _ => _ end = Ok _ => destruct x eqn:?
      end ];
  try discriminate H;
  injection H as <-.

(** ** The tables no statement can write to

    Every statement of a client on [payment_slips], [reviews] and
    [availability_blocks] is refused, and the statements that go through
    only take rows away from them: the three tables stay empty. *)

Lemma exec_never_written (e : env) (s : statement) (d d' : db) :
  never_written d -> exec e s d = Ok d' -> never_written d'.
Proof.
  unfold never_written. intros (P & R & A) H.
  destruct s; statement_cases H; cbn; rewrite ?P, ?R, ?A; auto.
Qed.

Lemma reachable_never_written (d : db) : reachable d -> never_written d.
Proof.
  intros (history & <-).
  assert (forall h d0, never_written d0 -> never_written (run h d0)) as K.
  { induction h as [|c h IH]; simpl; intros d0 H0; [assumption|].
    apply IH. unfold step. destruct (exec (fst c) (snd c) d0) eqn:E; [|assumption].
    eapply exec_never_written; eassumption. }
  apply K. repeat split.
Qed.

(** ** Sign-up *)

Lemma insert_auth_user_Ok (u : User.t) (d d' : db) :
  insert_auth_user u d = Ok d' ->
  exists email role,
    User.email u = Some email
    /\ user_role_of_text
         (with_default "user"%string (UserMetaData.role (User.raw_user_meta_data u)))
       = Ok role
    /\ d' = mkdb (auth_users d ++ [u])
                 (profiles d ++
                    [Profile.mk (User.id u) email
                       (with_default (split_part_1 email "@")
                                     (UserMetaData.name (User.raw_user_meta_data u)))
                       role])
                 (parking_spots d) (vehicles d) (bookings d)
                 (payment_slips d) (reviews d) (availability_blocks d).
Proof.
  intros H. unfold insert_auth_user, handle_new_user in H. peel H.
  destruct (User.email u) as [email|]; [|discriminate]. peel H.
  injection H as <-. exists email. eexists. split; [reflexivity|].
  split; [eassumption | reflexivity].
Qed.
(** ** Rejected rows *)

Lemma insert_parking_spot_Ok (e : env) (s : ParkingSpot.t) (d d' : db) :
  insert_parking_spot e s d = Ok d' -> slots_within_bounds s.
Proof. intros H. unfold insert_parking_spot in H. peel H. checked. assumption. Qed.

Lemma every_row_Err {A} (check : A -> result unit) (rows : list A) (r : A) :
  In r rows -> (forall u, check r <> Ok u) -> exists err, every_row check rows = Err err.
Proof.
  intros Hr Hbad. destruct (every_row check rows) as [u|err] eqn:E; [|eauto].
  exfalso. apply every_row_Ok in E. rewrite Forall_forall in E.
  exact (Hbad tt (E r Hr)).
Qed.

(** An [UPDATE parking_spots SET ...] that would leave one of the acting
    user's spots outside the bound is refused. *)
Lemma update_parking_spots_out_of_bounds (e : env) (set : ParkingSpotSet.t) (d : db)
    (s : ParkingSpot.t) :
  In s (parking_spots d) -> ParkingSpot.owner_id s = auth_uid e ->
  ~ slots_within_bounds (set_parking_spot set s) ->
  exists err, update_parking_spots e set d = Err err.
Proof.
  intros Hs Own Hbad. unfold update_parking_spots. policies.
  destruct (parking_spot_set_types set) as [[]|err]; cbn [bind]; [|eauto].
  destruct (every_row_Err parking_spot_checks
              (map (set_parking_spot set)
                   (filter (owners_can_manage_their_spots e) (parking_spots d)))
              (set_parking_spot set s)) as (err & ->); [| |cbn [bind]; eauto].
  - apply in_map, filter_In. split; [assumption|].
    unfold owners_can_manage_their_spots. now apply Z.eqb_eq.
  - intros u H. apply parking_spot_checks_Ok in H. destruct H as (_ & _ & H).
    now apply valid_slots_bounds in H.
Qed.

(** ** Bookings keep what they were stored with *)

Lemma booking_of_insert_with_status (e : env) (r : BookingInsert.t) (s : booking_status) :
  booking_of_insert e (with_status r s) = set_status (booking_of_insert e r) s.
Proof. reflexivity. Qed.

(** After a statement that succeeded, a booking either was there before
    with the same status, payment status and confirmation time, or is the
    row the statement, an INSERT, has just stored. *)
Lemma booking_frame (e : env) (st : statement) (d d' : db) :
  exec e st d = Ok d' ->
  forall b', In b' (bookings d') ->
    (exists b, In b (bookings d)
               /\ Booking.id b = Booking.id b'
               /\ Booking.status b = Booking.status b'
               /\ Booking.payment_status b = Booking.payment_status b'
               /\ Booking.confirmed_at b = Booking.confirmed_at b')
    \/ (exists r, st = InsertBooking r /\ b' = booking_of_insert e r).
Proof.
  intros H b' Hb.
  destruct st; statement_cases H; cbn in Hb;
    try (left; exists b'; repeat split; assumption).
  - apply in_map_iff in Hb. destruct Hb as (b & <- & Hb).
    apply filter_In in Hb. destruct Hb as [Hb _]. left. exists b.
    split; [assumption|]. unfold forget_vehicles.
    destruct (Booking.vehicle_id b) as [v|]; [destruct (existsb (Z.eqb v) _)|];
      repeat split; reflexivity.
  - apply filter_In in Hb. left. exists b'. tauto.
  - apply in_map_iff in Hb. destruct Hb as (b & <- & Hb). left. exists b.
    split; [assumption|]. unfold forget_vehicles.
    destruct (Booking.vehicle_id b) as [v|]; [destruct (existsb (Z.eqb v) _)|];
      repeat split; reflexivity.
  - apply in_app_iff in Hb. destruct Hb as [Hb|[<-|[]]].
    + left. exists b'. auto.
    + right. eauto.
Qed.

(** ** Main results *)

(** C1, as the specification states it, fails on the sample history: the
    spot has one slot, the booking of 10:00 to 11:00 is pending, so the
    capacity left for 10:30 to 11:30 is zero; the INSERT of a second booking
    for that interval succeeds all the same and stores its row. *)
Lemma reservation_beyond_capacity :
  lookup ParkingSpot.id 10 (parking_spots db_booked) = Some one_slot_spot
  /\ ParkingSpot.is_active one_slot_spot = true
  /\ 630 < 690
  /\ ParkingSpot.total_slots one_slot_spot - concurrentDemand db_booked 10 630 690 = 0
  /\ capacity_allows db_booked one_slot_spot 630 690 1 = false
  /\ insert_booking (fst second_call) (snd second_call) db_booked
     = Ok (set_bookings db_booked (bookings db_booked ++ [second_booking])).
Proof. repeat split; vm_compute; reflexivity. Qed.

(** C1, amended.  [INSERT INTO bookings], the only reservation call of the
    schema, succeeds if and only if the row passes the type of [total_cost],
    the policy [user_id = auth.uid()], the checks [end_time > start_time] and
    [total_cost > 0], the uniqueness of [id] and [qr_code] and the three
    foreign keys; it then stores exactly that row.  Neither [total_slots],
    nor [is_active], nor the other bookings' intervals, nor the availability
    blocks take part, and a call that fails changes nothing. *)
Theorem insert_booking_decision (e : env) (r : BookingInsert.t) (d : db) :
  let new := booking_of_insert e r in
  (insert_booking e r d = Ok (set_bookings d (bookings d ++ [new]))
   <-> -10000000000 < Booking.total_cost new < 10000000000
       /\ Booking.user_id new = auth_uid e
       /\ Booking.end_time new > Booking.start_time new
       /\ Booking.total_cost new > 0
       /\ ~ In (Booking.id new) (map Booking.id (bookings d))
       /\ ~ In (Booking.qr_code new) (map Booking.qr_code (bookings d))
       /\ In (Booking.user_id new) (map Profile.id (profiles d))
       /\ In (Booking.spot_id new) (map ParkingSpot.id (parking_spots d))
       /\ (forall v, Booking.vehicle_id new = Some v -> In v (map Vehicle.id (vehicles d))))
  /\ (forall d', insert_booking e r d = Ok d' -> d' = set_bookings d (bookings d ++ [new]))
  /\ (forall err, insert_booking e r d = Err err -> step d (e, InsertBooking r) = d).
Proof.
  intros new. split; [split|split].
  - intros H. now apply insert_booking_Ok in H.
  - apply insert_booking_accepted.
  - intros d' H. now apply insert_booking_Ok in H.
  - intros err H. now apply step_Err with (err := err).
Qed.

(** C2, as the specification states it, fails already when the two calls
    run one after the other: on the spot with one free slot, the requests
    for 10:00 to 11:00 and for 10:30 to 11:30 overlap and ask for two slots
    together, and both are stored as pending bookings, in either order. *)
Lemma overlapping_requests_both_succeed :
  ParkingSpot.total_slots one_slot_spot - concurrentDemand db_listed 10 600 690 = 1
  /\ overlaps 600 660 630 690 = true
  /\ unitsRequested (reserved first_call) + unitsRequested (reserved second_call) = 2
  /\ bookings (run [reserve first_call; reserve second_call] db_listed)
     = [sample_booking pending; second_booking]
  /\ bookings (run [reserve second_call; reserve first_call] db_listed)
     = [second_booking; sample_booking pending].
Proof. repeat split; vm_compute; reflexivity. Qed.

(** C2, amended.  Reservation calls executed one after the other, in any
    order, all succeed, however many slots the spot has and whatever their
    intervals: it is enough that each row is acceptable on its own in the
    database they start from and that the ids and the codes of the rows are
    pairwise distinct.  No call fails for lack of capacity. *)
Theorem reservations_in_sequence_all_succeed
    (calls : list (env * BookingInsert.t)) (d : db) :
  Forall (fun c => booking_row_accepted (fst c) d (reserved c)) calls ->
  NoDup (map (fun c => Booking.id (reserved c)) calls) ->
  NoDup (map (fun c => Booking.qr_code (reserved c)) calls) ->
  bookings (run (map reserve calls) d) = bookings d ++ map reserved calls.
Proof.
  intros HF Hid Hqr. now rewrite reservations_all_stored.
Qed.

(** C3, as the specification states it, fails on the sample history: the
    table of section 4.2 lets a booking begin as [pending] only, and the
    INSERT of consumer 2 that names the status [completed] stores the
    booking as [completed]; no error is raised. *)
Lemma booking_stored_as_completed :
  transition_in_table None completed = false
  /\ bookings db_listed = []
  /\ insert_booking (sample_env 2 100 x2a (69 # 16384)) (request_as completed) db_listed
     = Ok (set_bookings db_listed [sample_booking completed]).
Proof. repeat split; vm_compute; reflexivity. Qed.

(** C3, amended.  No transition table governs the status of a booking.  An
    INSERT stores a booking in whatever status it names ([pending] when it
    names none): whether the INSERT is accepted does not depend on the
    status.  Once a booking is stored, its status, its payment status and its
    confirmation time are changed by no statement other than an UPDATE of
    [bookings], and an UPDATE that is refused leaves the database as it
    was. *)
Theorem booking_status_follows_no_table (e : env) (d : db) :
  (forall r s,
      (exists d', insert_booking e r d = Ok d') ->
      insert_booking e (with_status r s) d
      = Ok (set_bookings d (bookings d ++ [set_status (booking_of_insert e r) s])))
  /\ (forall st d',
        exec e st d = Ok d' ->
        forall b', In b' (bookings d') ->
          (exists b, In b (bookings d)
                     /\ Booking.id b = Booking.id b'
                     /\ Booking.status b = Booking.status b'
                     /\ Booking.payment_status b = Booking.payment_status b'
                     /\ Booking.confirmed_at b = Booking.confirmed_at b')
          \/ (exists r, st = InsertBooking r /\ b' = booking_of_insert e r)
          \/ exists id, st = UpdateBooking id b')
  /\ (forall id new err,
        update_booking e id new d = Err err -> step d (e, UpdateBooking id new) = d).
Proof.
  split; [|split].
  - intros r s (d' & H). apply insert_booking_Ok in H. destruct H as [_ A].
    rewrite <- booking_of_insert_with_status. apply insert_booking_accepted.
    rewrite booking_of_insert_with_status. exact A.
  - intros st d' H b' Hb. destruct (booking_frame e st d d' H b' Hb) as [K|K]; auto.
  - intros id new err H. now apply step_Err with (err := err).
Qed.

(** C4, as the specification states it, fails on the sample history: the
    INSERT of consumer 2 names a code of its own, eight characters that are
    not all hexadecimal digits, and the booking is stored with that code. *)
Lemma client_names_the_code :
  String.length "not hex!" = 8%nat
  /\ string_forallb is_hex_digit "not hex!" = false
  /\ insert_booking (sample_env 2 100 x2a (69 # 16384)) (request_with_code "not hex!")
                    db_listed
     = Ok (set_bookings db_listed
             [Booking.mk 100 2 10 None 600 660 5000 pending pay_pending "not hex!" "0042"
                         None]).
Proof. repeat split; vm_compute; reflexivity. Qed.

(** C4, amended.  At every point in time two distinct bookings (terminal or
    not) have different codes.  The code of a booking is the one its INSERT
    names, whatever text that is; when the INSERT names none, it is the
    hexadecimal encoding of the 16 bytes [gen_random_bytes(16)] returned: 32
    hexadecimal digits from which the bytes are recovered. *)
Theorem booking_codes_unique_and_hex (d : db) :
  reachable d ->
  (forall b1 b2,
      In b1 (bookings d) -> In b2 (bookings d) ->
      Booking.id b1 <> Booking.id b2 -> Booking.qr_code b1 <> Booking.qr_code b2)
  /\ (forall e r d',
        List.length (gen_random_bytes e 16) = 16%nat ->
        BookingInsert.qr_code r = None ->
        insert_booking e r d = Ok d' ->
        exists b,
          bookings d' = bookings d ++ [b]
          /\ Booking.qr_code b = encode_hex (gen_random_bytes e 16)
          /\ String.length (Booking.qr_code b) = 32%nat
          /\ string_forallb is_hex_digit (Booking.qr_code b) = true
          /\ decode_hex (Booking.qr_code b) = Some (gen_random_bytes e 16))
  /\ (forall e r code d',
        BookingInsert.qr_code r = Some code ->
        insert_booking e r d = Ok d' ->
        exists b, bookings d' = bookings d ++ [b] /\ Booking.qr_code b = code).
Proof.
  intros R. apply reachable_ok in R. split; [|split].
  - intros b1 b2 H1 H2 Hid Hqr. apply Hid. f_equal.
    eapply NoDup_map_inj; [apply (bookings_qr_code_key d R) | | | ]; eassumption.
  - intros e r d' L N H. apply insert_booking_Ok in H. destruct H as [-> _].
    exists (booking_of_insert e r). unfold booking_of_insert. rewrite N.
    cbn [bookings set_bookings Booking.qr_code with_default].
    repeat split.
    + rewrite encode_hex_length, L. reflexivity.
    + apply encode_hex_digits.
    + apply decode_encode_hex.
  - intros e r code d' N H. apply insert_booking_Ok in H. destruct H as [-> _].
    exists (booking_of_insert e r). unfold booking_of_insert. rewrite N.
    split; reflexivity.
Qed.



(** C6.  An INSERT into [reviews] succeeds only when the booking it names is
    [completed] (and is the acting user's), no review exists yet for that
    booking and the rating lies between 1 and 5: when one of the three is
    missing it fails and the database, its reviews included, stays as it
    was.  With the policies of the migration as they are the INSERT never
    gets as far as these conditions: the policy reads [bookings], the
    expansion of the policies ends in the policy of [profiles] that reads
    [profiles], and the INSERT is refused also when all three hold. *)
Theorem review_only_for_completed_booking (e : env) (r : Review.t) (d : db) :
  let allowed :=
    (exists b, lookup Booking.id (Review.booking_id r) (bookings d) = Some b
               /\ Booking.status b = completed /\ Booking.user_id b = auth_uid e)
    /\ ~ In (Review.booking_id r) (map Review.booking_id (reviews d))
    /\ 1 <= Review.rating r <= 5 in
  (~ allowed ->
   (exists err, insert_review e r d = Err err)
   /\ step d (e, InsertReview r) = d
   /\ reviews (step d (e, InsertReview r)) = reviews d)
  /\ (forall d', insert_review e r d = Ok d' -> allowed)
  /\ insert_review e r d = Err (invalid_object_definition "profiles").
Proof.
  intros allowed.
  assert (step d (e, InsertReview r) = d) as S
    by (apply step_Err with (err := invalid_object_definition "profiles");
        apply insert_review_refused).
  split; [|split].
  - intros _. rewrite S. split; [eexists; apply insert_review_refused | auto].
  - intros d' H. rewrite insert_review_refused in H. discriminate H.
  - apply insert_review_refused.
Qed.

(** C7, as the specification states it, fails on the sample history: the
    INSERT of consumer 2 names a PIN of its own, three letters, and the
    booking is stored with that PIN. *)
Lemma client_names_the_pin :
  String.length "abc" = 3%nat
  /\ string_forallb is_decimal_digit "abc" = false
  /\ insert_booking (sample_env 2 100 x2a (69 # 16384)) (request_with_pin "abc") db_listed
     = Ok (set_bookings db_listed
             [Booking.mk 100 2 10 None 600 660 5000 pending pay_pending
                         "2a2a2a2a2a2a2a2a2a2a2a2a2a2a2a2a" "abc" None]).
Proof. repeat split; vm_compute; reflexivity. Qed.

Lemma scaled_draw_bounds (r : Q) (v : Z) :
  ((inject_Z v <= r * 10000)%Q <-> v * Zpos (Qden r) <= Qnum r * 10000)
  /\ ((r * 10000 < inject_Z v)%Q <-> Qnum r * 10000 < v * Zpos (Qden r))
  /\ ((inject_Z v - (1 # 1099511627776) <= r * 10000)%Q
      <-> (v * 1099511627776 - 1) * Zpos (Qden r) <= Qnum r * 10000 * 1099511627776)
  /\ ((r * 10000 < inject_Z v - (1 # 1099511627776))%Q
      <-> Qnum r * 10000 * 1099511627776 < (v * 1099511627776 - 1) * Zpos (Qden r)).
Proof.
  destruct r as [a b]. unfold Qle, Qlt, Qminus, Qplus, Qopp, Qmult, inject_Z.
  cbn [Qnum Qden]. rewrite ?Pos.mul_1_r, ?Pos.mul_1_l.
  rewrite ?Pos2Z.inj_mul. repeat split; intros H; nia.
Qed.

(** C7, amended.  The PIN of a booking is the one its INSERT names, whatever
    text that is.  When the INSERT names none, the PIN is
    [lpad(floor(random() * 10000)::text, 4, '0')] with the product taken in
    double precision: for every draw of [random()] it has four characters,
    all of them decimal digits, and denotes a number between 0 and 9999; the
    number is [v] for every draw [r] with [v <= 10000 r < v + 1 - 2 ^ -40],
    and only for draws with [v - 2 ^ -40 <= 10000 r < v + 1]: intervals of
    the same length for every [v], up to the rounding of the product. *)
Theorem default_pin_four_digits (e : env) (r : BookingInsert.t) (d d' : db) :
  insert_booking e r d = Ok d' ->
  exists b,
    bookings d' = bookings d ++ [b]
    /\ (forall pin, BookingInsert.pin r = Some pin -> Booking.pin b = pin)
    /\ (BookingInsert.pin r = None -> is_float8_unit (random e) = true ->
        Booking.pin b = default_pin (random e)
        /\ String.length (Booking.pin b) = 4%nat
        /\ string_forallb is_decimal_digit (Booking.pin b) = true
        /\ 0 <= decimal_value (Booking.pin b) <= 9999
        /\ (forall v, decimal_value (Booking.pin b) = v ->
                      (inject_Z v - (1 # 1099511627776) <= random e * 10000)%Q
                      /\ (random e * 10000 < inject_Z (v + 1))%Q)
        /\ (forall v, 0 <= v ->
                      (inject_Z v <= random e * 10000)%Q ->
                      (random e * 10000 < inject_Z (v + 1) - (1 # 1099511627776))%Q ->
                      decimal_value (Booking.pin b) = v)).
Proof.
  intros H. apply insert_booking_Ok in H. destruct H as [-> _].
  exists (booking_of_insert e r). split; [reflexivity|]. split.
  - intros pin N. unfold booking_of_insert. now rewrite N.
  - intros N F. unfold booking_of_insert. rewrite N.
    cbn [Booking.pin with_default].
    destruct (default_pin_spec (random e) F) as (Hl & Hd & Hv).
    pose proof (is_float8_unit_spec (random e) F) as (HP & Hp & Hk).
    pose proof (float8_floor_scaled_range _ _ Hp Hk) as Hr.
    split; [reflexivity|]. split; [assumption|]. split; [assumption|].
    split; [rewrite Hv; assumption|]. rewrite Hv. split.
    + intros v E.
      destruct (float8_floor_scaled_preimage _ (Qnum (random e)) v Hp Hk ltac:(lia))
        as [P1 _].
      destruct (P1 E) as [L U].
      destruct (scaled_draw_bounds (random e) v) as (_ & _ & B3 & _).
      destruct (scaled_draw_bounds (random e) (v + 1)) as (_ & B2 & _ & _).
      rewrite B3, B2, HP. auto.
    + intros v Hv0 L U.
      destruct (float8_floor_scaled_preimage _ (Qnum (random e)) v Hp Hk Hv0) as [_ P2].
      destruct (scaled_draw_bounds (random e) v) as (B1 & _ & _ & _).
      destruct (scaled_draw_bounds (random e) (v + 1)) as (_ & _ & _ & B4).
      rewrite B1, HP in L. rewrite B4, HP in U. apply P2; lia.
Qed.

(** C8.  At every point in time every booking has [end_time > start_time]
    and [total_cost > 0]; an INSERT of a row that violates either fails, and
    neither it nor an UPDATE to such a row changes the database. *)
Theorem bookings_have_valid_time_and_cost (d : db) :
  reachable d ->
  Forall (fun b => Booking.end_time b > Booking.start_time b /\ Booking.total_cost b > 0)
         (bookings d)
  /\ (forall e r,
        BookingInsert.end_time r <= BookingInsert.start_time r
        \/ BookingInsert.total_cost r <= 0 ->
        (exists err, insert_booking e r d = Err err)
        /\ step d (e, InsertBooking r) = d)
  /\ (forall e id new,
        Booking.end_time new <= Booking.start_time new \/ Booking.total_cost new <= 0 ->
        step d (e, UpdateBooking id new) = d).
Proof.
  intros R. apply reachable_ok in R. split; [|split].
  - eapply Forall_impl; [|apply (bookings_checked d R)].
    intros b (T & C & _). auto.
  - intros e r Hbad.
    destruct (insert_booking e r d) as [d'|err] eqn:E.
    + exfalso. apply insert_booking_Ok in E. destruct E as (_ & _ & _ & T & C & _).
      cbn in T, C. lia.
    + split; [eauto | now apply step_Err with (err := err)].
  - intros e id new _. apply step_Err with (err := invalid_object_definition "profiles").
    apply update_booking_refused.
Qed.

(** C9, as the specification states it, fails on the empty database: the
    authentication service inserts a user, and without any call from it a
    profile row appears. *)
Lemma sign_up_creates_profile :
  profiles empty_db = []
  /\ insert_auth_user consumer_user empty_db
     = Ok (mkdb [consumer_user] [Profile.mk 2 "una@park.test" "una" role_user]
                [] [] [] [] [] []).
Proof. split; vm_compute; reflexivity. Qed.

(** C9, amended.  The schema reacts to one external insert event: every row
    the authentication service inserts into [auth.users] fires
    [on_auth_user_created], which adds one profile with the id and the email
    of the new user, the name of the metadata or else the part of the email
    before the at sign, and the role of the metadata or else [user].  That is
    its whole reaction: parking spots, vehicles, bookings, payment slips,
    reviews and availability blocks stay as they were. *)
Theorem on_auth_user_created_adds_one_profile (u : User.t) (d d' : db) :
  insert_auth_user u d = Ok d' ->
  exists email role,
    User.email u = Some email
    /\ user_role_of_text
         (with_default "user"%string (UserMetaData.role (User.raw_user_meta_data u)))
       = Ok role
    /\ auth_users d' = auth_users d ++ [u]
    /\ profiles d' =
       profiles d ++
         [Profile.mk (User.id u) email
            (with_default (split_part_1 email "@")
                          (UserMetaData.name (User.raw_user_meta_data u)))
            role]
    /\ parking_spots d' = parking_spots d
    /\ vehicles d' = vehicles d
    /\ bookings d' = bookings d
    /\ payment_slips d' = payment_slips d
    /\ reviews d' = reviews d
    /\ availability_blocks d' = availability_blocks d.
Proof.
  intros H. apply insert_auth_user_Ok in H. destruct H as (email & role & E & Ro & ->).
  exists email, role. cbn. auto 12.
Qed.

(** C10.  At every point in time every parking spot has
    [0 <= available_slots <= total_slots]; whatever statement comes next the
    bound still holds, and an INSERT or UPDATE that would store a row outside
    the bound is refused and changes nothing, be it the UPDATE of one row by
    its id or the UPDATE of all spots of the acting user. *)
Theorem available_slots_within_bounds (d : db) :
  reachable d ->
  Forall (fun s => 0 <= ParkingSpot.available_slots s <= ParkingSpot.total_slots s)
         (parking_spots d)
  /\ (forall c,
        Forall (fun s => 0 <= ParkingSpot.available_slots s <= ParkingSpot.total_slots s)
               (parking_spots (step d c)))
  /\ (forall e s,
        ~ 0 <= ParkingSpot.available_slots s <= ParkingSpot.total_slots s ->
        (exists err, insert_parking_spot e s d = Err err)
        /\ step d (e, InsertParkingSpot s) = d)
  /\ (forall e id s,
        ~ 0 <= ParkingSpot.available_slots s <= ParkingSpot.total_slots s ->
        step d (e, UpdateParkingSpot id s) = d)
  /\ (forall e set s,
        In s (parking_spots d) -> ParkingSpot.owner_id s = auth_uid e ->
        ~ 0 <= ParkingSpot.available_slots (set_parking_spot set s)
             <= ParkingSpot.total_slots (set_parking_spot set s) ->
        (exists err, update_parking_spots e set d = Err err)
        /\ step d (e, UpdateParkingSpots set) = d).
Proof.
  intros R. split; [|split; [|split; [|split]]].
  - apply reachable_ok in R. apply (parking_spots_valid_slots d R).
  - intros c. apply (reachable_step d c) in R. apply reachable_ok in R.
    apply (parking_spots_valid_slots _ R).
  - intros e s Hbad. destruct (insert_parking_spot e s d) as [d'|err] eqn:E.
    + exfalso. apply Hbad. now apply insert_parking_spot_Ok in E.
    + split; [eauto | now apply step_Err with (err := err)].
  - intros e id s _. apply step_Err with (err := invalid_object_definition "profiles").
    apply update_parking_spot_refused.
  - intros e set s Hs Own Hbad.
    destruct (update_parking_spots_out_of_bounds e set d s Hs Own Hbad) as (err & E).
    split; [eauto | now apply step_Err with (err := err)].
Qed.

(** ** The theorems at work on the sample history *)

Lemma insert_booking_decision_witness :
  insert_booking (fst second_call) (snd second_call) db_booked
  = Ok (set_bookings db_booked
          (bookings db_booked ++ [booking_of_insert (fst second_call) (snd second_call)])).
Proof.
  apply (proj1 (insert_booking_decision (fst second_call) (snd second_call) db_booked)).
  repeat split; try (vm_compute; intuition congruence).
Defined.

Lemma reservations_in_sequence_all_succeed_witness :
  bookings (run (map reserve [first_call; second_call]) db_listed)
  = bookings db_listed ++ map reserved [first_call; second_call].
Proof.
  apply (reservations_in_sequence_all_succeed [first_call; second_call] db_listed).
  - constructor; [|constructor; [|constructor]];
      unfold booking_row_accepted; repeat split;
      try (vm_compute; intuition congruence).
  - vm_compute. repeat constructor; simpl; intuition discriminate.
  - vm_compute. repeat constructor; simpl; intuition discriminate.
Defined.

(** The reservation of the sample history is accepted, so it is accepted
    as well when it names the status [active]. *)
Lemma booking_status_follows_no_table_witness :
  insert_booking (fst first_call) (with_status (snd first_call) active) db_listed
  = Ok (set_bookings db_listed (bookings db_listed ++ [sample_booking active])).
Proof.
  apply (proj1 (booking_status_follows_no_table (fst first_call) db_listed)
               (snd first_call) active).
  exists db_booked. vm_compute. reflexivity.
Defined.

Lemma booking_codes_unique_and_hex_witness :
  reachable db_listed
  /\ exists b,
       bookings db_booked = bookings db_listed ++ [b]
       /\ Booking.qr_code b = encode_hex (gen_random_bytes (fst first_call) 16)
       /\ String.length (Booking.qr_code b) = 32%nat
       /\ string_forallb is_hex_digit (Booking.qr_code b) = true
       /\ decode_hex (Booking.qr_code b) = Some (gen_random_bytes (fst first_call) 16).
Proof.
  assert (reachable db_listed) as R by (exists history_listed; vm_compute; reflexivity).
  split; [exact R|].
  apply (proj1 (proj2 (booking_codes_unique_and_hex db_listed R))
               (fst first_call) (snd first_call));
    vm_compute; reflexivity.
Defined.


(** A review of the booking while it is pending fails, as the claim has
    it; and when the booking of consumer 2 is completed and theirs, has no
    review, and five stars are within the range, the review is refused all
    the same. *)
Lemma review_only_for_completed_booking_witness :
  ((exists err, insert_review (sample_env 2 0 x00 0) five_stars db_booked = Err err)
   /\ step db_booked (sample_env 2 0 x00 0, InsertReview five_stars) = db_booked
   /\ reviews (step db_booked (sample_env 2 0 x00 0, InsertReview five_stars))
      = reviews db_booked)
  /\ reachable db_completed
  /\ (exists b, lookup Booking.id (Review.booking_id five_stars) (bookings db_completed)
                = Some b
                /\ Booking.status b = completed
                /\ Booking.user_id b = auth_uid (sample_env 2 0 x00 0))
  /\ ~ In (Review.booking_id five_stars) (map Review.booking_id (reviews db_completed))
  /\ 1 <= Review.rating five_stars <= 5
  /\ insert_review (sample_env 2 0 x00 0) five_stars db_completed
     = Err (invalid_object_definition "profiles").
Proof.
  split.
  { apply (proj1 (review_only_for_completed_booking
                    (sample_env 2 0 x00 0) five_stars db_booked)).
    intros ((b & L & S & _) & _). vm_compute in L. injection L as <-. discriminate S. }
  split; [exists (history_as completed); vm_compute; reflexivity|].
  split; [exists (sample_booking completed); vm_compute; auto|].
  split; [vm_compute; tauto|]. split; [vm_compute; intuition discriminate|].
  exact (proj2 (proj2 (review_only_for_completed_booking
                         (sample_env 2 0 x00 0) five_stars db_completed))).
Defined.

(** The draw 54493555491183 / 2 ^ 52: the product with 10000 is a little
    below 121 and is rounded to 121. *)
Lemma default_pin_four_digits_witness :
  exists b,
    bookings (step db_listed
                   (sample_env 2 100 x2a (54493555491183 # 4503599627370496),
                    InsertBooking (request 2 600 660)))
    = bookings db_listed ++ [b]
    /\ Booking.pin b = "0121"%string
    /\ String.length (Booking.pin b) = 4%nat
    /\ string_forallb is_decimal_digit (Booking.pin b) = true
    /\ 0 <= decimal_value (Booking.pin b) <= 9999
    /\ (inject_Z 121 - (1 # 1099511627776)
        <= (54493555491183 # 4503599627370496) * 10000)%Q
    /\ ((54493555491183 # 4503599627370496) * 10000 < inject_Z (121 + 1))%Q.
Proof.
  destruct (default_pin_four_digits
              (sample_env 2 100 x2a (54493555491183 # 4503599627370496))
              (request 2 600 660) db_listed
              (step db_listed
                    (sample_env 2 100 x2a (54493555491183 # 4503599627370496),
                     InsertBooking (request 2 600 660))))
    as (b & Hb & _ & H); [vm_compute; reflexivity|].
  destruct (H eq_refl eq_refl) as (P & L & D & V & I & _).
  exists b. split; [exact Hb|]. split; [rewrite P; vm_compute; reflexivity|].
  split; [exact L|]. split; [exact D|]. split; [exact V|].
  apply I. rewrite P. vm_compute. reflexivity.
Defined.

Lemma bookings_have_valid_time_and_cost_witness :
  reachable db_booked
  /\ Forall (fun b => Booking.end_time b > Booking.start_time b /\ Booking.total_cost b > 0)
            (bookings db_booked).
Proof.
  assert (reachable db_booked) as R by (exists history_booked; vm_compute; reflexivity).
  split; [exact R|].
  exact (proj1 (bookings_have_valid_time_and_cost db_booked R)).
Defined.

Lemma on_auth_user_created_adds_one_profile_witness :
  exists email role,
    User.email consumer_user = Some email
    /\ user_role_of_text
         (with_default "user"%string
            (UserMetaData.role (User.raw_user_meta_data consumer_user)))
       = Ok role
    /\ auth_users (step empty_db (sample_env 0 0 x00 0, InsertAuthUser consumer_user))
       = auth_users empty_db ++ [consumer_user]
    /\ profiles (step empty_db (sample_env 0 0 x00 0, InsertAuthUser consumer_user)) =
       profiles empty_db ++
         [Profile.mk (User.id consumer_user) email
            (with_default (split_part_1 email "@")
               (UserMetaData.name (User.raw_user_meta_data consumer_user)))
            role]
    /\ parking_spots (step empty_db (sample_env 0 0 x00 0, InsertAuthUser consumer_user))
       = parking_spots empty_db
    /\ vehicles (step empty_db (sample_env 0 0 x00 0, InsertAuthUser consumer_user))
       = vehicles empty_db
    /\ bookings (step empty_db (sample_env 0 0 x00 0, InsertAuthUser consumer_user))
       = bookings empty_db
    /\ payment_slips (step empty_db (sample_env 0 0 x00 0, InsertAuthUser consumer_user))
       = payment_slips empty_db
    /\ reviews (step empty_db (sample_env 0 0 x00 0, InsertAuthUser consumer_user))
       = reviews empty_db
    /\ availability_blocks (step empty_db (sample_env 0 0 x00 0, InsertAuthUser consumer_user))
       = availability_blocks empty_db.
Proof.
  apply (on_auth_user_created_adds_one_profile consumer_user empty_db).
  vm_compute. reflexivity.
Defined.

(** The owner cannot set the available slots of the listed spot to two. *)
Lemma available_slots_within_bounds_witness :
  reachable db_listed
  /\ Forall (fun s => 0 <= ParkingSpot.available_slots s <= ParkingSpot.total_slots s)
            (parking_spots db_listed)
  /\ (exists err,
        update_parking_spots (sample_env 1 0 x00 0)
          (ParkingSpotSet.mk None None None (Some 2) None None None None) db_listed = Err err).
Proof.
  assert (reachable db_listed) as R by (exists history_listed; vm_compute; reflexivity).
  destruct (available_slots_within_bounds db_listed R) as (A & _ & _ & _ & U).
  split; [exact R|]. split; [exact A|].
  apply (U (sample_env 1 0 x00 0) (ParkingSpotSet.mk None None None (Some 2) None None None None)
           one_slot_spot).
  - vm_compute. left. reflexivity.
  - reflexivity.
  - vm_compute. intros [_ H]. apply H. reflexivity.
Defined.

(** ** Further runs of the sample history *)

(** Scenario 5 of the specification: the review with five stars for the
    completed booking is refused, whoever sends it. *)
Example review_refused :
  insert_review (sample_env 2 0 x00 0) five_stars db_completed
  = Err (invalid_object_definition "profiles")
  /\ insert_review (sample_env 1 0 x00 0) five_stars db_completed
     = Err (invalid_object_definition "profiles").
Proof. split; vm_compute; reflexivity. Qed.

(** Neither the consumer nor the owner of the spot can cancel the pending
    booking. *)
Example nobody_can_cancel :
  update_booking (sample_env 2 0 x00 0) 100 (sample_booking cancelled) db_booked
  = Err (invalid_object_definition "profiles")
  /\ update_booking (sample_env 1 0 x00 0) 100 (sample_booking cancelled) db_booked
     = Err (invalid_object_definition "profiles").
Proof. split; vm_compute; reflexivity. Qed.

(** A spot with more available than total slots is refused. *)
Example spot_out_of_bounds_refused :
  insert_parking_spot (sample_env 1 0 x00 0)
    (ParkingSpot.mk 11 1 1375000000 10050000000 2 3 5000 (text_array []) true 0) db_listed
  = Err (check_violation "valid_slots").
Proof. vm_compute. reflexivity. Qed.

(** A row that violates two CHECK constraints is refused for the one whose
    name comes first. *)
Example checks_in_name_order :
  insert_parking_spot (sample_env 1 0 x00 0)
    (ParkingSpot.mk 11 1 1375000000 10050000000 2 3 0 (text_array []) true 0) db_listed
  = Err (check_violation "valid_price").
Proof. vm_compute. reflexivity. Qed.

(** A latitude of 100 degrees does not fit [decimal(10,8)]. *)
Example latitude_out_of_range :
  insert_parking_spot (sample_env 1 0 x00 0)
    (ParkingSpot.mk 11 1 10000000000 10050000000 2 2 5000 (text_array []) true 0) db_listed
  = Err (numeric_value_out_of_range "latitude").
Proof. vm_compute. reflexivity. Qed.

(** A sign-up whose metadata names an unknown role is aborted by the
    trigger. *)
Example sign_up_unknown_role :
  insert_auth_user
    (User.mk 4 (Some "x@park.test"%string) (UserMetaData.mk None (Some "guest"%string)))
    db_listed
  = Err (invalid_text_representation "user_role").
Proof. vm_compute. reflexivity. Qed.

Example default_pin_42 : default_pin (69 # 16384) = "0042"%string.
Proof. vm_compute. reflexivity. Qed.

(** The product is rounded before the floor is taken. *)
Example default_pin_rounded_up :
  default_pin (54493555491183 # 4503599627370496) = "0121"%string
  /\ Qfloor ((54493555491183 # 4503599627370496) * 10000) = 120.
Proof. split; vm_compute; reflexivity. Qed.

Example lpad_cuts : lpad "12345" 4 "0" = "1234"%string.
Proof. reflexivity. Qed.

Example encode_hex_sample : encode_hex [x00; x0f; xa5; xff] = "000fa5ff"%string.
Proof. reflexivity. Qed.

Example generate_booking_code_sample :
  generate_booking_code "20250619" "3f2a9c1e-7b64-4d2a-9a51-0c1d2e3f4a5b"
  = "PB20250619-3F2A9C1E"%string.
Proof. reflexivity. Qed.

(** The largest double below 1 gives 9999, also after rounding. *)
Example float8_floor_largest : float8_floor_scaled 53 (2 ^ 53 - 1) = 9999.
Proof. vm_compute. reflexivity. Qed.

Example float8_floor_half : float8_floor_scaled 1 1 = 5000.
Proof. vm_compute. reflexivity. Qed.

(** * Further properties of the schema

    The statements of a client that go through are those whose policies hold
    no sub-select and that read no column of a table whose SELECT policies
    hold one: the INSERT into [parking_spots] and into [bookings], the UPDATE
    of [profiles] and the UPDATE and DELETE of [parking_spots] without a
    WHERE clause, and the statements on [vehicles]; the statements on
    [auth.users] are those of the authentication service, which no policy
    restricts. *)

(** ** Foreign keys that hold *)

Section References.
Context {R T : Type} (f : R -> Z) (k : T -> Z).

Lemma refers_app_target (rows : list R) (targets more : list T) :
  refers f rows k targets -> refers f rows k (targets ++ more).
Proof.
  unfold refers. intros H. eapply Forall_impl; [|exact H].
  intros r Hr. cbn beta in *. rewrite has_key_app, Hr. reflexivity.
Qed.

Lemma refers_snoc (rows : list R) (targets : list T) (r : R) :
  refers f rows k targets -> has_key k (f r) targets = true ->
  refers f (rows ++ [r]) k targets.
Proof. unfold refers. intros. now apply Forall_snoc. Qed.

Lemma refers_filter (p : R -> bool) (rows : list R) (targets : list T) :
  refers f rows k targets -> refers f (filter p rows) k targets.
Proof. unfold refers. apply Forall_filter. Qed.

Lemma refers_map_source (g : R -> R) (rows : list R) (targets : list T) :
  (forall r, f (g r) = f r) -> refers f rows k targets -> refers f (map g rows) k targets.
Proof.
  unfold refers. intros E H. apply Forall_map. eapply Forall_impl; [|exact H].
  intros r Hr. cbn beta. now rewrite E.
Qed.

Lemma has_key_map (g : T -> T) (x : Z) (targets : list T) :
  (forall t, k (g t) = k t) -> has_key k x (map g targets) = has_key k x targets.
Proof.
  intros E. unfold has_key. induction targets as [|t l IH]; [reflexivity|].
  simpl. now rewrite E, IH.
Qed.

Lemma refers_map_target (g : T -> T) (rows : list R) (targets : list T) :
  (forall t, k (g t) = k t) -> refers f rows k targets -> refers f rows k (map g targets).
Proof.
  unfold refers. intros E H. eapply Forall_impl; [|exact H].
  intros r Hr. cbn beta. now rewrite has_key_map.
Qed.

(** Deleting the target rows that satisfy [p] together with the rows that
    refer to them. *)
Lemma refers_cascade (p q : T -> bool) (rows : list R) (targets : list T) :
  (forall t, q t = negb (p t)) ->
  refers f rows k targets ->
  refers f (filter (fun r => negb (existsb (Z.eqb (f r)) (map k (filter p targets)))) rows)
         k (filter q targets).
Proof.
  unfold refers. intros Q H. rewrite Forall_forall in *. intros r Hr.
  apply filter_In in Hr. destruct Hr as [Hr G]. apply negb_true_iff in G.
  specialize (H r Hr). apply has_key_In, in_map_iff in H. destruct H as (t & Ht & Hin).
  apply has_key_In, in_map_iff. exists t. split; [assumption|].
  apply filter_In. split; [assumption|]. rewrite Q.
  destruct (p t) eqn:P; [|reflexivity]. exfalso.
  assert (existsb (Z.eqb (f r)) (map k (filter p targets)) = true) as C; [|congruence].
  apply existsb_exists. exists (f r). split; [|apply Z.eqb_refl].
  rewrite <- Ht. apply in_map, filter_In. auto.
Qed.

(** The same when the rows that stay are chosen by a stronger condition. *)
Lemma refers_cascade_if (p q : T -> bool) (c : R -> bool) (rows : list R)
    (targets : list T) :
  (forall t, q t = negb (p t)) ->
  (forall r, c r = true -> existsb (Z.eqb (f r)) (map k (filter p targets)) = false) ->
  refers f rows k targets ->
  refers f (filter c rows) k (filter q targets).
Proof.
  unfold refers. intros Q C H. rewrite Forall_forall in *. intros r Hr.
  apply filter_In in Hr. destruct Hr as [Hr G]. apply C in G.
  specialize (H r Hr). apply has_key_In, in_map_iff in H. destruct H as (t & Ht & Hin).
  apply has_key_In, in_map_iff. exists t. split; [assumption|].
  apply filter_In. split; [assumption|]. rewrite Q.
  destruct (p t) eqn:P; [|reflexivity]. exfalso.
  assert (existsb (Z.eqb (f r)) (map k (filter p targets)) = true) as E; [|congruence].
  apply existsb_exists. exists (f r). split; [|apply Z.eqb_refl].
  rewrite <- Ht. apply in_map, filter_In. auto.
Qed.

(** Rows that do not refer to [id] do not miss the target [id]. *)
Lemma refers_drop_target (c : R -> bool) (rows : list R) (targets : list T) (id : Z) :
  (forall r, In r rows -> c r = true -> f r <> id) ->
  refers f rows k targets -> refers f (filter c rows) k (without k id targets).
Proof.
  unfold refers. intros C H. rewrite Forall_forall in *. intros r Hr.
  apply filter_In in Hr. destruct Hr as [Hr G].
  rewrite has_key_without_other by (now apply C). now apply H.
Qed.

Lemma refers_without (rows : list R) (targets : list T) (id : Z) :
  refers f rows k targets -> refers f (without f id rows) k (without k id targets).
Proof.
  unfold refers. intros H. rewrite Forall_forall in *. intros r Hr.
  apply In_without in Hr. destruct Hr as [Hr Hne].
  rewrite has_key_without_other by assumption. now apply H.
Qed.

(** A target that is replaced by a row with the same key. *)
Lemma has_key_replace (x id : Z) (targets : list T) (old new : T) :
  lookup k id targets = Some old -> k new = id ->
  has_key k x (without k id targets ++ [new]) = has_key k x targets.
Proof.
  intros L E. rewrite has_key_app. simpl. rewrite orb_false_r, E.
  destruct (Z.eqb_spec id x) as [<-|Hne].
  - rewrite orb_true_r. symmetry. apply has_key_In.
    apply lookup_In in L. destruct L as [L <-]. now apply in_map.
  - rewrite orb_false_r. apply has_key_without_other. congruence.
Qed.

Lemma refers_replace (rows : list R) (id : Z) (targets : list T) (old new : T) :
  lookup k id targets = Some old -> k new = id ->
  refers f rows k targets -> refers f rows k (without k id targets ++ [new]).
Proof.
  unfold refers. intros L E H. eapply Forall_impl; [|exact H].
  intros r Hr. cbn beta. now rewrite (has_key_replace _ _ _ old).
Qed.
End References.

Section NullableReferences.
Context {R T : Type} (f : R -> option Z) (k : T -> Z).

Lemma may_refer_app_target (rows : list R) (targets more : list T) :
  may_refer f rows k targets -> may_refer f rows k (targets ++ more).
Proof.
  unfold may_refer. intros H. eapply Forall_impl; [|exact H].
  intros r Hr. now apply references_app.
Qed.

Lemma may_refer_snoc (rows : list R) (targets : list T) (r : R) :
  may_refer f rows k targets -> references k (f r) targets = true ->
  may_refer f (rows ++ [r]) k targets.
Proof. unfold may_refer. intros. now apply Forall_snoc. Qed.

Lemma may_refer_filter (p : R -> bool) (rows : list R) (targets : list T) :
  may_refer f rows k targets -> may_refer f (filter p rows) k targets.
Proof. unfold may_refer. apply Forall_filter. Qed.

Lemma may_refer_replace (rows : list R) (id : Z) (targets : list T) (old new : T) :
  lookup k id targets = Some old -> k new = id ->
  may_refer f rows k targets -> may_refer f rows k (without k id targets ++ [new]).
Proof.
  unfold may_refer. intros L E H. eapply Forall_impl; [|exact H].
  intros r Hr. cbn beta in Hr |- *. destruct (f r) as [v|]; [|reflexivity].
  cbn [references] in *. now rewrite (has_key_replace k v id targets old new L E).
Qed.
End NullableReferences.

#[local] Hint Resolve refers_app_target refers_snoc refers_filter refers_without
  may_refer_app_target may_refer_snoc may_refer_filter : schema.

(** ** What the remaining checks establish *)

Lemma plate_fresh (others : list Vehicle.t) (v : Vehicle.t) :
  existsb (fun w => (Vehicle.user_id w =? Vehicle.user_id v)
                    && String.eqb (Vehicle.license_plate w) (Vehicle.license_plate v))
          others = false ->
  ~ In (plate_key v) (map plate_key others).
Proof.
  intros H Hin. apply in_map_iff in Hin. destruct Hin as (w & E & Hw).
  assert (existsb (fun w => (Vehicle.user_id w =? Vehicle.user_id v)
                            && String.eqb (Vehicle.license_plate w) (Vehicle.license_plate v))
                  others = true) as C; [|congruence].
  apply existsb_exists. exists w. split; [assumption|].
  unfold plate_key in E. injection E as E1 E2.
  rewrite E1, E2, Z.eqb_refl, String.eqb_refl. reflexivity.
Qed.

Lemma check_vehicle_plate (others : list Vehicle.t) (d : db) (v : Vehicle.t) (u : unit) :
  check_vehicle others d v = Ok u -> ~ In (plate_key v) (map plate_key others).
Proof.
  unfold check_vehicle. intros H. peel H.
  apply plate_fresh. now apply negb_true_iff.
Qed.

Lemma spot_checks_of (s : ParkingSpot.t) :
  text_array_ok (ParkingSpot.images s) = true ->
  valid_price s = true -> valid_images s = true -> spot_checks s.
Proof.
  unfold valid_price, valid_images, spot_checks. intros A P I.
  split; [lia|]. split; [assumption|]. intros n E. rewrite E in I. lia.
Qed.

Lemma parking_spot_types_array (s : ParkingSpot.t) (u : unit) :
  parking_spot_types s = Ok u -> text_array_ok (ParkingSpot.images s) = true.
Proof. unfold parking_spot_types. intros H. peel H. reflexivity. Qed.

(** ** Every statement keeps the foreign keys, the keys and the checks *)

#[local] Hint Resolve spot_checks_of valid_slots_bounds : schema.

Lemma has_key_last {A} (key : A -> Z) (rows : list A) (x : A) :
  has_key key (key x) (rows ++ [x]) = true.
Proof. rewrite has_key_app. simpl. rewrite Z.eqb_refl. apply orb_true_r. Qed.

Lemma has_key_before {A} (key : A -> Z) (k : Z) (rows more : list A) :
  has_key key k rows = true -> has_key key k (rows ++ more) = true.
Proof. intros H. now rewrite has_key_app, H. Qed.

#[local] Hint Resolve has_key_last has_key_before : schema.

Lemma refers_without_source {R T} (f g : R -> Z) (k : T -> Z) (id : Z)
    (rows : list R) (targets : list T) :
  refers f rows k targets -> refers f (without g id rows) k targets.
Proof. apply refers_filter. Qed.

Lemma may_refer_without_source {R T} (f : R -> option Z) (g : R -> Z) (k : T -> Z) (id : Z)
    (rows : list R) (targets : list T) :
  may_refer f rows k targets -> may_refer f (without g id rows) k targets.
Proof. apply may_refer_filter. Qed.

Lemma Forall_without {A} (P : A -> Prop) (g : A -> Z) (id : Z) (rows : list A) :
  Forall P rows -> Forall P (without g id rows).
Proof. apply Forall_filter. Qed.

Lemma NoDup_map_without {A K} (f : A -> K) (g : A -> Z) (id : Z) (rows : list A) :
  NoDup (map f rows) -> NoDup (map f (without g id rows)).
Proof. apply NoDup_map_filter. Qed.

#[local] Hint Resolve refers_without_source may_refer_without_source Forall_without
  NoDup_map_without : schema.

Lemma empty_db_sound : db_sound empty_db.
Proof. split; simpl; constructor. Qed.

Lemma insert_auth_user_sound (u : User.t) (d d' : db) :
  db_sound d -> insert_auth_user u d = Ok d' -> db_sound d'.
Proof.
  intros [] H. unfold insert_auth_user, handle_new_user in H. peel H.
  destruct (User.email u) as [email|]; [|discriminate]. peel H. checked.
  injection H as <-. split; simpl; auto 6 with schema.
  - apply refers_snoc; auto with schema.
    now apply (has_key_last User.id).
  - apply refers_snoc; auto with schema.
    now apply (has_key_last Profile.id _ (Profile.mk _ _ _ _)).
Qed.

Lemma update_profiles_sound (e : env) (set : ProfileSet.t) (d d' : db) :
  db_sound d -> update_profiles e set d = Ok d' -> db_sound d'.
Proof.
  intros Hd H. unfold update_profiles in H. peel H.
  destruct (lookup Profile.id (auth_uid e) (profiles d)) as [old|] eqn:L;
    [|injection H as <-; assumption].
  peel H. checked. injection H as <-.
  assert (Profile.id (set_profile set old) = auth_uid e) as E
    by (apply lookup_In in L; now destruct L).
  assert (has_key Profile.id (Profile.id (set_profile set old))
                  (without Profile.id (auth_uid e) (profiles d)) = false) as F
    by (rewrite E; apply has_key_without).
  assert (has_key User.id (Profile.id (set_profile set old)) (auth_users d) = true) as U.
  { apply lookup_In in L. destruct L as [L K]. cbn [set_profile Profile.id].
    pose proof (profiles_id_fkey d Hd) as P. unfold refers in P.
    rewrite Forall_forall in P. now apply P. }
  destruct Hd. split; simpl; eauto using refers_replace, may_refer_replace with schema.
Qed.

Lemma insert_parking_spot_sound (e : env) (s : ParkingSpot.t) (d d' : db) :
  db_sound d -> insert_parking_spot e s d = Ok d' -> db_sound d'.
Proof.
  intros [] H. unfold insert_parking_spot in H. peel H.
  match goal with G : parking_spot_types _ = Ok _ |- _ =>
    apply parking_spot_types_array in G end.
  checked. injection H as <-. split; simpl; auto 6 with schema.
Qed.

Lemma set_parking_spot_id (set : ParkingSpotSet.t) (e : env) (s : ParkingSpot.t) :
  ParkingSpot.id (if owners_can_manage_their_spots e s then set_parking_spot set s else s)
  = ParkingSpot.id s.
Proof. destruct (owners_can_manage_their_spots e s); reflexivity. Qed.

Lemma set_parking_spot_owner (set : ParkingSpotSet.t) (e : env) (s : ParkingSpot.t) :
  ParkingSpot.owner_id
    (if owners_can_manage_their_spots e s then set_parking_spot set s else s)
  = ParkingSpot.owner_id s.
Proof. destruct (owners_can_manage_their_spots e s); reflexivity. Qed.

Lemma parking_spot_set_types_array (set : ParkingSpotSet.t) (u : unit) (s : ParkingSpot.t) :
  parking_spot_set_types set = Ok u ->
  text_array_ok (ParkingSpot.images s) = true ->
  text_array_ok (ParkingSpot.images (set_parking_spot set s)) = true.
Proof.
  unfold parking_spot_set_types. intros H A. peel H. cbn [set_parking_spot ParkingSpot.images].
  destruct (ParkingSpotSet.images set); assumption.
Qed.

Lemma update_parking_spots_sound (e : env) (set : ParkingSpotSet.t) (d d' : db) :
  db_sound d -> update_parking_spots e set d = Ok d' -> db_sound d'.
Proof.
  intros Hd H. unfold update_parking_spots in H. peel H. injection H as <-.
  match goal with G : every_row _ _ = Ok _ |- _ => apply every_row_Ok in G; rename G into C end.
  pose proof (parking_spots_checked d Hd) as K.
  destruct Hd. split; simpl; auto 6 with schema.
  - rewrite map_map. erewrite map_ext; [eassumption|]. apply set_parking_spot_id.
  - apply refers_map_source; [apply set_parking_spot_owner | assumption].
  - apply refers_map_target; [apply set_parking_spot_id | assumption].
  - apply refers_map_target; [apply set_parking_spot_id | assumption].
  - apply refers_map_target; [apply set_parking_spot_id | assumption].
  - rewrite Forall_forall in *. intros x Hx. apply in_map_iff in Hx.
    destruct Hx as (s & <- & Hin).
    destruct (owners_can_manage_their_spots e s) eqn:Own; [|now apply K].
    assert (parking_spot_checks (set_parking_spot set s) = Ok tt) as Q
      by (apply C, in_map, filter_In; auto).
    apply parking_spot_checks_Ok in Q. destruct Q as (I & P & _).
    apply spot_checks_of; try assumption.
    eapply parking_spot_set_types_array; [eassumption|]. now apply (K s Hin).
Qed.

Lemma delete_parking_spots_sound (e : env) (d d' : db) :
  db_sound d -> delete_parking_spots e d = Ok d' -> db_sound d'.
Proof.
  intros Hd H. unfold delete_parking_spots in H. peel H. injection H as <-.
  destruct Hd. split; simpl; auto 6 with schema.
  - apply (refers_cascade Booking.spot_id ParkingSpot.id
             (owners_can_manage_their_spots e)); [reflexivity | assumption].
  - apply (refers_cascade PaymentSlip.booking_id Booking.id
             (fun b => existsb (Z.eqb (Booking.spot_id b))
                         (map ParkingSpot.id
                            (filter (owners_can_manage_their_spots e) (parking_spots d)))));
      [reflexivity | assumption].
  - apply (refers_cascade_if Review.booking_id Booking.id
             (fun b => existsb (Z.eqb (Booking.spot_id b))
                         (map ParkingSpot.id
                            (filter (owners_can_manage_their_spots e) (parking_spots d)))));
      [reflexivity | | assumption].
    intros r K. apply andb_prop in K. destruct K as [K _]. now apply negb_true_iff.
  - apply (refers_cascade_if Review.spot_id ParkingSpot.id
             (owners_can_manage_their_spots e)); [reflexivity | | assumption].
    intros r K. apply andb_prop in K. destruct K as [_ K]. now apply negb_true_iff.
  - apply (refers_cascade AvailabilityBlock.spot_id ParkingSpot.id
             (owners_can_manage_their_spots e)); [reflexivity | assumption].
Qed.

Lemma insert_vehicle_sound (e : env) (v : Vehicle.t) (d d' : db) :
  db_sound d -> insert_vehicle e v d = Ok d' -> db_sound d'.
Proof.
  intros [] H. unfold insert_vehicle in H. peel H.
  match goal with G : check_vehicle _ _ _ = Ok _ |- _ =>
    pose proof (check_vehicle_plate _ _ _ _ G) end.
  checked. injection H as <-. split; simpl; auto 6 with schema.
Qed.

Lemma update_vehicle_sound (e : env) (id : uuid) (new : Vehicle.t) (d d' : db) :
  db_sound d -> update_vehicle e id new d = Ok d' -> db_sound d'.
Proof.
  intros Hd H. unfold update_vehicle in H. peel H.
  destruct (lookup Vehicle.id id (vehicles d)) as [old|];
    [|injection H as <-; assumption].
  destruct (negb (users_can_manage_their_vehicles e old));
    [injection H as <-; assumption|].
  peel H.
  match goal with G : check_vehicle _ _ _ = Ok _ |- _ =>
    pose proof (check_vehicle_plate _ _ _ _ G) end.
  checked. injection H as <-.
  destruct Hd. split; simpl; auto 6 with schema.
Qed.

Lemma forget_vehicles_spots (gone : list uuid) (b : Booking.t) :
  Booking.spot_id (forget_vehicles gone b) = Booking.spot_id b.
Proof.
  unfold forget_vehicles.
  destruct (Booking.vehicle_id b) as [v|]; [destruct (existsb (Z.eqb v) gone)|]; reflexivity.
Qed.

Lemma forget_vehicles_id (gone : list uuid) (b : Booking.t) :
  Booking.id (forget_vehicles gone b) = Booking.id b.
Proof.
  unfold forget_vehicles.
  destruct (Booking.vehicle_id b) as [v|]; [destruct (existsb (Z.eqb v) gone)|]; reflexivity.
Qed.

#[local] Hint Resolve refers_map_source refers_map_target forget_vehicles_spots
  forget_vehicles_id : schema.

Lemma delete_vehicle_sound (e : env) (id : uuid) (d d' : db) :
  db_sound d -> delete_vehicle e id d = Ok d' -> db_sound d'.
Proof.
  intros Hd H. unfold delete_vehicle in H. peel H.
  destruct (lookup Vehicle.id id (vehicles d)) as [old|];
    [|injection H as <-; assumption].
  destruct (negb (users_can_manage_their_vehicles e old));
    injection H as <-; [assumption|].
  destruct Hd. split; simpl; auto 6 with schema.
Qed.

Lemma insert_booking_sound (e : env) (r : BookingInsert.t) (d d' : db) :
  db_sound d -> insert_booking e r d = Ok d' -> db_sound d'.
Proof.
  intros [] H. unfold insert_booking in H. peel H. checked.
  injection H as <-. split; simpl; auto 6 with schema.
Qed.

Lemma delete_auth_user_sound (id : uuid) (d d' : db) :
  db_sound d -> delete_auth_user id d = Ok d' -> db_sound d'.
Proof.
  intros Hd H. unfold delete_auth_user in H.
  destruct (lookup User.id id (auth_users d)); [|injection H as <-; assumption].
  peel H. checked. injection H as <-.
  pose proof Hd as [].
  split; simpl; try rewrite forget_vehicles_ids; auto 6 with schema.
  - apply refers_map_source; [apply forget_vehicles_spots|].
    apply (refers_cascade_if Booking.spot_id ParkingSpot.id
             (fun s => ParkingSpot.owner_id s =? id)); [reflexivity | | assumption].
    intros b K. apply andb_prop in K. destruct K as [_ K]. now apply negb_true_iff.
  - apply refers_map_target; [apply forget_vehicles_id|].
    apply (refers_cascade_if PaymentSlip.booking_id Booking.id
             (fun b => negb (negb (Booking.user_id b =? id)
                             && negb (existsb (Z.eqb (Booking.spot_id b))
                                        (map ParkingSpot.id
                                           (filter (fun s => ParkingSpot.owner_id s =? id)
                                                   (parking_spots d)))))));
      [intros b; now rewrite negb_involutive | | assumption].
    intros x K. now apply negb_true_iff.
  - unfold may_refer. rewrite Forall_forall. intros x Hx.
    destruct (PaymentSlip.verified_by x) as [v|] eqn:Ev; [|reflexivity].
    cbn [references].
    assert (v <> id) as Hne.
    { intros ->.
      match goal with V : existsb ?test ?l = false |- _ =>
        assert (existsb test l = true) as C; [|congruence] end.
      apply existsb_exists. exists x. split; [exact Hx|]. rewrite Ev. apply Z.eqb_refl. }
    rewrite has_key_without_other by assumption.
    apply filter_In in Hx. destruct Hx as [Hx _].
    pose proof (payment_slips_verified_by_fkey d Hd) as F.
    unfold may_refer in F. rewrite Forall_forall in F.
    specialize (F x Hx). rewrite Ev in F. exact F.
  - apply refers_map_target; [apply forget_vehicles_id|].
    apply (refers_cascade_if Review.booking_id Booking.id
             (fun b => negb (negb (Booking.user_id b =? id)
                             && negb (existsb (Z.eqb (Booking.spot_id b))
                                        (map ParkingSpot.id
                                           (filter (fun s => ParkingSpot.owner_id s =? id)
                                                   (parking_spots d)))))));
      [intros b; now rewrite negb_involutive | | assumption].
    intros x K. apply andb_prop in K. destruct K as [K _].
    apply andb_prop in K. destruct K as [K _]. now apply negb_true_iff.
  - apply refers_drop_target; [|assumption].
    intros x _ K. apply andb_prop in K. destruct K as [K _].
    apply andb_prop in K. destruct K as [_ K]. now apply negb_true_iff, Z.eqb_neq in K.
  - apply (refers_cascade_if Review.spot_id ParkingSpot.id
             (fun s => ParkingSpot.owner_id s =? id)); [reflexivity | | assumption].
    intros x K. apply andb_prop in K. destruct K as [_ K]. now apply negb_true_iff.
  - apply (refers_cascade_if AvailabilityBlock.spot_id ParkingSpot.id
             (fun s => ParkingSpot.owner_id s =? id)); [reflexivity | | assumption].
    intros x K. now apply negb_true_iff.
  - unfold refers. rewrite Forall_forall. intros x Hx.
    assert (AvailabilityBlock.created_by x <> id) as Hne.
    { intros E.
      match goal with V : has_key AvailabilityBlock.created_by id ?l = false |- _ =>
        apply has_key_false in V; apply V end.
      apply in_map_iff. exists x. split; [exact E | exact Hx]. }
    rewrite has_key_without_other by assumption.
    apply filter_In in Hx. destruct Hx as [Hx _].
    pose proof (availability_blocks_created_by_fkey d Hd) as F.
    unfold refers in F. rewrite Forall_forall in F. now apply F.
Qed.

Lemma exec_sound (e : env) (s : statement) (d d' : db) :
  db_sound d -> exec e s d = Ok d' -> db_sound d'.
Proof.
  intros Hd. destruct s; simpl; intros H; try refused_in H.
  - exact (insert_auth_user_sound _ _ _ Hd H).
  - exact (delete_auth_user_sound _ _ _ Hd H).
  - exact (update_profiles_sound _ _ _ _ Hd H).
  - exact (insert_parking_spot_sound _ _ _ _ Hd H).
  - exact (update_parking_spots_sound _ _ _ _ Hd H).
  - exact (delete_parking_spots_sound _ _ _ Hd H).
  - exact (insert_vehicle_sound _ _ _ _ Hd H).
  - exact (update_vehicle_sound _ _ _ _ _ Hd H).
  - exact (delete_vehicle_sound _ _ _ _ Hd H).
  - exact (insert_booking_sound _ _ _ _ Hd H).
Qed.

Lemma step_sound (d : db) (c : env * statement) : db_sound d -> db_sound (step d c).
Proof.
  intros Hd. unfold step. destruct (exec (fst c) (snd c) d) eqn:E; [|assumption].
  eapply exec_sound; eassumption.
Qed.

Lemma run_sound (history : list (env * statement)) (d : db) :
  db_sound d -> db_sound (run history d).
Proof.
  revert d. induction history as [|c history IH]; simpl; intros d Hd; [assumption|].
  apply IH. now apply step_sound.
Qed.

Lemma reachable_sound (d : db) : reachable d -> db_sound d.
Proof. intros (history & <-). apply run_sound, empty_db_sound. Qed.

(** ** Referential integrity *)

Lemma refers_In {R T} (f : R -> Z) (rows : list R) (k : T -> Z) (targets : list T) (r : R) :
  refers f rows k targets -> In r rows -> In (f r) (map k targets).
Proof.
  unfold refers. rewrite Forall_forall. intros H Hr. apply has_key_In. now apply H.
Qed.

Lemma may_refer_In {R T} (f : R -> option Z) (rows : list R) (k : T -> Z)
    (targets : list T) (r : R) (v : Z) :
  may_refer f rows k targets -> In r rows -> f r = Some v -> In v (map k targets).
Proof.
  unfold may_refer. rewrite Forall_forall. intros H Hr E.
  specialize (H r Hr). rewrite E in H. now apply has_key_In.
Qed.

(** X1.  At every point in time every foreign key of the schema holds: no
    profile without its user, no spot, vehicle, booking or review without the
    profile it names, no booking, review or availability block without its
    spot, no payment slip or review without its booking, and a vehicle or a
    verifier that is named exists. *)
Theorem no_dangling_reference (d : db) :
  reachable d ->
  (forall p, In p (profiles d) -> In (Profile.id p) (map User.id (auth_users d)))
  /\ (forall s, In s (parking_spots d) ->
                In (ParkingSpot.owner_id s) (map Profile.id (profiles d)))
  /\ (forall v, In v (vehicles d) -> In (Vehicle.user_id v) (map Profile.id (profiles d)))
  /\ (forall b, In b (bookings d) ->
                In (Booking.user_id b) (map Profile.id (profiles d))
                /\ In (Booking.spot_id b) (map ParkingSpot.id (parking_spots d))
                /\ forall v, Booking.vehicle_id b = Some v ->
                             In v (map Vehicle.id (vehicles d)))
  /\ (forall s, In s (payment_slips d) ->
                In (PaymentSlip.booking_id s) (map Booking.id (bookings d))
                /\ forall v, PaymentSlip.verified_by s = Some v ->
                             In v (map Profile.id (profiles d)))
  /\ (forall r, In r (reviews d) ->
                In (Review.booking_id r) (map Booking.id (bookings d))
                /\ In (Review.user_id r) (map Profile.id (profiles d))
                /\ In (Review.spot_id r) (map ParkingSpot.id (parking_spots d)))
  /\ (forall a, In a (availability_blocks d) ->
                In (AvailabilityBlock.spot_id a) (map ParkingSpot.id (parking_spots d))
                /\ In (AvailabilityBlock.created_by a) (map Profile.id (profiles d))).
Proof.
  intros R. pose proof (reachable_sound d R) as S. pose proof (reachable_ok d R) as K.
  destruct S, K. repeat split; intros; eauto using refers_In, may_refer_In.
Qed.

(** ** Users and profiles *)

Lemma key_count_at_least_one {A} (key : A -> Z) (k : Z) (rows : list A) :
  has_key key k rows = true ->
  (1 <= List.length (filter (fun r => (key r =? k)%Z) rows))%nat.
Proof.
  unfold has_key. induction rows as [|r rows IH]; simpl; [discriminate|].
  destruct (key r =? k); simpl; [lia | exact IH].
Qed.

(** X2.  At every point in time every user of [auth.users] has exactly one
    profile, and no two profiles have the same email. *)
Theorem every_user_has_one_profile (d : db) :
  reachable d ->
  (forall u, In u (auth_users d) ->
             List.length (filter (fun p => (Profile.id p =? User.id u)%Z) (profiles d))
             = 1%nat)
  /\ (forall p q, In p (profiles d) -> In q (profiles d) ->
                  Profile.email p = Profile.email q -> p = q).
Proof.
  intros R. apply reachable_sound in R. split.
  - intros u Hu.
    pose proof (unique_key_count Profile.id (User.id u) (profiles d) (profiles_pkey d R)).
    assert (has_key Profile.id (User.id u) (profiles d) = true) as K.
    { pose proof (users_have_profiles d R) as F. unfold refers in F.
      rewrite Forall_forall in F. now apply F. }
    apply key_count_at_least_one in K. lia.
  - intros p q Hp Hq E.
    exact (NoDup_map_inj Profile.email (profiles d) p q (profiles_email_key d R) Hp Hq E).
Qed.

Lemma user_role_of_text_Ok (s : string) :
  (exists r, user_role_of_text s = Ok r)
  <-> In s ["user"%string; "owner"%string; "admin"%string].
Proof.
  unfold user_role_of_text. simpl.
  destruct (String.eqb_spec s "user"); [split; eauto|].
  destruct (String.eqb_spec s "owner"); [split; eauto|].
  destruct (String.eqb_spec s "admin"); [split; eauto|].
  split.
  - intros (r & H). discriminate.
  - intros [H|[H|[H|[]]]]; congruence.
Qed.

Lemma user_role_of_text_Err (s : string) :
  ~ In s ["user"%string; "owner"%string; "admin"%string] ->
  user_role_of_text s = Err (invalid_text_representation "user_role").
Proof.
  intros H. unfold user_role_of_text.
  destruct (String.eqb_spec s "user"); [exfalso; apply H; simpl; auto|].
  destruct (String.eqb_spec s "owner"); [exfalso; apply H; simpl; auto|].
  destruct (String.eqb_spec s "admin"); [exfalso; apply H; simpl; auto|].
  reflexivity.
Qed.

(** X3.  In a database that the schema can be in, a sign-up succeeds exactly
    when the id of the user is new, the role of the metadata (or [user] when
    there is none) is one of the three roles, and the email is present and
    borne by no profile.  With a new id, an unknown role makes it fail with
    an invalid text representation, a missing email with a NOT NULL
    violation, and an email already in use with a unique violation. *)
Theorem sign_up_outcome (u : User.t) (d : db) :
  reachable d ->
  let role_text :=
    with_default "user"%string (UserMetaData.role (User.raw_user_meta_data u)) in
  let roles := ["user"%string; "owner"%string; "admin"%string] in
  ((exists d', insert_auth_user u d = Ok d')
   <-> ~ In (User.id u) (map User.id (auth_users d))
       /\ In role_text roles
       /\ exists email, User.email u = Some email
                        /\ ~ In email (map Profile.email (profiles d)))
  /\ (~ In (User.id u) (map User.id (auth_users d)) ->
      (~ In role_text roles ->
       insert_auth_user u d = Err (invalid_text_representation "user_role"))
      /\ (In role_text roles -> User.email u = None ->
          insert_auth_user u d = Err (not_null_violation "email"))
      /\ (In role_text roles ->
          forall email, User.email u = Some email ->
                        In email (map Profile.email (profiles d)) ->
                        insert_auth_user u d = Err (unique_violation "profiles_email_key"))).
Proof.
  intros R role_text roles. apply reachable_sound in R.
  assert (~ In (User.id u) (map User.id (auth_users d)) ->
          has_key Profile.id (User.id u) (profiles d) = false) as Fresh.
  { intros Hid. apply has_key_false. intros Hin. apply Hid.
    apply in_map_iff in Hin. destruct Hin as (p & E & Hp). rewrite <- E.
    eapply refers_In; [apply (profiles_id_fkey d R) | assumption]. }
  split; [split|].
  - intros (d' & H). unfold insert_auth_user, handle_new_user in H. peel H.
    destruct (User.email u) as [email|]; [|discriminate]. peel H. checked.
    split; [now apply has_key_false|]. split.
    + apply user_role_of_text_Ok. eauto.
    + exists email. split; [reflexivity|]. now apply has_text_key_false.
  - intros (Hid & Hrole & email & Hemail & Hnew).
    apply user_role_of_text_Ok in Hrole. destruct Hrole as (r & Hr).
    unfold insert_auth_user, handle_new_user.
    rewrite (proj2 (has_key_false _ _ _) Hid). cbn [negb require bind].
    fold role_text. rewrite Hr. cbn [bind]. rewrite Hemail.
    cbn [profiles set_auth_users]. rewrite (Fresh Hid).
    rewrite (proj2 (has_text_key_false _ _ _) Hnew). cbn [negb require bind]. eauto.
  - intros Hid. unfold insert_auth_user, handle_new_user.
    rewrite (proj2 (has_key_false _ _ _) Hid). cbn [negb require bind]. fold role_text.
    split; [|split].
    + intros Hrole. now rewrite (user_role_of_text_Err _ Hrole).
    + intros Hrole Hnone. apply user_role_of_text_Ok in Hrole. destruct Hrole as (r & Hr).
      rewrite Hr. cbn [bind]. now rewrite Hnone.
    + intros Hrole email Hemail Hused.
      apply user_role_of_text_Ok in Hrole. destruct Hrole as (r & Hr).
      rewrite Hr. cbn [bind]. rewrite Hemail. cbn [profiles set_auth_users].
      rewrite (Fresh Hid). cbn [negb require bind].
      assert (has_text_key Profile.email email (profiles d) = true) as ->; [|reflexivity].
      destruct (has_text_key Profile.email email (profiles d)) eqn:E; [reflexivity|].
      apply has_text_key_false in E. contradiction.
Qed.

Lemma split_part_1_spec (s : string) (sep : ascii) :
  exists rest,
    s = (split_part_1 s sep ++ rest)%string
    /\ (rest = EmptyString \/ exists rest', rest = String sep rest')
    /\ string_forallb (fun c => negb (Ascii.eqb c sep)) (split_part_1 s sep) = true.
Proof.
  induction s as [|c s IH]; simpl.
  - exists EmptyString. auto.
  - destruct (Ascii.eqb_spec c sep) as [->|Hne].
    + exists (String sep s). simpl. eauto.
    + destruct IH as (rest & E & Hrest & Hall). exists rest. simpl.
      rewrite <- E. repeat split; try assumption.
      rewrite Hall. apply Ascii.eqb_neq in Hne. now rewrite Hne.
Qed.

(** X4.  The profile the sign-up trigger creates bears the name of the
    metadata when there is one; otherwise its name is the part of the email
    before the first at sign: the email is that name followed by nothing or by
    the at sign and the rest, and the name holds no at sign. *)
Theorem profile_name_of_new_user (u : User.t) (d d' : db) :
  insert_auth_user u d = Ok d' ->
  exists p,
    profiles d' = profiles d ++ [p]
    /\ Profile.id p = User.id u
    /\ match UserMetaData.name (User.raw_user_meta_data u) with
       | Some name => Profile.name p = name
       | None =>
           exists email rest,
             User.email u = Some email
             /\ email = (Profile.name p ++ rest)%string
             /\ (rest = EmptyString \/ exists rest', rest = String "@" rest')
             /\ string_forallb (fun c => negb (Ascii.eqb c "@")) (Profile.name p) = true
       end.
Proof.
  intros H. apply insert_auth_user_Ok in H. destruct H as (email & role & E & _ & ->).
  eexists. split; [reflexivity|]. split; [reflexivity|].
  cbn [Profile.name]. destruct (UserMetaData.name (User.raw_user_meta_data u)) as [name|].
  - reflexivity.
  - cbn [with_default]. destruct (split_part_1_spec email "@") as (rest & H1 & H2 & H3).
    exists email, rest. auto.
Qed.

(** ** Vehicles *)

(** X5.  At every point in time a user has at most one vehicle with a given
    licence plate, and an INSERT of a second one fails. *)
Theorem one_vehicle_per_user_and_plate (d : db) :
  reachable d ->
  (forall v w, In v (vehicles d) -> In w (vehicles d) ->
               Vehicle.user_id v = Vehicle.user_id w ->
               Vehicle.license_plate v = Vehicle.license_plate w -> v = w)
  /\ (forall e v w, In w (vehicles d) ->
                    Vehicle.user_id w = Vehicle.user_id v ->
                    Vehicle.license_plate w = Vehicle.license_plate v ->
                    exists err, insert_vehicle e v d = Err err).
Proof.
  intros R. apply reachable_sound in R. split.
  - intros v w Hv Hw U P.
    eapply (NoDup_map_inj plate_key);
      [apply (vehicles_user_id_license_plate_key d R) | assumption | assumption |].
    unfold plate_key. now rewrite U, P.
  - intros e v w Hw U P. destruct (insert_vehicle e v d) as [d'|err] eqn:E; [|eauto].
    exfalso. unfold insert_vehicle in E. peel E.
    match goal with G : check_vehicle _ _ _ = Ok _ |- _ =>
      apply check_vehicle_plate in G; apply G end.
    apply in_map_iff. exists w. split; [|assumption].
    unfold plate_key. now rewrite U, P.
Qed.

(** ** Parking spots *)

Lemma int4_ok_spec (n : Z) : int4_ok n = true <-> -2147483648 <= n <= 2147483647.
Proof. unfold int4_ok. lia. Qed.

Lemma numeric_10_8_ok_spec (n : Z) :
  numeric_10_8_ok n = true <-> -10000000000 < n < 10000000000.
Proof. unfold numeric_10_8_ok. lia. Qed.

Lemma numeric_11_8_ok_spec (n : Z) :
  numeric_11_8_ok n = true <-> -100000000000 < n < 100000000000.
Proof. unfold numeric_11_8_ok. lia. Qed.

Lemma valid_images_spec (s : ParkingSpot.t) :
  valid_images s = true
  <-> forall n, array_length_1 (ParkingSpot.images s) = Some n -> 1 <= n <= 3.
Proof.
  unfold valid_images. destruct (array_length_1 (ParkingSpot.images s)) as [m|].
  - split.
    + intros H n E. injection E as <-. lia.
    + intros H. specialize (H m eq_refl). lia.
  - split; [intros _ n E; discriminate | reflexivity].
Qed.

Lemma valid_price_spec (s : ParkingSpot.t) : valid_price s = true <-> ParkingSpot.price s > 0.
Proof. unfold valid_price. lia. Qed.

(** The images of a spot whose array has one dimension. *)
Lemma one_dimension_images (s : ParkingSpot.t) (m : nat) :
  spot_checks s -> TextArray.dims (ParkingSpot.images s) = [m] ->
  (List.length (TextArray.items (ParkingSpot.images s)) <= 3)%nat.
Proof.
  intros (_ & A & I) D. unfold text_array_ok in A. unfold array_length_1 in I.
  rewrite D in A, I. specialize (I _ eq_refl).
  apply andb_prop in A. destruct A as [_ A]. apply Nat.eqb_eq in A.
  cbn [fold_right] in A. lia.
Qed.

(** X6.  At every point in time every parking spot has a positive price and
    a well-formed array of images whose first dimension, if it has one, has
    a length between 1 and 3; an array of one dimension therefore holds at
    most three images, and an array of more dimensions can hold more.  An
    INSERT succeeds exactly when the array is well formed, the five numbers
    fit their types, the acting user is the owner named by the row, the
    first dimension of the images is absent or between 1 and 3, the price is
    positive, the slots are within bounds, the id is new and the owner has a
    profile. *)
Theorem parking_spot_price_and_images (d : db) :
  reachable d ->
  Forall (fun s => ParkingSpot.price s > 0
                   /\ text_array_ok (ParkingSpot.images s) = true
                   /\ forall n, array_length_1 (ParkingSpot.images s) = Some n -> 1 <= n <= 3)
         (parking_spots d)
  /\ (forall s m, In s (parking_spots d) ->
                  TextArray.dims (ParkingSpot.images s) = [m] ->
                  (List.length (TextArray.items (ParkingSpot.images s)) <= 3)%nat)
  /\ (forall e s,
        insert_parking_spot e s d = Ok (set_parking_spots d (parking_spots d ++ [s]))
        <-> (text_array_ok (ParkingSpot.images s) = true
             /\ -10000000000 < ParkingSpot.latitude s < 10000000000
             /\ -100000000000 < ParkingSpot.longitude s < 100000000000
             /\ -2147483648 <= ParkingSpot.total_slots s <= 2147483647
             /\ -2147483648 <= ParkingSpot.available_slots s <= 2147483647
             /\ -10000000000 < ParkingSpot.price s < 10000000000
             /\ ParkingSpot.owner_id s = auth_uid e
             /\ (forall n, array_length_1 (ParkingSpot.images s) = Some n -> 1 <= n <= 3)
             /\ ParkingSpot.price s > 0
             /\ 0 <= ParkingSpot.available_slots s <= ParkingSpot.total_slots s
             /\ ~ In (ParkingSpot.id s) (map ParkingSpot.id (parking_spots d))
             /\ In (ParkingSpot.owner_id s) (map Profile.id (profiles d)))).
Proof.
  intros R. apply reachable_sound in R. pose proof (parking_spots_checked d R) as K.
  split; [exact K|]. split.
  { intros s m Hs D. rewrite Forall_forall in K. eapply one_dimension_images; eauto. }
  intros e s. split.
  - intros H. unfold insert_parking_spot in H. peel H.
    match goal with G : parking_spot_types _ = Ok _ |- _ =>
      unfold parking_spot_types in G;
      apply bind_Ok in G; destruct G as (? & T1 & G); apply require_Ok in T1;
      apply bind_Ok in G; destruct G as (? & T2 & G); apply require_Ok in T2;
      apply bind_Ok in G; destruct G as (? & T3 & G); apply require_Ok in T3;
      apply bind_Ok in G; destruct G as (? & T4 & G); apply require_Ok in T4;
      apply bind_Ok in G; destruct G as (? & T5 & G); apply require_Ok in T5;
      apply require_Ok in G; rename G into T6 end.
    match goal with G : check_parking_spot _ _ _ = Ok _ |- _ =>
      apply check_parking_spot_Ok in G; destruct G as (S & P & I & F & O) end.
    match goal with G : owners_can_manage_their_spots e s = true |- _ =>
      unfold owners_can_manage_their_spots in G; apply Z.eqb_eq in G end.
    apply numeric_10_8_ok_spec in T2. apply numeric_11_8_ok_spec in T3.
    apply int4_ok_spec in T4, T5. apply numeric_10_2_ok_spec in T6.
    apply valid_slots_bounds in S. unfold slots_within_bounds in S.
    apply valid_price_spec in P. apply has_key_false in F. apply has_key_In in O.
    pose proof (proj1 (valid_images_spec s) I) as I'.
    repeat split; try assumption; try lia; intros; apply I'; assumption.
  - intros (A & La & Lo & T & V & N & W & I & P & S & F & O).
    unfold insert_parking_spot. policies.
    unfold parking_spot_types, check_parking_spot, parking_spot_checks,
      owners_can_manage_their_spots.
    rewrite A, (proj2 (numeric_10_8_ok_spec _) La), (proj2 (numeric_11_8_ok_spec _) Lo),
      (proj2 (int4_ok_spec _) T), (proj2 (int4_ok_spec _) V),
      (proj2 (numeric_10_2_ok_spec _) N), W, Z.eqb_refl,
      (proj2 (valid_images_spec _) I), (proj2 (valid_price_spec _) P),
      (proj2 (valid_slots_bounds _) S), (proj2 (has_key_false _ _ _) F).
    rewrite <- W, (proj2 (has_key_In _ _ _) O). reflexivity.
Qed.

(** ** The tables no client can write to *)

(** X7.  No availability block is ever stored: every INSERT, UPDATE and
    DELETE of a client on [availability_blocks] is refused, whatever the row
    and whoever sends it, because the policy that lets the owner of a spot
    manage its blocks reads [parking_spots], whose SELECT policies reach the
    policy of [profiles] that reads [profiles]; the table is empty at every
    point in time. *)
Theorem availability_blocks_never_stored (d : db) :
  reachable d ->
  availability_blocks d = []
  /\ (forall e b,
        insert_availability_block e b d = Err (invalid_object_definition "profiles")
        /\ step d (e, InsertAvailabilityBlock b) = d)
  /\ (forall e id b,
        update_availability_block e id b d = Err (invalid_object_definition "profiles"))
  /\ (forall e id,
        delete_availability_block e id d = Err (invalid_object_definition "profiles")).
Proof.
  intros R. apply reachable_never_written in R. destruct R as (_ & _ & A).
  split; [exact A|]. split; [|split].
  - intros e b. split; [apply insert_availability_block_refused|].
    apply step_Err with (err := invalid_object_definition "profiles").
    apply insert_availability_block_refused.
  - intros e id b. apply update_availability_block_refused.
  - intros e id. apply delete_availability_block_refused.
Qed.

(** X11.  No payment slip is ever stored: every INSERT, UPDATE and DELETE of
    a client on [payment_slips] is refused, whatever the row and whoever
    sends it, because each policy of the table reads [bookings], whose
    SELECT policies reach the policy of [profiles] that reads [profiles];
    the table is empty at every point in time, so no payment is ever
    submitted or verified. *)
Theorem payment_slips_never_stored (d : db) :
  reachable d ->
  payment_slips d = []
  /\ (forall e s,
        insert_payment_slip e s d = Err (invalid_object_definition "profiles")
        /\ step d (e, InsertPaymentSlip s) = d)
  /\ (forall e id s,
        update_payment_slip e id s d = Err (invalid_object_definition "profiles"))
  /\ (forall e id,
        delete_payment_slip e id d = Err (invalid_object_definition "profiles")).
Proof.
  intros R. apply reachable_never_written in R. destruct R as (P & _ & _).
  split; [exact P|]. split; [|split].
  - intros e s. split; [apply insert_payment_slip_refused|].
    apply step_Err with (err := invalid_object_definition "profiles").
    apply insert_payment_slip_refused.
  - intros e id s. apply update_payment_slip_refused.
  - intros e id. apply delete_payment_slip_refused.
Qed.

(** X15.  No review is ever stored: every INSERT into [reviews] is refused,
    because its policy reads [bookings]; the UPDATE of the trigger
    [on_review_created], which runs with the rights of the inserting user
    and has a WHERE clause on [parking_spots], is refused as well, so that a
    review would be rolled back even if the policy let it through.  The table is
    empty at every point in time. *)
Theorem reviews_never_stored (d : db) :
  reachable d ->
  reviews d = []
  /\ (forall e r,
        insert_review e r d = Err (invalid_object_definition "profiles")
        /\ step d (e, InsertReview r) = d)
  /\ (forall e r d0, update_spot_rating e r d0 = Err (invalid_object_definition "profiles")).
Proof.
  intros R. apply reachable_never_written in R. destruct R as (_ & V & _).
  split; [exact V|]. split.
  - intros e r. split; [apply insert_review_refused|].
    apply step_Err with (err := invalid_object_definition "profiles").
    apply insert_review_refused.
  - intros e r d0. apply update_spot_rating_refused.
Qed.
(** ** What the policies let through *)

(** X8.  The expansion of the policies lets a statement through exactly
    when it is on [vehicles] or [payment_methods]; or an INSERT, UPDATE or
    DELETE on [profiles] or [parking_spots] that reads no column; or an
    INSERT or DELETE on [bookings] that reads no column; or a SELECT, UPDATE
    or DELETE on [reviews].  Every other statement ends, whatever the rows,
    in the policy of [profiles] that reads [profiles]; and the outcome is the
    same however deep the expansion is allowed to go beyond five levels. *)
Theorem row_security_decision (rel : relation) (cmd : command) (reads : bool) :
  (row_security rel cmd reads = Ok tt
   <-> rel = rel_vehicles \/ rel = rel_payment_methods
       \/ (reads = false /\ cmd <> cmd_select
           /\ (rel = rel_profiles \/ rel = rel_parking_spots))
       \/ (reads = false /\ (cmd = cmd_insert \/ cmd = cmd_delete) /\ rel = rel_bookings)
       \/ (rel = rel_reviews /\ cmd <> cmd_insert))
  /\ (row_security rel cmd reads <> Ok tt ->
      row_security rel cmd reads = Err (invalid_object_definition "profiles"))
  /\ (forall fuel, (5 <= fuel)%nat ->
                   expand fuel [] rel cmd reads = row_security rel cmd reads).
Proof.
  split; [|split].
  - destruct rel, cmd, reads; vm_compute; split; intros H;
      try reflexivity; try discriminate H; intuition congruence.
  - destruct rel, cmd, reads; vm_compute; intros H; try reflexivity; now destruct H.
  - intros fuel Hf. do 5 (destruct fuel as [|fuel]; [lia|]).
    destruct rel, cmd, reads; vm_compute; reflexivity.
Qed.


(** ** What a statement changes *)

(** X9.  Whatever statement succeeds, every parking spot of the database it
    leaves either was there before with the same [total_slots] and
    [available_slots], or is the row of that very INSERT or UPDATE by id of
    [parking_spots], or is a spot of the acting user with the columns that an
    UPDATE of [parking_spots] without WHERE clause has set: no booking ever
    changes the slots of a spot. *)
Theorem slots_change_only_by_spot_statements (e : env) (s : statement) (d d' : db) :
  exec e s d = Ok d' ->
  forall x', In x' (parking_spots d') ->
    (exists x, In x (parking_spots d)
               /\ ParkingSpot.id x = ParkingSpot.id x'
               /\ ParkingSpot.total_slots x = ParkingSpot.total_slots x'
               /\ ParkingSpot.available_slots x = ParkingSpot.available_slots x')
    \/ s = InsertParkingSpot x'
    \/ (exists id, s = UpdateParkingSpot id x')
    \/ (exists set x, s = UpdateParkingSpots set
                      /\ In x (parking_spots d)
                      /\ ParkingSpot.owner_id x = auth_uid e
                      /\ x' = set_parking_spot set x).
Proof.
  intros H x' Hx.
  destruct s; statement_cases H; cbn in Hx;
    try (left; exists x'; repeat split; assumption).
  - apply In_without in Hx. left. exists x'. tauto.
  - apply in_app_iff in Hx. destruct Hx as [Hx|[<-|[]]].
    + left. exists x'. auto.
    + right. left. reflexivity.
  - apply in_map_iff in Hx. destruct Hx as (x & <- & Hx).
    destruct (owners_can_manage_their_spots e x) eqn:Own.
    + right. right. right. exists set, x. repeat split; try assumption.
      unfold owners_can_manage_their_spots in Own. now apply Z.eqb_eq.
    + left. exists x. auto.
  - apply filter_In in Hx. left. exists x'. tauto.
Qed.

(** X10.  A booking keeps for good the status it was inserted with.
    Whatever statements follow one another, every booking of the database
    they leave either was there at the start with the same [status],
    [payment_status] and [confirmed_at], or has those of the row that an
    INSERT of the history stored under its id: with the policies of the
    migration as they are, no statement confirms, starts, completes or
    cancels a booking. *)
Theorem booking_status_never_changes (history : list (env * statement)) (d : db) :
  forall b', In b' (bookings (run history d)) ->
    (exists b, In b (bookings d)
               /\ Booking.id b = Booking.id b'
               /\ Booking.status b = Booking.status b'
               /\ Booking.payment_status b = Booking.payment_status b'
               /\ Booking.confirmed_at b = Booking.confirmed_at b')
    \/ (exists e r, In (e, InsertBooking r) history
                    /\ Booking.id (booking_of_insert e r) = Booking.id b'
                    /\ Booking.status (booking_of_insert e r) = Booking.status b'
                    /\ Booking.payment_status (booking_of_insert e r)
                       = Booking.payment_status b'
                    /\ Booking.confirmed_at (booking_of_insert e r) = Booking.confirmed_at b').
Proof.
  revert d. induction history as [|c history IH]; intros d b' Hb.
  - left. exists b'. auto.
  - cbn [run fold_left] in Hb. fold (run history (step d c)) in Hb.
    destruct (IH (step d c) b' Hb) as [(b & Hin & I & S & P & C)|(e & r & Hin & K)].
    + unfold step in Hin. destruct (exec (fst c) (snd c) d) as [d1|err] eqn:E.
      * destruct (booking_frame _ _ _ _ E b Hin)
          as [(b0 & H0 & I0 & S0 & P0 & C0)|(r & Es & ->)].
        -- left. exists b0. repeat split; congruence.
        -- right. exists (fst c), r. split; [|auto].
           left. destruct c as [e s]. cbn in Es |- *. now rewrite Es.
      * left. exists b. auto.
    + right. exists e, r. split; [now right | exact K].
Qed.

(** ** Who can change a row *)

Lemma changed_row_is_target {A} (key : A -> Z) (id : Z) (rows more : list A) (old x : A) :
  NoDup (map key rows) -> lookup key id rows = Some old ->
  In x rows -> ~ In x (without key id rows ++ more) -> x = old.
Proof.
  intros ND L Hx Hnot.
  destruct (Z.eq_dec (key x) id) as [E|Hne].
  - pose proof (lookup_unique key rows x ND Hx) as Lx. rewrite E in Lx. congruence.
  - exfalso. apply Hnot, in_app_iff. left. now apply In_without.
Qed.

Lemma removed_row_is_target {A} (key : A -> Z) (id : Z) (rows : list A) (old x : A) :
  NoDup (map key rows) -> lookup key id rows = Some old ->
  In x rows -> ~ In x (without key id rows) -> x = old.
Proof.
  intros ND L Hx Hnot. apply (changed_row_is_target key id rows [] old x); auto.
  now rewrite app_nil_r.
Qed.

Lemma not_in_filter {A} (p : A -> bool) (l : list A) (x : A) :
  In x l -> ~ In x (filter p l) -> p x = false.
Proof.
  intros Hx Hnot. destruct (p x) eqn:E; [|reflexivity].
  exfalso. apply Hnot, filter_In. auto.
Qed.

Lemma not_in_without {A} (key : A -> Z) (id : Z) (l : list A) (x : A) :
  In x l -> ~ In x (without key id l) -> key x = id.
Proof.
  intros Hx Hnot. apply not_in_filter in Hnot; [|assumption].
  now apply negb_false_iff, Z.eqb_eq in Hnot.
Qed.

Lemma not_in_map_unless {A} (p : A -> bool) (g : A -> A) (l : list A) (x : A) :
  In x l -> ~ In x (map (fun y => if p y then g y else y) l) -> p x = true.
Proof.
  intros Hx Hnot. destruct (p x) eqn:E; [reflexivity|].
  exfalso. apply Hnot, in_map_iff. exists x. rewrite E. auto.
Qed.

(** X12.  A parking spot is changed or removed only by a statement of its
    owner, or by the deletion of a user. *)
Theorem parking_spot_changed_only_by_its_owner (e : env) (s : statement) (d d' : db) :
  reachable d -> exec e s d = Ok d' ->
  forall x, In x (parking_spots d) -> ~ In x (parking_spots d') ->
    ParkingSpot.owner_id x = auth_uid e \/ exists id, s = DeleteAuthUser id.
Proof.
  intros R H x Hx Hnot.
  destruct s; statement_cases H; cbn in Hnot; try contradiction; eauto.
  - exfalso. apply Hnot, in_app_iff. now left.
  - left. apply not_in_map_unless in Hnot; [|assumption].
    unfold owners_can_manage_their_spots in Hnot. now apply Z.eqb_eq.
  - left. apply not_in_filter in Hnot; [|assumption].
    apply negb_false_iff in Hnot.
    unfold owners_can_manage_their_spots in Hnot. now apply Z.eqb_eq.
Qed.

(** X14.  A booking is removed only when the owner of its spot deletes the
    spots they own or when a user is deleted, and it is changed only by the
    deletion of the vehicle it names, which makes it forget the vehicle:
    neither its consumer nor the owner of the spot has a statement that
    changes or cancels it. *)
Theorem booking_changed_only_by_its_parties (e : env) (s : statement) (d d' : db) :
  reachable d -> exec e s d = Ok d' ->
  forall x, In x (bookings d) -> ~ In x (bookings d') ->
    (s = DeleteParkingSpots /\ owns_spot e d (Booking.spot_id x) = true
     /\ ~ In (Booking.id x) (map Booking.id (bookings d')))
    \/ (exists id, s = DeleteAuthUser id)
    \/ (exists id, s = DeleteVehicle id /\ Booking.vehicle_id x = Some id
                   /\ In (forget_vehicles [id] x) (bookings d')).
Proof.
  intros R H x Hx Hnot. pose proof (bookings_pkey d (reachable_ok d R)) as ND.
  destruct s; statement_cases H; cbn in Hnot; try contradiction; eauto.
  - left. split; [reflexivity|].
    apply not_in_filter in Hnot; [|assumption]. apply negb_false_iff in Hnot.
    apply existsb_exists in Hnot. destruct Hnot as (k & Hk & E). apply Z.eqb_eq in E.
    subst k. apply in_map_iff in Hk. destruct Hk as (sp & Ek & Hsp).
    apply filter_In in Hsp. destruct Hsp as [Hsp Own]. split.
    + unfold owns_spot. apply existsb_exists. exists sp. split; [assumption|].
      unfold owners_can_manage_their_spots in Own. now rewrite Ek, Z.eqb_refl, Own.
    + cbn. intros Hin. apply in_map_iff in Hin. destruct Hin as (y & Ey & Hy).
      apply filter_In in Hy. destruct Hy as [Hy Ky].
      assert (y = x) as -> by (eapply NoDup_map_inj; eassumption).
      apply negb_true_iff in Ky.
      assert (existsb (Z.eqb (Booking.spot_id x))
                (map ParkingSpot.id
                   (filter (owners_can_manage_their_spots e) (parking_spots d))) = true)
        as C; [|congruence].
      apply existsb_exists. exists (ParkingSpot.id sp). split; [|now apply Z.eqb_eq].
      apply in_map, filter_In. auto.
  - right. right. exists id.
    destruct (Booking.vehicle_id x) as [v|] eqn:V.
    + destruct (Z.eq_dec v id) as [->|Hne].
      * split; [reflexivity|]. split; [reflexivity|]. cbn.
        apply in_map_iff. exists x. split; [|assumption].
        unfold forget_vehicles. now rewrite V.
      * exfalso. apply Hnot, in_map_iff. exists x. split; [|assumption].
        unfold forget_vehicles. rewrite V. simpl.
        apply Z.eqb_neq in Hne. now rewrite Hne.
    + exfalso. apply Hnot, in_map_iff. exists x. split; [|assumption].
      unfold forget_vehicles. now rewrite V.
  - exfalso. apply Hnot, in_app_iff. now left.
Qed.

(** X16.  A vehicle is changed or removed only by a statement of its user, or
    by the deletion of a user. *)
Theorem vehicle_changed_only_by_its_user (e : env) (s : statement) (d d' : db) :
  reachable d -> exec e s d = Ok d' ->
  forall x, In x (vehicles d) -> ~ In x (vehicles d') ->
    Vehicle.user_id x = auth_uid e \/ exists id, s = DeleteAuthUser id.
Proof.
  intros R H x Hx Hnot. pose proof (vehicles_pkey d (reachable_sound d R)) as ND.
  destruct s; statement_cases H; cbn in Hnot; try contradiction; eauto.
  - exfalso. apply Hnot, in_app_iff. now left.
  - match goal with L : lookup _ _ _ = Some ?old |- _ =>
      assert (x = old) as -> by (eapply changed_row_is_target; eassumption) end.
    match goal with P : negb _ = false |- _ => apply negb_false_iff in P end.
    left. now apply Z.eqb_eq.
  - match goal with L : lookup _ _ _ = Some ?old |- _ =>
      assert (x = old) as -> by (eapply removed_row_is_target; eassumption) end.
    match goal with P : negb _ = false |- _ => apply negb_false_iff in P end.
    left. now apply Z.eqb_eq.
Qed.

(** ** Profiles *)

(** X17.  A profile is changed only by an UPDATE of [profiles] that its own
    user sends, which leaves its id as it is, and it is removed only by the
    deletion of its user; no user can change the profile of another, and no
    administrator can either. *)
Theorem profile_changed_only_by_its_user (e : env) (s : statement) (d d' : db) :
  reachable d -> exec e s d = Ok d' ->
  forall x, In x (profiles d) -> ~ In x (profiles d') ->
    (exists set, s = UpdateProfiles set
                 /\ Profile.id x = auth_uid e
                 /\ In (set_profile set x) (profiles d'))
    \/ s = DeleteAuthUser (Profile.id x).
Proof.
  intros R H x Hx Hnot. pose proof (profiles_pkey d (reachable_sound d R)) as ND.
  destruct s; statement_cases H; cbn in Hnot; try contradiction.
  - exfalso. apply Hnot, in_app_iff. now left.
  - right. f_equal. symmetry. now apply (not_in_without Profile.id id (profiles d)).
  - left.
    match goal with L : lookup _ _ _ = Some ?old |- _ =>
      assert (x = old) as -> by (eapply changed_row_is_target; eassumption);
      apply lookup_In in L; destruct L as [_ L] end.
    exists set. split; [reflexivity|]. split; [assumption|].
    cbn. apply in_app_iff. right. now left.
Qed.

(** ** Round trips *)

Section FreshKeys.
Context {A : Type} (key : A -> Z).

Lemma filter_all (p : A -> bool) (l : list A) :
  (forall x, In x l -> p x = true) -> filter p l = l.
Proof.
  induction l as [|x l IH]; simpl; intros H; [reflexivity|].
  rewrite (H x (or_introl eq_refl)), IH; auto.
Qed.

Lemma filter_none (p : A -> bool) (l : list A) :
  (forall x, In x l -> p x = false) -> filter p l = [].
Proof.
  induction l as [|x l IH]; simpl; intros H; [reflexivity|].
  rewrite (H x (or_introl eq_refl)), IH; auto.
Qed.

Lemma without_absent (id : Z) (rows : list A) :
  has_key key id rows = false -> without key id rows = rows.
Proof.
  intros H. apply filter_all. intros x Hx. apply negb_true_iff, Z.eqb_neq.
  intros E. apply has_key_false in H. apply H. rewrite <- E. now apply in_map.
Qed.

Lemma filter_absent (id : Z) (rows : list A) :
  has_key key id rows = false -> filter (fun r => key r =? id) rows = [].
Proof.
  intros H. apply filter_none. intros x Hx. apply Z.eqb_neq.
  intros E. apply has_key_false in H. apply H. rewrite <- E. now apply in_map.
Qed.

Lemma without_last_fresh (rows : list A) (x : A) :
  has_key key (key x) rows = false -> without key (key x) (rows ++ [x]) = rows.
Proof.
  intros H. unfold without. rewrite filter_app. simpl. rewrite Z.eqb_refl. simpl.
  rewrite app_nil_r. now apply without_absent.
Qed.

Lemma lookup_last_fresh (rows : list A) (x : A) :
  has_key key (key x) rows = false -> lookup key (key x) (rows ++ [x]) = Some x.
Proof.
  unfold lookup, has_key. induction rows as [|r rows IH]; simpl.
  - now rewrite Z.eqb_refl.
  - intros H. apply orb_false_iff in H. destruct H as [H1 H2]. rewrite H1. auto.
Qed.
End FreshKeys.

(** No row refers to a key that the table referred to does not hold. *)
Lemma unreferenced_absent {R T} (f : R -> Z) (rows : list R) (k : T -> Z)
    (targets : list T) (id : Z) :
  refers f rows k targets -> has_key k id targets = false -> has_key f id rows = false.
Proof.
  intros Ref H. apply has_key_false. intros Hin. apply has_key_false in H. apply H.
  apply in_map_iff in Hin. destruct Hin as (r & <- & Hr). eapply refers_In; eassumption.
Qed.

Lemma db_eta (d : db) :
  mkdb (auth_users d) (profiles d) (parking_spots d) (vehicles d) (bookings d)
       (payment_slips d) (reviews d) (availability_blocks d) = d.
Proof. now destruct d. Qed.

Lemma lookup_absent {A} (key : A -> Z) (id : Z) (rows : list A) :
  lookup key id rows = None -> has_key key id rows = false.
Proof.
  unfold lookup, has_key. induction rows as [|r rows IH]; simpl; [reflexivity|].
  destruct (key r =? id); [discriminate | exact IH].
Qed.

Lemma forget_no_vehicle (gone : list uuid) (vs : list Vehicle.t) (b : Booking.t) :
  references Vehicle.id (Booking.vehicle_id b) vs = true ->
  (forall id, In id gone -> has_key Vehicle.id id vs = false) ->
  forget_vehicles gone b = b.
Proof.
  intros Ref Gone. unfold forget_vehicles, references in *.
  destruct (Booking.vehicle_id b) as [v|]; [|reflexivity].
  destruct (existsb (Z.eqb v) gone) eqn:E; [|reflexivity].
  apply existsb_exists in E. destruct E as (id & Hid & E). apply Z.eqb_eq in E. subst id.
  rewrite (Gone v Hid) in Ref. discriminate.
Qed.

Lemma forget_no_vehicles (gone : list uuid) (vs : list Vehicle.t) (bs : list Booking.t) :
  Forall (fun b => references Vehicle.id (Booking.vehicle_id b) vs = true) bs ->
  (forall id, In id gone -> has_key Vehicle.id id vs = false) ->
  map (forget_vehicles gone) bs = bs.
Proof.
  intros Ref Gone. induction Ref as [|b bs Hb _ IH]; simpl; [reflexivity|].
  now rewrite (forget_no_vehicle gone vs b Hb Gone), IH.
Qed.

(** X18.  A vehicle that has just been inserted can be deleted by its user,
    and the database is then exactly what it was before the INSERT: no
    booking names the new vehicle yet, so none forgets its vehicle. *)
Theorem insert_then_delete_vehicle (e e' : env) (v : Vehicle.t) (d d1 : db) :
  reachable d -> insert_vehicle e v d = Ok d1 -> auth_uid e' = auth_uid e ->
  delete_vehicle e' (Vehicle.id v) d1 = Ok d.
Proof.
  intros R H Same. apply reachable_ok in R.
  unfold insert_vehicle in H. peel H. unfold check_vehicle in *. 
  repeat match goal with P : bind _ _ = Ok _ |- _ => peel P end. checked.
  injection H as <-.
  match goal with K : has_key Vehicle.id (Vehicle.id v) (vehicles d) = false
    |- _ => rename K into Fresh end.
  unfold delete_vehicle. cbn [vehicles set_vehicles bookings].
  rewrite (lookup_last_fresh Vehicle.id _ _ Fresh).
  unfold users_can_manage_their_vehicles in *. rewrite Same.
  match goal with P : (Vehicle.user_id v =? auth_uid e) = true |- _ => rewrite P end.
  cbn [negb]. rewrite (without_last_fresh Vehicle.id _ _ Fresh).
  rewrite (forget_no_vehicles [Vehicle.id v] (vehicles d) (bookings d)
             (bookings_vehicle_id_fkey d R)).
  - unfold set_bookings, set_vehicles. cbn. now rewrite db_eta.
  - intros id [<-|[]]. exact Fresh.
Qed.

Lemma no_verifier {T} (id : Z) (slips : list PaymentSlip.t) (k : T -> Z) (targets : list T) :
  may_refer PaymentSlip.verified_by slips k targets -> has_key k id targets = false ->
  existsb (fun s => match PaymentSlip.verified_by s with
                    | Some v => v =? id
                    | None => false
                    end) slips = false.
Proof.
  intros Ref H. destruct (existsb _ slips) eqn:E; [|reflexivity].
  apply existsb_exists in E. destruct E as (s & Hs & E).
  destruct (PaymentSlip.verified_by s) as [v|] eqn:Ev; [|discriminate].
  apply Z.eqb_eq in E. subst v.
  pose proof (may_refer_In _ _ _ _ s id Ref Hs Ev) as K.
  apply has_key_false in H. contradiction.
Qed.

(** X19.  Deleting a user who has just signed up gives back exactly the
    database from before the sign-up: the cascade finds nothing else that
    belongs to the new user, and no payment slip or availability block names
    the user. *)
Theorem sign_up_then_delete_user (u : User.t) (d d1 : db) :
  reachable d -> insert_auth_user u d = Ok d1 -> delete_auth_user (User.id u) d1 = Ok d.
Proof.
  intros R H. pose proof (reachable_ok d R) as K. apply reachable_sound in R.
  pose proof H as H0. apply insert_auth_user_Ok in H0.
  destruct H0 as (email & role & _ & _ & ->).
  unfold insert_auth_user, handle_new_user in H. peel H.
  destruct (User.email u); [|discriminate]. peel H. checked. clear H.
  match goal with F : has_key User.id _ _ = false |- _ => rename F into FreshU end.
  match goal with F : has_key Profile.id _ _ = false |- _ =>
    cbn [profiles set_auth_users] in F; rename F into Fresh end.
  pose proof (unreferenced_absent _ _ _ _ _ (parking_spots_owner_id_fkey d R) Fresh) as S.
  pose proof (unreferenced_absent _ _ _ _ _ (vehicles_user_id_fkey d R) Fresh) as V.
  pose proof (unreferenced_absent _ _ _ _ _ (bookings_user_id_fkey d K) Fresh) as B.
  pose proof (unreferenced_absent _ _ _ _ _ (reviews_user_id_fkey d R) Fresh) as W.
  pose proof (unreferenced_absent _ _ _ _ _ (availability_blocks_created_by_fkey d R) Fresh)
    as A.
  pose proof (no_verifier _ _ _ _ (payment_slips_verified_by_fkey d R) Fresh) as P.
  unfold delete_auth_user.
  cbn [auth_users profiles parking_spots vehicles bookings payment_slips reviews
       availability_blocks].
  rewrite (lookup_last_fresh User.id _ _ FreshU).
  rewrite (filter_absent ParkingSpot.owner_id _ _ S), (filter_absent Vehicle.user_id _ _ V).
  cbn [map].
  assert (forall b, In b (bookings d) ->
            negb (Booking.user_id b =? User.id u)
            && negb (existsb (Z.eqb (Booking.spot_id b)) (@nil uuid)) = true) as Kept.
  { intros b Hb. cbn [existsb negb]. rewrite andb_true_r. apply negb_true_iff, Z.eqb_neq.
    intros E. apply has_key_false in B. apply B. rewrite <- E. now apply in_map. }
  match goal with |- context [filter ?p (bookings d)] =>
    rewrite (filter_none p (bookings d)) by (intros b Hb; cbn beta; now rewrite (Kept b Hb)) end.
  cbn [map existsb negb]. rewrite !filter_all by reflexivity.
  rewrite P, A. cbn [negb require bind].
  rewrite (without_last_fresh User.id _ _ FreshU).
  match goal with |- context [without Profile.id _ (profiles d ++ [?p])] =>
    change (User.id u) with (Profile.id p) at 1;
    rewrite (without_last_fresh Profile.id (profiles d) p Fresh) end.
  rewrite (without_absent ParkingSpot.owner_id _ _ S), (without_absent Vehicle.user_id _ _ V).
  rewrite (filter_all _ (bookings d)) by exact Kept.
  rewrite (forget_no_vehicles [] (vehicles d) (bookings d) (bookings_vehicle_id_fkey d K))
    by (intros id []).
  rewrite (filter_all _ (reviews d)).
  - now rewrite db_eta.
  - intros r Hr. cbn [andb]. rewrite andb_true_r. apply negb_true_iff, Z.eqb_neq.
    intros E. apply has_key_false in W. apply W. rewrite <- E. now apply in_map.
Qed.

(** X20.  Once a user has been deleted, no row of any table names the user
    any more: the profile, the spots, vehicles, bookings and reviews of the
    user are gone with it, and the statement does not go through while a
    payment slip names the user as verifier or an availability block as
    creator. *)
Theorem deleted_user_is_named_nowhere (id : uuid) (d d' : db) :
  reachable d -> delete_auth_user id d = Ok d' ->
  ~ In id (map User.id (auth_users d'))
  /\ ~ In id (map Profile.id (profiles d'))
  /\ ~ In id (map ParkingSpot.owner_id (parking_spots d'))
  /\ ~ In id (map Vehicle.user_id (vehicles d'))
  /\ ~ In id (map Booking.user_id (bookings d'))
  /\ ~ In id (map Review.user_id (reviews d'))
  /\ ~ In id (map AvailabilityBlock.created_by (availability_blocks d'))
  /\ ~ In (Some id) (map PaymentSlip.verified_by (payment_slips d')).
Proof.
  intros R H.
  pose proof (delete_auth_user_ok id d d' (reachable_ok d R) H) as K'.
  pose proof (delete_auth_user_sound id d d' (reachable_sound d R) H) as R'.
  apply reachable_sound in R.
  assert (has_key User.id id (auth_users d') = false
          /\ has_key Profile.id id (profiles d') = false) as [U Fresh].
  { unfold delete_auth_user in H. destruct (lookup User.id id (auth_users d)) eqn:L.
    - peel H. injection H as <-. cbn [auth_users profiles].
      split; apply has_key_without.
    - injection H as <-. apply lookup_absent in L. split; [exact L|].
      exact (unreferenced_absent _ _ _ _ _ (profiles_id_fkey d R) L). }
  repeat split; try (apply has_key_false; first [exact U | exact Fresh]).
  - apply has_key_false.
    exact (unreferenced_absent _ _ _ _ _ (parking_spots_owner_id_fkey d' R') Fresh).
  - apply has_key_false.
    exact (unreferenced_absent _ _ _ _ _ (vehicles_user_id_fkey d' R') Fresh).
  - apply has_key_false.
    exact (unreferenced_absent _ _ _ _ _ (bookings_user_id_fkey d' K') Fresh).
  - apply has_key_false.
    exact (unreferenced_absent _ _ _ _ _ (reviews_user_id_fkey d' R') Fresh).
  - apply has_key_false.
    exact (unreferenced_absent _ _ _ _ _ (availability_blocks_created_by_fkey d' R') Fresh).
  - intros Hin. apply in_map_iff in Hin. destruct Hin as (s & E & Hs).
    apply has_key_false in Fresh. apply Fresh.
    exact (may_refer_In _ _ _ _ s id (payment_slips_verified_by_fkey d' R') Hs E).
Qed.

(** ** The code of a booking *)

(** X21.  An INSERT into [bookings] whose code, given or drawn, is already
    borne by a booking stores nothing: it fails, and when the row passes the
    checks that come first, with a unique violation on the code.  No other
    code is drawn in its place. *)
Theorem booking_code_collision_fails (e : env) (r : BookingInsert.t) (d : db) :
  let new := booking_of_insert e r in
  In (Booking.qr_code new) (map Booking.qr_code (bookings d)) ->
  (exists err, insert_booking e r d = Err err)
  /\ (numeric_10_2_ok (Booking.total_cost new) = true ->
      Booking.user_id new = auth_uid e ->
      Booking.end_time new > Booking.start_time new ->
      Booking.total_cost new > 0 ->
      ~ In (Booking.id new) (map Booking.id (bookings d)) ->
      insert_booking e r d = Err (unique_violation "bookings_qr_code_key")).
Proof.
  intros new Hin.
  assert (has_text_key Booking.qr_code (Booking.qr_code new) (bookings d) = true) as Used.
  { destruct (has_text_key Booking.qr_code (Booking.qr_code new) (bookings d)) eqn:E;
      [reflexivity|]. apply has_text_key_false in E. contradiction. }
  split.
  - destruct (insert_booking e r d) as [d'|err] eqn:H; [|eauto]. exfalso.
    unfold insert_booking, check_booking in H. fold new in H. peel H.
    repeat match goal with P : bind _ _ = Ok _ |- _ => peel P end. checked.
    congruence.
  - intros Hn Hu Ht Hc Hid. unfold insert_booking, check_booking. fold new.
    rewrite Hn. unfold users_can_create_bookings. rewrite Hu, Z.eqb_refl.
    unfold valid_booking_time, valid_cost.
    rewrite (proj2 (Z.gtb_lt _ _)) by lia. rewrite (proj2 (Z.gtb_lt _ _)) by lia.
    rewrite (proj2 (has_key_false _ _ _) Hid), Used. reflexivity.
Qed.

(** ** [generate_booking_code()] *)

Lemma length_take (n : nat) (s : string) : String.length (take n s) = Nat.min n (String.length s).
Proof.
  revert s. induction n as [|n IH]; intros [|c s]; simpl; try reflexivity.
  now rewrite IH.
Qed.

Lemma length_upper (s : string) : String.length (upper s) = String.length s.
Proof. induction s as [|c s IH]; simpl; [reflexivity | now rewrite IH]. Qed.

Lemma length_string_app (s t : string) :
  String.length (s ++ t) = (String.length s + String.length t)%nat.
Proof. induction s as [|c s IH]; simpl; [reflexivity | now rewrite IH]. Qed.

Lemma upper_hex_digit (c : ascii) :
  is_hex_digit c = true -> is_upper_hex_digit (upper_char c) = true.
Proof.
  unfold is_hex_digit, hex_alphabet. cbn [list_ascii_of_string existsb]. intros H.
  repeat (apply orb_true_iff in H; destruct H as [H|H];
          [apply Ascii.eqb_eq in H; subst c; reflexivity|]).
  discriminate H.
Qed.

Lemma upper_hex (s : string) :
  string_forallb is_hex_digit s = true -> string_forallb is_upper_hex_digit (upper s) = true.
Proof.
  induction s as [|c s IH]; simpl; [reflexivity|]. intros H.
  apply andb_true_iff in H. destruct H as [H1 H2].
  now rewrite (upper_hex_digit c H1), IH.
Qed.

(** X22.  For a day of eight characters and the text of a UUID, whose first
    eight characters are hexadecimal digits, [generate_booking_code()]
    returns 19 characters: [PB], the day, a hyphen and eight upper-case
    hexadecimal digits.  Only the first eight characters of the UUID enter
    the code: two UUIDs that agree on them give the same code. *)
Theorem generate_booking_code_format (day uuid_text : string) :
  String.length day = 8%nat -> (8 <= String.length uuid_text)%nat ->
  string_forallb is_hex_digit (take 8 uuid_text) = true ->
  (exists suffix,
      generate_booking_code day uuid_text = ("PB" ++ day ++ "-" ++ suffix)%string
      /\ String.length suffix = 8%nat
      /\ string_forallb is_upper_hex_digit suffix = true)
  /\ String.length (generate_booking_code day uuid_text) = 19%nat
  /\ (forall other, take 8 other = take 8 uuid_text ->
                    generate_booking_code day other = generate_booking_code day uuid_text).
Proof.
  intros Hday Hlen Hhex.
  assert (String.length (upper (take 8 uuid_text)) = 8%nat) as L.
  { rewrite length_upper, length_take. lia. }
  split; [|split].
  - exists (upper (take 8 uuid_text)). split; [reflexivity|]. split; [exact L|].
    now apply upper_hex.
  - unfold generate_booking_code. rewrite !length_string_app, Hday, L. reflexivity.
  - intros other E. unfold generate_booking_code. now rewrite E.
Qed.

(** ** Sign-up through the client *)

(** X23.  When the metadata of a new user is what [signUp] of the client
    passes, the profile that the trigger creates has the role [user] if the
    caller named no role or the empty one, and otherwise the role the caller
    named; a role that is none of [user], [owner] and [admin] makes the
    sign-up of a new user fail in the cast of the trigger. *)
Theorem sign_up_role_from_client (userData : UserData.t) (u : User.t) (d : db) :
  User.raw_user_meta_data u = signUp_data userData ->
  (forall d', insert_auth_user u d = Ok d' ->
     exists p,
       profiles d' = profiles d ++ [p]
       /\ Profile.id p = User.id u
       /\ (UserData.role userData = None \/ UserData.role userData = Some EmptyString ->
           Profile.role p = role_user)
       /\ (forall s, UserData.role userData = Some s -> s <> EmptyString ->
                     user_role_of_text s = Ok (Profile.role p)))
  /\ (forall s, UserData.role userData = Some s ->
                ~ In s [EmptyString; "user"%string; "owner"%string; "admin"%string] ->
                ~ In (User.id u) (map User.id (auth_users d)) ->
                insert_auth_user u d = Err (invalid_text_representation "user_role")).
Proof.
  intros Meta. split.
  - intros d' H. apply insert_auth_user_Ok in H. destruct H as (email & role & _ & Hr & ->).
    rewrite Meta in Hr. cbn [signUp_data UserMetaData.role with_default] in Hr.
    eexists. split; [reflexivity|]. split; [reflexivity|]. cbn [Profile.role]. split.
    + intros [E|E]; rewrite E in Hr; cbn in Hr; congruence.
    + intros s E Hs. rewrite E in Hr. destruct s; [contradiction | exact Hr].
  - intros s E Hs Hid. unfold insert_auth_user, handle_new_user.
    rewrite (proj2 (has_key_false _ _ _) Hid). cbn [negb require bind].
    rewrite Meta. cbn [signUp_data UserMetaData.role with_default]. rewrite E.
    assert (js_or (Some s) "user" = s) as -> by
      (destruct s; [exfalso; apply Hs; now left | reflexivity]).
    rewrite user_role_of_text_Err; [reflexivity|].
    intros Hin. apply Hs. now right.
Qed.
(** ** The further properties at work on the sample history *)

Lemma no_dangling_reference_witness :
  reachable db_driven
  /\ bookings db_driven
     = [Booking.mk 100 2 10 (Some 50) 600 660 5000 pending pay_pending
                   "2a2a2a2a2a2a2a2a2a2a2a2a2a2a2a2a" "0042" None]
  /\ forall b, In b (bookings db_driven) ->
       In (Booking.user_id b) (map Profile.id (profiles db_driven))
       /\ In (Booking.spot_id b) (map ParkingSpot.id (parking_spots db_driven))
       /\ forall v, Booking.vehicle_id b = Some v ->
                    In v (map Vehicle.id (vehicles db_driven)).
Proof.
  assert (reachable db_driven) as R by (exists history_driven; vm_compute; reflexivity).
  split; [exact R|]. split; [vm_compute; reflexivity|].
  exact (proj1 (proj2 (proj2 (proj2 (no_dangling_reference db_driven R))))).
Defined.

Lemma every_user_has_one_profile_witness :
  reachable db_listed
  /\ forall u, In u (auth_users db_listed) ->
       List.length (filter (fun p => (Profile.id p =? User.id u)%Z) (profiles db_listed))
       = 1%nat.
Proof.
  assert (reachable db_listed) as R by (exists history_listed; vm_compute; reflexivity).
  split; [exact R|].
  exact (proj1 (every_user_has_one_profile db_listed R)).
Defined.

Lemma sign_up_outcome_witness :
  exists d', insert_auth_user new_user db_listed = Ok d'.
Proof.
  assert (reachable db_listed) as R by (exists history_listed; vm_compute; reflexivity).
  apply (proj2 (proj1 (sign_up_outcome new_user db_listed R))).
  split; [vm_compute; intuition discriminate|].
  split; [vm_compute; left; reflexivity|].
  exists "uwe@park.test"%string. split; [reflexivity|].
  vm_compute. intuition discriminate.
Defined.

Lemma profile_name_of_new_user_witness :
  exists p,
    profiles (step empty_db (sample_env 0 0 x00 0, InsertAuthUser consumer_user))
    = profiles empty_db ++ [p]
    /\ Profile.id p = User.id consumer_user
    /\ exists email rest,
         User.email consumer_user = Some email
         /\ email = (Profile.name p ++ rest)%string
         /\ (rest = EmptyString \/ exists rest', rest = String "@" rest')
         /\ string_forallb (fun c => negb (Ascii.eqb c "@")) (Profile.name p) = true.
Proof.
  apply (profile_name_of_new_user consumer_user empty_db
           (step empty_db (sample_env 0 0 x00 0, InsertAuthUser consumer_user))).
  vm_compute. reflexivity.
Defined.

Lemma one_vehicle_per_user_and_plate_witness :
  exists err,
    insert_vehicle (sample_env 2 0 x00 0) (Vehicle.mk 51 2 "1AB-2345") db_parked = Err err.
Proof.
  assert (reachable db_parked) as R by (exists history_parked; vm_compute; reflexivity).
  apply (proj2 (one_vehicle_per_user_and_plate db_parked R)
               (sample_env 2 0 x00 0) (Vehicle.mk 51 2 "1AB-2345") sample_vehicle).
  - vm_compute. left. reflexivity.
  - reflexivity.
  - reflexivity.
Defined.

(** A spot with four images, in two rows of two, is accepted. *)
Lemma parking_spot_price_and_images_witness :
  reachable db_listed
  /\ List.length (TextArray.items (ParkingSpot.images gallery_spot)) = 4%nat
  /\ insert_parking_spot (sample_env 1 0 x00 0) gallery_spot db_listed
     = Ok (set_parking_spots db_listed (parking_spots db_listed ++ [gallery_spot])).
Proof.
  assert (reachable db_listed) as R by (exists history_listed; vm_compute; reflexivity).
  split; [exact R|]. split; [reflexivity|].
  apply (proj2 (proj2 (parking_spot_price_and_images db_listed R))
               (sample_env 1 0 x00 0) gallery_spot).
  repeat split; try (vm_compute; intuition congruence);
    match goal with E : array_length_1 _ = Some _ |- _ =>
      vm_compute in E; injection E as <-; lia end.
Defined.

(** The owner of the listed spot cannot block it. *)
Lemma availability_blocks_never_stored_witness :
  reachable db_listed
  /\ owns_spot (sample_env 1 0 x00 0) db_listed (AvailabilityBlock.spot_id sample_block) = true
  /\ insert_availability_block (sample_env 1 0 x00 0) sample_block db_listed
     = Err (invalid_object_definition "profiles")
  /\ step db_listed (sample_env 1 0 x00 0, InsertAvailabilityBlock sample_block) = db_listed.
Proof.
  assert (reachable db_listed) as R by (exists history_listed; vm_compute; reflexivity).
  split; [exact R|]. split; [vm_compute; reflexivity|].
  exact (proj1 (proj2 (availability_blocks_never_stored db_listed R))
               (sample_env 1 0 x00 0) sample_block).
Defined.

(** The consumer cannot submit a slip for the pending booking. *)
Lemma payment_slips_never_stored_witness :
  reachable db_booked
  /\ owns_booking (sample_env 2 0 x00 0) db_booked (PaymentSlip.booking_id late_slip) = true
  /\ insert_payment_slip (sample_env 2 0 x00 0) late_slip db_booked
     = Err (invalid_object_definition "profiles")
  /\ step db_booked (sample_env 2 0 x00 0, InsertPaymentSlip late_slip) = db_booked.
Proof.
  assert (reachable db_booked) as R by (exists history_booked; vm_compute; reflexivity).
  split; [exact R|]. split; [vm_compute; reflexivity|].
  exact (proj1 (proj2 (payment_slips_never_stored db_booked R))
               (sample_env 2 0 x00 0) late_slip).
Defined.

(** The consumer cannot review the completed booking. *)
Lemma reviews_never_stored_witness :
  reachable db_completed
  /\ users_can_create_reviews_for_their_completed_bookings
       (sample_env 2 0 x00 0) db_completed five_stars = true
  /\ insert_review (sample_env 2 0 x00 0) five_stars db_completed
     = Err (invalid_object_definition "profiles")
  /\ step db_completed (sample_env 2 0 x00 0, InsertReview five_stars) = db_completed.
Proof.
  assert (reachable db_completed) as R
    by (exists (history_as completed); vm_compute; reflexivity).
  split; [exact R|]. split; [vm_compute; reflexivity|].
  exact (proj1 (proj2 (reviews_never_stored db_completed R))
               (sample_env 2 0 x00 0) five_stars).
Defined.


Lemma slots_change_only_by_spot_statements_witness :
  (exists x, In x (parking_spots db_listed)
             /\ ParkingSpot.id x = ParkingSpot.id one_slot_spot
             /\ ParkingSpot.total_slots x = ParkingSpot.total_slots one_slot_spot
             /\ ParkingSpot.available_slots x = ParkingSpot.available_slots one_slot_spot)
  \/ InsertBooking (request 2 600 660) = InsertParkingSpot one_slot_spot
  \/ (exists id, InsertBooking (request 2 600 660) = UpdateParkingSpot id one_slot_spot)
  \/ (exists set x, InsertBooking (request 2 600 660) = UpdateParkingSpots set
                    /\ In x (parking_spots db_listed)
                    /\ ParkingSpot.owner_id x = auth_uid (sample_env 2 100 x2a (69 # 16384))
                    /\ one_slot_spot = set_parking_spot set x).
Proof.
  apply (slots_change_only_by_spot_statements
           (sample_env 2 100 x2a (69 # 16384)) (InsertBooking (request 2 600 660))
           db_listed db_booked).
  - vm_compute. reflexivity.
  - vm_compute. left. reflexivity.
Defined.

(** The booking that forgets its vehicle is still as the INSERT of the
    history left it. *)
Lemma booking_status_never_changes_witness :
  (exists b, In b (bookings empty_db)
             /\ Booking.id b = Booking.id (sample_booking pending)
             /\ Booking.status b = Booking.status (sample_booking pending)
             /\ Booking.payment_status b = Booking.payment_status (sample_booking pending)
             /\ Booking.confirmed_at b = Booking.confirmed_at (sample_booking pending))
  \/ (exists e r, In (e, InsertBooking r)
                     (history_driven ++ [(sample_env 2 0 x00 0, DeleteVehicle 50)])
                  /\ Booking.id (booking_of_insert e r) = Booking.id (sample_booking pending)
                  /\ Booking.status (booking_of_insert e r)
                     = Booking.status (sample_booking pending)
                  /\ Booking.payment_status (booking_of_insert e r)
                     = Booking.payment_status (sample_booking pending)
                  /\ Booking.confirmed_at (booking_of_insert e r)
                     = Booking.confirmed_at (sample_booking pending)).
Proof.
  apply (booking_status_never_changes
           (history_driven ++ [(sample_env 2 0 x00 0, DeleteVehicle 50)]) empty_db).
  vm_compute. left. reflexivity.
Defined.

(** The owner gives the listed spot three slots. *)
Lemma parking_spot_changed_only_by_its_owner_witness :
  ParkingSpot.owner_id one_slot_spot = auth_uid (sample_env 1 0 x00 0)
  \/ exists id,
       UpdateParkingSpots (ParkingSpotSet.mk None None (Some 3) None None None None None)
       = DeleteAuthUser id.
Proof.
  assert (reachable db_listed) as R by (exists history_listed; vm_compute; reflexivity).
  apply (parking_spot_changed_only_by_its_owner
           (sample_env 1 0 x00 0)
           (UpdateParkingSpots (ParkingSpotSet.mk None None (Some 3) None None None None None))
           db_listed
           (step db_listed
                 (sample_env 1 0 x00 0,
                  UpdateParkingSpots
                    (ParkingSpotSet.mk None None (Some 3) None None None None None)))
           R).
  - vm_compute. reflexivity.
  - vm_compute. left. reflexivity.
  - vm_compute. intros [H|[]]. discriminate H.
Defined.

(** The consumer deletes the vehicle that the booking names. *)
Lemma booking_changed_only_by_its_parties_witness :
  (DeleteVehicle 50 = DeleteParkingSpots
   /\ owns_spot (sample_env 2 0 x00 0) db_driven 10 = true
   /\ ~ In 100 (map Booking.id
                    (bookings (step db_driven (sample_env 2 0 x00 0, DeleteVehicle 50)))))
  \/ (exists id, DeleteVehicle 50 = DeleteAuthUser id)
  \/ (exists id, DeleteVehicle 50 = DeleteVehicle id
                 /\ Some 50 = Some id
                 /\ In (forget_vehicles [id]
                          (Booking.mk 100 2 10 (Some 50) 600 660 5000 pending pay_pending
                                      "2a2a2a2a2a2a2a2a2a2a2a2a2a2a2a2a" "0042" None))
                       (bookings (step db_driven (sample_env 2 0 x00 0, DeleteVehicle 50)))).
Proof.
  assert (reachable db_driven) as R by (exists history_driven; vm_compute; reflexivity).
  apply (booking_changed_only_by_its_parties
           (sample_env 2 0 x00 0) (DeleteVehicle 50) db_driven
           (step db_driven (sample_env 2 0 x00 0, DeleteVehicle 50)) R
           ltac:(vm_compute; reflexivity)
           (Booking.mk 100 2 10 (Some 50) 600 660 5000 pending pay_pending
                       "2a2a2a2a2a2a2a2a2a2a2a2a2a2a2a2a" "0042" None)).
  - vm_compute. left. reflexivity.
  - vm_compute. intros [H|[]]. discriminate H.
Defined.

Lemma vehicle_changed_only_by_its_user_witness :
  Vehicle.user_id sample_vehicle = auth_uid (sample_env 2 0 x00 0)
  \/ exists id, DeleteVehicle 50 = DeleteAuthUser id.
Proof.
  assert (reachable db_parked) as R by (exists history_parked; vm_compute; reflexivity).
  apply (vehicle_changed_only_by_its_user
           (sample_env 2 0 x00 0) (DeleteVehicle 50) db_parked
           (step db_parked (sample_env 2 0 x00 0, DeleteVehicle 50)) R).
  - vm_compute. reflexivity.
  - vm_compute. left. reflexivity.
  - vm_compute. intros [].
Defined.

(** Consumer 2 gives their profile another name and the role of an
    administrator. *)
Lemma profile_changed_only_by_its_user_witness :
  (exists set,
      UpdateProfiles (ProfileSet.mk None (Some "Una"%string) (Some role_admin))
      = UpdateProfiles set
      /\ Profile.id (Profile.mk 2 "una@park.test" "una" role_user)
         = auth_uid (sample_env 2 0 x00 0)
      /\ In (set_profile set (Profile.mk 2 "una@park.test" "una" role_user))
            (profiles (step db_listed
                            (sample_env 2 0 x00 0,
                             UpdateProfiles
                               (ProfileSet.mk None (Some "Una"%string) (Some role_admin))))))
  \/ UpdateProfiles (ProfileSet.mk None (Some "Una"%string) (Some role_admin))
     = DeleteAuthUser (Profile.id (Profile.mk 2 "una@park.test" "una" role_user)).
Proof.
  assert (reachable db_listed) as R by (exists history_listed; vm_compute; reflexivity).
  apply (profile_changed_only_by_its_user
           (sample_env 2 0 x00 0)
           (UpdateProfiles (ProfileSet.mk None (Some "Una"%string) (Some role_admin)))
           db_listed
           (step db_listed
                 (sample_env 2 0 x00 0,
                  UpdateProfiles (ProfileSet.mk None (Some "Una"%string) (Some role_admin))))
           R).
  - vm_compute. reflexivity.
  - vm_compute. right. left. reflexivity.
  - vm_compute. intros [H|[H|[H|[]]]]; discriminate H.
Defined.

Lemma insert_then_delete_vehicle_witness :
  delete_vehicle (sample_env 2 0 x00 0) (Vehicle.id sample_vehicle) db_parked = Ok db_listed.
Proof.
  assert (reachable db_listed) as R by (exists history_listed; vm_compute; reflexivity).
  apply (insert_then_delete_vehicle
           (sample_env 2 0 x00 0) (sample_env 2 0 x00 0) sample_vehicle db_listed db_parked R).
  - vm_compute. reflexivity.
  - reflexivity.
Defined.

Lemma sign_up_then_delete_user_witness :
  delete_auth_user (User.id new_user)
                   (step db_listed (sample_env 0 0 x00 0, InsertAuthUser new_user))
  = Ok db_listed.
Proof.
  assert (reachable db_listed) as R by (exists history_listed; vm_compute; reflexivity).
  apply (sign_up_then_delete_user new_user db_listed
           (step db_listed (sample_env 0 0 x00 0, InsertAuthUser new_user)) R).
  vm_compute. reflexivity.
Defined.

(** Consumer 2 is deleted after the booking. *)
Lemma deleted_user_is_named_nowhere_witness :
  reachable db_booked
  /\ In 2 (map Booking.user_id (bookings db_booked))
  /\ ~ In 2 (map Booking.user_id
                 (bookings (step db_booked (sample_env 0 0 x00 0, DeleteAuthUser 2)))).
Proof.
  assert (reachable db_booked) as R by (exists history_booked; vm_compute; reflexivity).
  assert (delete_auth_user 2 db_booked
          = Ok (step db_booked (sample_env 0 0 x00 0, DeleteAuthUser 2))) as H
    by (vm_compute; reflexivity).
  split; [exact R|]. split; [vm_compute; left; reflexivity|].
  exact (proj1 (proj2 (proj2 (proj2 (proj2
           (deleted_user_is_named_nowhere 2 db_booked
              (step db_booked (sample_env 0 0 x00 0, DeleteAuthUser 2)) R H)))))).
Defined.

Lemma booking_code_collision_fails_witness :
  insert_booking (sample_env 3 101 x2a (1 # 2)) (request 3 630 690) db_booked
  = Err (unique_violation "bookings_qr_code_key").
Proof.
  apply (proj2 (booking_code_collision_fails
                  (sample_env 3 101 x2a (1 # 2)) (request 3 630 690) db_booked
                  ltac:(vm_compute; left; reflexivity))).
  - reflexivity.
  - reflexivity.
  - reflexivity.
  - reflexivity.
  - vm_compute. intuition discriminate.
Defined.

Lemma generate_booking_code_format_witness :
  String.length
    (generate_booking_code "20250619" "3f2a9c1e-7b64-4d2a-9a51-0c1d2e3f4a5b") = 19%nat.
Proof.
  apply (generate_booking_code_format "20250619" "3f2a9c1e-7b64-4d2a-9a51-0c1d2e3f4a5b").
  - reflexivity.
  - vm_compute. repeat constructor.
  - reflexivity.
Defined.

Lemma sign_up_role_from_client_witness :
  exists p,
    profiles (step db_listed (sample_env 0 0 x00 0, InsertAuthUser new_user))
    = profiles db_listed ++ [p]
    /\ Profile.role p = role_user.
Proof.
  destruct (proj1 (sign_up_role_from_client (UserData.mk (Some "Uwe"%string) None)
                     new_user db_listed eq_refl)
                  (step db_listed (sample_env 0 0 x00 0, InsertAuthUser new_user))
                  ltac:(vm_compute; reflexivity))
    as (p & E & _ & Hr & _).
  exists p. split; [exact E|]. apply Hr. left. reflexivity.
Defined.

(** ** Further examples *)

(** Without a WHERE clause the owner can change the slots of all their
    spots at once. *)
Example owner_sets_the_slots :
  parking_spots
    (step db_listed
          (sample_env 1 0 x00 7,
           UpdateParkingSpots
             (ParkingSpotSet.mk None None (Some 3) (Some 2) None None None None)))
  = [ParkingSpot.mk 10 1 1375000000 10050000000 3 2 5000 (text_array ["front.jpg"%string])
                    true 0].
Proof. vm_compute. reflexivity. Qed.

(** The same UPDATE with a WHERE clause on the id is refused. *)
Example owner_update_by_id_refused :
  update_parking_spot (sample_env 1 0 x00 0) 10
    (ParkingSpot.mk 10 1 1375000000 10050000000 3 2 5000 (text_array ["front.jpg"%string])
                    true 0)
    db_listed
  = Err (invalid_object_definition "profiles").
Proof. vm_compute. reflexivity. Qed.

(** When the owner deletes their spots, the booking of the consumer goes
    with them. *)
Example delete_spots_cascades :
  bookings db_booked = [sample_booking pending]
  /\ step db_booked (sample_env 1 0 x00 0, DeleteParkingSpots)
     = run (firstn 3 history_listed) empty_db.
Proof. split; vm_compute; reflexivity. Qed.
